(** * AirTrail: flight record validation and bulk-import deduplication

    A shallow embedding of [src/lib/server/utils/flight.ts], with the
    procedures of its flight router, of the persistence primitives of
    [src/lib/db/queries.ts], of the file import of
    [src/lib/import/airtrail.ts] and of the visited airports of
    [src/lib/utils/data/data.ts].

    - JavaScript strings are [string], nullable fields are [option],
      integer-valued numbers (ids, epoch milliseconds, counts) are [Z] or
      [nat], coordinates and distances are binary64 floats.
    - A JS [Map] keeps insertion order, so it is an association list;
      a JS [Set] is used only through [has] and [size].
    - The database is a record of tables (lists of rows, in insertion
      order) with the serial counters of the [id] columns.  A query
      without [orderBy] returns its rows in an order of the engine's
      choosing: the model lists them in insertion order, and the
      statements read such a result by membership, or up to its order
      (the flights of a list, the seats of a leg).
    - The writes are checked against the constraints of the migration at
      hand: the unique keys of [seat] and of [leg], the foreign keys of
      [leg] and the foreign key of [seat] to [leg].  A statement that the
      engine refuses rejects the promise, [None], and a transaction that
      holds one leaves no row behind.  The ids are drawn from the
      counters, which stand for the sequences; the counters of the model
      stay where they were after a refusal, where the sequences of the
      engine keep what they drew.  Other failures of the engine (a lost
      connection) and the constraints of tables whose definition is not
      at hand are outside the model.
    - The date helpers of [$lib/utils/datetime] and the geodesy helpers of
      [$lib/utils] are not part of the sources at hand: the validator is
      stated over them, as the fields of the class [Helpers].  So are
      the lookups of the import (the mappings of its options, the airport,
      airline and aircraft caches, the users of the application), the
      fields of the class [AirTrail.Lookups].
    - A plain object used as a record of lists is an association list
      over its own keys; [dataUsers], which is read under keys of the
      file, also answers to the properties of its prototype chain. *)

From Stdlib Require Import ZArith List String Ascii Bool Lia Permutation.
From Stdlib Require Import Floats.PrimFloat Floats.FloatOps Floats.SpecFloat.
From Stdlib Require Numbers.Cyclic.Int63.Uint63.
From Stdlib Require Import Numbers.DecimalString Numbers.DecimalPos Numbers.DecimalZ.
Import ListNotations.

Open Scope string_scope.
Open Scope list_scope.
Open Scope Z_scope.

(* ================================================================= *)
(** ** JavaScript values *)

Module Js.

(** [!!s] for a nullable string: null and the empty string are falsy. *)
Definition truthy (o : option string) : bool :=
  match o with
  | Some s => negb (String.eqb s "")
  | None => false
  end.

(** [!!n] for a nullable integer: null, undefined and 0 are falsy. *)
Definition truthyNum (o : option Z) : bool :=
  match o with
  | Some z => negb (Z.eqb z 0)
  | None => false
  end.

(** [String(n)] for an integer-valued number. *)
Definition numToString (z : Z) : string :=
  NilZero.string_of_int (Z.to_int z).

(** The elements the code puts in an array before [join]. *)
Inductive Val : Type :=
| Str (s : string)
| Num (z : Z).

Definition toString (v : Val) : string :=
  match v with
  | Str s => s
  | Num z => numToString z
  end.

(** [xs.join(sep)]. *)
Definition join (sep : string) (xs : list Val) : string :=
  String.concat sep (map toString xs).

(** [s ?? ''] and [n ?? '']. *)
Definition strOrEmpty (o : option string) : Val :=
  match o with Some s => Str s | None => Str "" end.

Definition numOrEmpty (o : option Z) : Val :=
  match o with Some z => Num z | None => Str "" end.

(** [Map<string, V>]: insertion-ordered association list. *)
Definition Map (V : Type) : Type := list (string * V).

Definition has {V} (m : Map V) (k : string) : bool :=
  existsb (fun kv => String.eqb (fst kv) k) m.

Definition get {V} (m : Map V) (k : string) : option V :=
  option_map snd (find (fun kv => String.eqb (fst kv) k) m).

(** [m.set(k, v)]: an existing key keeps its position. *)
Fixpoint set {V} (m : Map V) (k : string) (v : V) : Map V :=
  match m with
  | [] => [(k, v)]
  | (k', v') :: m' =>
      if String.eqb k' k then (k', v) :: m' else (k', v') :: set m' k v
  end.

Definition values {V} (m : Map V) : list V := map snd m.

(** [Set<number>] and [Set<string>]: the elements, without repetition. *)
Definition setOfNums (l : list Z) : list Z := nodup Z.eq_dec l.
Definition setOfStrings (l : list string) : list string := nodup string_dec l.

Definition hasNum (s : list Z) (z : Z) : bool := existsb (Z.eqb z) s.
Definition hasStr (s : list string) (x : string) : bool := existsb (String.eqb x) s.

End Js.

(* ================================================================= *)
(** ** Data model *)

Record Airport : Type := mkAirport {
  airport_id : Z;
  airport_tz : string;
  airport_lon : float;
  airport_lat : float
}.

Record Aircraft : Type := mkAircraft {
  aircraft_id : Z;
  aircraft_name : string
}.

Record Airline : Type := mkAirline {
  airline_id : Z;
  airline_name : string
}.

(** A seat as the callers pass it (no [id], no [legId]). *)
Record Seat : Type := mkSeat {
  seat_userId : option string;
  seat_guestName : option string;
  seat_seat : option string;
  seat_seatNumber : option string;
  seat_seatClass : option string
}.

(** The columns of a leg that are copied as they are ([...legData]). *)
Record LegData : Type := mkLegData {
  duration : option Z;
  departure : option string;
  arrival : option string;
  departureScheduled : option string;
  arrivalScheduled : option string;
  takeoffScheduled : option string;
  takeoffActual : option string;
  landingScheduled : option string;
  landingActual : option string;
  departureTerminal : option string;
  departureGate : option string;
  arrivalTerminal : option string;
  arrivalGate : option string;
  flightNumber : option string;
  aircraftReg : option string
}.

(** [Omit<CreateLeg, 'seats'>]. *)
Record LegValue : Type := mkLegValue {
  lv_from : option Airport;
  lv_to : option Airport;
  lv_aircraft : option Aircraft;
  lv_airline : option Airline;
  lv_data : LegData
}.

Record CreateLeg : Type := mkCreateLeg {
  cl_value : LegValue;
  cl_seats : list Seat
}.

Record CreateFlight : Type := mkCreateFlight {
  cf_date : string;
  cf_flightReason : option string;
  cf_note : option string;
  cf_legs : list CreateLeg
}.

(* ================================================================= *)
(** ** The deduplication signature *)

(** [signature] of flight.ts.  [f.date] is a string, on which [?? ''] is
    the identity. *)
Definition signature (f : CreateFlight) : string :=
  match cf_legs f with
  | [] => cf_date f
  | firstLeg :: _ =>
      let from := option_map airport_id (lv_from (cl_value firstLeg)) in
      let to := option_map airport_id (lv_to (cl_value firstLeg)) in
      Js.join "|"
        [ Js.Str (cf_date f);
          Js.numOrEmpty from;
          Js.numOrEmpty to;
          Js.strOrEmpty (flightNumber (lv_data (cl_value firstLeg)));
          Js.strOrEmpty (aircraftReg (lv_data (cl_value firstLeg)));
          Js.strOrEmpty (departure (lv_data (cl_value firstLeg)));
          Js.strOrEmpty (arrival (lv_data (cl_value firstLeg)));
          Js.Num (Z.of_nat (List.length (cf_legs f))) ]
  end.

(** The signature as the specification words it: the components in order,
    an absent one contributing the empty string, separated by a bar. *)
Definition component (o : option string) : string :=
  match o with Some s => s | None => "" end.

Definition idComponent (o : option Airport) : string :=
  match o with Some a => Js.numToString (airport_id a) | None => "" end.

Definition specSignature (f : CreateFlight) (firstLeg : CreateLeg) : string :=
  let d := lv_data (cl_value firstLeg) in
  (cf_date f ++ "|" ++
  idComponent (lv_from (cl_value firstLeg)) ++ "|" ++
  idComponent (lv_to (cl_value firstLeg)) ++ "|" ++
  component (flightNumber d) ++ "|" ++
  component (aircraftReg d) ++ "|" ++
  component (departure d) ++ "|" ++
  component (arrival d) ++ "|" ++
  Js.numToString (Z.of_nat (List.length (cf_legs f))))%string.

(** Step 1 of the matcher: the batch without signature repetitions, the
    first occurrence winning. *)
Definition uniqueMapOf (data : list CreateFlight) : Js.Map CreateFlight :=
  fold_left
    (fun uniqueMap f =>
       let key := signature f in
       if Js.has uniqueMap key then uniqueMap else Js.set uniqueMap key f)
    data [].

Definition uniqueFlightsOf (data : list CreateFlight) : list CreateFlight :=
  Js.values (uniqueMapOf data).

(* ================================================================= *)
(** ** The database *)

Record FlightRow : Type := mkFlightRow {
  flight_id : Z;
  flight_date : string;
  flight_flightReason : option string;
  flight_note : option string
}.

Record LegRow : Type := mkLegRow {
  leg_id : Z;
  leg_flightId : Z;
  leg_legOrder : Z;
  leg_fromId : option Z;
  leg_toId : option Z;
  leg_aircraftId : option Z;
  leg_airlineId : option Z;
  leg_data : LegData
}.

(** [Insertable<DB['seat']>]: a seat row before the engine numbers it. *)
Record SeatInsert : Type := mkSeatInsert {
  si_legId : Z;
  si_userId : option string;
  si_guestName : option string;
  si_seat : option string;
  si_seatNumber : option string;
  si_seatClass : option string
}.

Record SeatRow : Type := mkSeatRow {
  seatrow_id : Z;
  seatrow_cols : SeatInsert
}.

Record DB : Type := mkDB {
  db_airport : list Airport;
  db_aircraft : list Aircraft;
  db_airline : list Airline;
  db_flight : list FlightRow;
  db_leg : list LegRow;
  db_seat : list SeatRow;
  db_nextFlightId : Z;
  db_nextLegId : Z;
  db_nextSeatId : Z
}.

(** What the list and get queries return: a flight row with its legs, each
    leg with the referenced rows and its seats. *)
Record Leg : Type := mkLeg {
  l_row : LegRow;
  l_from : option Airport;
  l_to : option Airport;
  l_aircraft : option Aircraft;
  l_airline : option Airline;
  l_seats : list SeatRow
}.

Record Flight : Type := mkFlight {
  fl_row : FlightRow;
  fl_legs : list Leg
}.

Definition fl_id (f : Flight) : Z := flight_id (fl_row f).
Definition fl_date (f : Flight) : string := flight_date (fl_row f).

(** SQL equality on a nullable column: NULL equals nothing. *)
Definition sqlEqStr (col : option string) (v : string) : bool :=
  match col with Some s => String.eqb s v | None => false end.

(** [jsonObjectFrom(select * from T where T.id = ref)]. *)
Definition lookupBy {A} (key : A -> Z) (table : list A) (ref : option Z) : option A :=
  match ref with
  | Some i => find (fun a => Z.eqb (key a) i) table
  | None => None
  end.

(** [orderBy('leg.legOrder', 'asc')] as a stable insertion sort. *)
Fixpoint insertLeg (l : LegRow) (sorted : list LegRow) : list LegRow :=
  match sorted with
  | [] => [l]
  | x :: rest =>
      if Z.ltb (leg_legOrder l) (leg_legOrder x)
      then l :: x :: rest
      else x :: insertLeg l rest
  end.

Definition orderByLegOrder (ls : list LegRow) : list LegRow :=
  fold_left (fun acc l => insertLeg l acc) ls [].

Definition legWithRefs (db : DB) (l : LegRow) : Leg :=
  {| l_row := l;
     l_from := lookupBy airport_id (db_airport db) (leg_fromId l);
     l_to := lookupBy airport_id (db_airport db) (leg_toId l);
     l_aircraft := lookupBy aircraft_id (db_aircraft db) (leg_aircraftId l);
     l_airline := lookupBy airline_id (db_airline db) (leg_airlineId l);
     l_seats := filter (fun s => Z.eqb (si_legId (seatrow_cols s)) (leg_id l)) (db_seat db) |}.

(** The select list shared by [listFlightBaseQuery] and [getFlightPrimitive]. *)
Definition flightWithLegs (db : DB) (fr : FlightRow) : Flight :=
  {| fl_row := fr;
     fl_legs :=
       map (legWithRefs db)
           (orderByLegOrder
              (filter (fun l => Z.eqb (leg_flightId l) (flight_id fr)) (db_leg db))) |}.

(** The [exists] filter of [listFlightBaseQuery]: some leg of the flight
    carries a seat of the user. *)
Definition userHasSeatOn (db : DB) (userId : string) (fr : FlightRow) : bool :=
  existsb
    (fun l =>
       Z.eqb (leg_flightId l) (flight_id fr) &&
       existsb
         (fun s =>
            Z.eqb (si_legId (seatrow_cols s)) (leg_id l) &&
            sqlEqStr (si_userId (seatrow_cols s)) userId)
         (db_seat db))
    (db_leg db).

(** The query has no [orderBy]: the rows are listed here in insertion
    order, which is one of the orders the engine may choose. *)
Definition listFlightBaseQuery (db : DB) (userId : string) : list Flight :=
  map (flightWithLegs db) (filter (userHasSeatOn db userId) (db_flight db)).

Definition listFlightsQuery := listFlightBaseQuery.

Definition getFlightPrimitive (db : DB) (id : Z) : option Flight :=
  option_map (flightWithLegs db)
             (find (fun fr => Z.eqb (flight_id fr) id) (db_flight db)).

Definition getFlight := getFlightPrimitive.

(** *** The constraints of the schema *)

(** Two values of a nullable column are the same for a [UNIQUE]
    constraint only when neither is [NULL]. *)
Definition sqlSameStr (a b : option string) : bool :=
  match a, b with
  | Some x, Some y => String.eqb x y
  | _, _ => false
  end.

(** [seat_leg_id_user_id_key] and [seat_leg_id_guest_name_key]: two seat
    rows of one leg with the same user, or with the same guest name. *)
Definition seatsCollide (a b : SeatInsert) : bool :=
  Z.eqb (si_legId a) (si_legId b) &&
  (sqlSameStr (si_userId a) (si_userId b) ||
   sqlSameStr (si_guestName a) (si_guestName b)).

(** What the engine asks of a seat row: its leg exists
    ([seat_leg_id_fkey]) and no seat row collides with it. *)
Definition seatRowAccepted (db : DB) (r : SeatInsert) : bool :=
  existsb (fun l => Z.eqb (leg_id l) (si_legId r)) (db_leg db) &&
  negb (existsb (fun s => seatsCollide (seatrow_cols s) r) (db_seat db)).

(** A nullable foreign key: [NULL], or the id of a row of the table. *)
Definition refAccepted {A} (key : A -> Z) (table : list A) (ref : option Z) : bool :=
  match ref with
  | Some i => existsb (fun a => Z.eqb (key a) i) table
  | None => true
  end.

(** What the engine asks of a leg row: its flight exists
    ([leg_flight_id_fkey]), no leg of the flight has its position
    ([leg_flight_id_leg_order_key]), and the airports, the aircraft and
    the airline it names exist ([leg_from_id_fkey], [leg_to_id_fkey],
    [leg_aircraft_id_fkey], [leg_airline_id_fkey]). *)
Definition legRowAccepted (db : DB) (l : LegRow) : bool :=
  existsb (fun fr => Z.eqb (flight_id fr) (leg_flightId l)) (db_flight db) &&
  negb (existsb (fun l' => Z.eqb (leg_flightId l') (leg_flightId l) &&
                           Z.eqb (leg_legOrder l') (leg_legOrder l))
                (db_leg db)) &&
  refAccepted airport_id (db_airport db) (leg_fromId l) &&
  refAccepted airport_id (db_airport db) (leg_toId l) &&
  refAccepted aircraft_id (db_aircraft db) (leg_aircraftId l) &&
  refAccepted airline_id (db_airline db) (leg_airlineId l).

(** *** Writes *)

Definition seatInsertOf (legId : Z) (seat : Seat) : SeatInsert :=
  {| si_legId := legId;
     si_userId := seat_userId seat;
     si_guestName := seat_guestName seat;
     si_seat := seat_seat seat;
     si_seatNumber := seat_seatNumber seat;
     si_seatClass := seat_seatClass seat |}.

(** [insertInto('seat').values(rows)]: the rows are numbered in order;
    the statement fails, [None], on the first row that the engine
    refuses. *)
Fixpoint insertSeats (db : DB) (rows : list SeatInsert) : option DB :=
  match rows with
  | [] => Some db
  | r :: rest =>
      if seatRowAccepted db r then
        insertSeats
          {| db_airport := db_airport db;
             db_aircraft := db_aircraft db;
             db_airline := db_airline db;
             db_flight := db_flight db;
             db_leg := db_leg db;
             db_seat := db_seat db ++ [ {| seatrow_id := db_nextSeatId db; seatrow_cols := r |} ];
             db_nextFlightId := db_nextFlightId db;
             db_nextLegId := db_nextLegId db;
             db_nextSeatId := db_nextSeatId db + 1 |}
          rest
      else None
  end.

(** One turn of the leg loop of the three write primitives: insert the
    leg row at position [i] of flight [flightId], then its seats.  [None]
    when the engine refuses the leg row or a seat row. *)
Definition insertLegAt (db : DB) (flightId : Z) (i : Z) (leg : CreateLeg) : option DB :=
  let v := cl_value leg in
  let legRespId := db_nextLegId db in
  let row :=
    {| leg_id := legRespId;
       leg_flightId := flightId;
       leg_legOrder := i;
       leg_fromId := option_map airport_id (lv_from v);
       leg_toId := option_map airport_id (lv_to v);
       leg_aircraftId := option_map aircraft_id (lv_aircraft v);
       leg_airlineId := option_map airline_id (lv_airline v);
       leg_data := lv_data v |} in
  if legRowAccepted db row then
    let db1 :=
      {| db_airport := db_airport db;
         db_aircraft := db_aircraft db;
         db_airline := db_airline db;
         db_flight := db_flight db;
         db_leg := db_leg db ++ [ row ];
         db_seat := db_seat db;
         db_nextFlightId := db_nextFlightId db;
         db_nextLegId := db_nextLegId db + 1;
         db_nextSeatId := db_nextSeatId db |} in
    match cl_seats leg with
    | [] => Some db1
    | _ => insertSeats db1 (map (seatInsertOf legRespId) (cl_seats leg))
    end
  else None.

Fixpoint insertLegsFrom (db : DB) (flightId : Z) (i : Z) (legs : list CreateLeg)
  : option DB :=
  match legs with
  | [] => Some db
  | leg :: rest =>
      match insertLegAt db flightId i leg with
      | Some db1 => insertLegsFrom db1 flightId (i + 1) rest
      | None => None
      end
  end.

(** [insertInto('flight').values(flightData).returning('id')]. *)
Definition insertFlightRow (db : DB) (data : CreateFlight) : DB * Z :=
  let respId := db_nextFlightId db in
  ({| db_airport := db_airport db;
      db_aircraft := db_aircraft db;
      db_airline := db_airline db;
      db_flight := db_flight db ++
        [ {| flight_id := respId;
             flight_date := cf_date data;
             flight_flightReason := cf_flightReason data;
             flight_note := cf_note data |} ];
      db_leg := db_leg db;
      db_seat := db_seat db;
      db_nextFlightId := db_nextFlightId db + 1;
      db_nextLegId := db_nextLegId db;
      db_nextSeatId := db_nextSeatId db |},
   respId).

(** [createFlightPrimitive]: one transaction.  When every statement is
    accepted it commits and the new id is returned; when one is refused
    the promise is rejected, [None], and nothing of the transaction
    stays. *)
Definition createFlightPrimitive (db : DB) (data : CreateFlight) : option (DB * Z) :=
  let '(db1, respId) := insertFlightRow db data in
  match insertLegsFrom db1 respId 0 (cf_legs data) with
  | Some db' => Some (db', respId)
  | None => None
  end.

Definition createFlight := createFlightPrimitive.

(** [createManyFlightsPrimitive]: one transaction over the whole batch. *)
Fixpoint createManyFlightsPrimitive (db : DB) (data : list CreateFlight) : option DB :=
  match data with
  | [] => Some db
  | flight :: rest =>
      let '(db1, respId) := insertFlightRow db flight in
      match insertLegsFrom db1 respId 0 (cf_legs flight) with
      | Some db2 => createManyFlightsPrimitive db2 rest
      | None => None
      end
  end.

(** [updateFlightPrimitive]: one transaction.  The flight row takes the
    new columns, the legs of the flight are deleted, which deletes their
    seats by cascade, and the new legs are inserted.  An update without a
    [returning] clause yields a result object whatever the number of rows,
    so [executeTakeFirstOrThrow] does not throw here; a refused insert
    does, [None], and the flight stays as it was. *)
Definition updateFlightPrimitive (db : DB) (id : Z) (data : CreateFlight) : option DB :=
  let isOld := fun l => Z.eqb (leg_flightId l) id in
  let oldLegIds := map leg_id (filter isOld (db_leg db)) in
  let db1 :=
    {| db_airport := db_airport db;
       db_aircraft := db_aircraft db;
       db_airline := db_airline db;
       db_flight :=
         map (fun fr =>
                if Z.eqb (flight_id fr) id
                then {| flight_id := flight_id fr;
                        flight_date := cf_date data;
                        flight_flightReason := cf_flightReason data;
                        flight_note := cf_note data |}
                else fr)
             (db_flight db);
       db_leg := filter (fun l => negb (isOld l)) (db_leg db);
       db_seat :=
         filter (fun s => negb (Js.hasNum oldLegIds (si_legId (seatrow_cols s))))
                (db_seat db);
       db_nextFlightId := db_nextFlightId db;
       db_nextLegId := db_nextLegId db;
       db_nextSeatId := db_nextSeatId db |} in
  insertLegsFrom db1 id 0 (cf_legs data).

Definition updateFlight := updateFlightPrimitive.

(* ================================================================= *)
(** ** The deduplication matcher: [createManyFlights] *)

Record ImportResult : Type := mkImportResult {
  insertedFlights : nat;
  attachedSeats : nat
}.

(** The existing flight "in CreateFlight-compatible shape". *)
Definition seatOfRow (s : SeatRow) : Seat :=
  {| seat_userId := si_userId (seatrow_cols s);
     seat_guestName := si_guestName (seatrow_cols s);
     seat_seat := si_seat (seatrow_cols s);
     seat_seatNumber := si_seatNumber (seatrow_cols s);
     seat_seatClass := si_seatClass (seatrow_cols s) |}.

Definition createLegOf (l : Leg) : CreateLeg :=
  {| cl_value :=
       {| lv_from := l_from l;
          lv_to := l_to l;
          lv_aircraft := l_aircraft l;
          lv_airline := l_airline l;
          lv_data := leg_data (l_row l) |};
     cl_seats := map seatOfRow (l_seats l) |}.

Definition createFlightOf (ef : Flight) : CreateFlight :=
  {| cf_date := fl_date ef;
     cf_flightReason := flight_flightReason (fl_row ef);
     cf_note := flight_note (fl_row ef);
     cf_legs := map createLegOf (fl_legs ef) |}.

(** [f.legs[0]?.from?.id] and [f.legs[0]?.to?.id]. *)
Definition firstFromId (f : CreateFlight) : option Z :=
  match cf_legs f with
  | [] => None
  | l :: _ => option_map airport_id (lv_from (cl_value l))
  end.

Definition firstToId (f : CreateFlight) : option Z :=
  match cf_legs f with
  | [] => None
  | l :: _ => option_map airport_id (lv_to (cl_value l))
  end.

(** [.filter((id) => !!id)]. *)
Definition keepTruthy (ids : list (option Z)) : list Z :=
  flat_map (fun o => match o with
                     | Some z => if Js.truthyNum o then [z] else []
                     | None => []
                     end) ids.

Definition datesOf (uniqueFlights : list CreateFlight) : list string :=
  Js.setOfStrings (map cf_date uniqueFlights).

Definition fromsOf (uniqueFlights : list CreateFlight) : list Z :=
  Js.setOfNums (keepTruthy (map firstFromId uniqueFlights)).

Definition tosOf (uniqueFlights : list CreateFlight) : list Z :=
  Js.setOfNums (keepTruthy (map firstToId uniqueFlights)).

(** [x ?? -1] on a nullable id. *)
Definition orMinusOne (o : option Z) : Z :=
  match o with Some z => z | None => -1 end.

(** The in-memory filter on the first leg's airports. *)
Definition firstLegMatches (froms tos : list Z) (ef : Flight) : bool :=
  match fl_legs ef with
  | [] => false
  | firstLeg :: _ =>
      Js.hasNum froms (orMinusOne (option_map airport_id (l_from firstLeg))) &&
      Js.hasNum tos (orMinusOne (option_map airport_id (l_to firstLeg)))
  end.

Definition isEmpty {A} (l : list A) : bool :=
  match l with [] => true | _ => false end.

(** Step 2: the user's existing flights in the candidate space. *)
Definition existingFlightsOf (db : DB) (userId : string)
           (uniqueFlights : list CreateFlight) : list Flight :=
  let dates := datesOf uniqueFlights in
  let froms := fromsOf uniqueFlights in
  let tos := tosOf uniqueFlights in
  if negb (isEmpty dates) && negb (isEmpty froms) && negb (isEmpty tos) then
    filter (firstLegMatches froms tos)
           (filter (fun ef => Js.hasStr dates (fl_date ef))
                   (listFlightsQuery db userId))
  else [].

(** Step 3: signature to existing id, the first match winning. *)
Definition existingBySigOf (existingFlights : list Flight) : Js.Map Z :=
  fold_left
    (fun existingBySig ef =>
       let key := signature (createFlightOf ef) in
       if Js.has existingBySig key then existingBySig
       else Js.set existingBySig key (fl_id ef))
    existingFlights [].

(** The batched seat lookup: [leg] joined with [seat], for the user and
    the candidate flight ids. *)
Definition userSeatsQuery (db : DB) (userId : string) (existingIds : list Z) : list Z :=
  flat_map
    (fun l =>
       flat_map
         (fun s =>
            if Z.eqb (si_legId (seatrow_cols s)) (leg_id l) &&
               sqlEqStr (si_userId (seatrow_cols s)) userId &&
               Js.hasNum existingIds (leg_flightId l)
            then [leg_flightId l] else [])
         (db_seat db))
    (db_leg db).

Definition userSeatByFlightOf (db : DB) (userId : string)
           (existingFlights : list Flight) : list Z :=
  let existingIds := Js.setOfNums (map fl_id existingFlights) in
  if isEmpty existingIds then []
  else Js.setOfNums (userSeatsQuery db userId existingIds).

(** [existingFlight?.legs[0]?.id]. *)
Definition firstLegIdOf (existingFlight : option Flight) : option Z :=
  match existingFlight with
  | Some ef =>
      match fl_legs ef with
      | [] => None
      | l :: _ => Some (leg_id (l_row l))
      end
  | None => None
  end.

(** [f.legs[0]?.seats ?? []]. *)
Definition firstLegSeats (f : CreateFlight) : list Seat :=
  match cf_legs f with
  | [] => []
  | l :: _ => cl_seats l
  end.

(** Step 4, one turn of the loop over the unique flights. *)
Definition partitionStep (existingFlights : list Flight) (existingBySig : Js.Map Z)
           (userSeatByFlight : list Z)
           (acc : list CreateFlight * list SeatInsert) (f : CreateFlight)
  : list CreateFlight * list SeatInsert :=
  let '(flightsToInsert, seatsToAttach) := acc in
  let key := signature f in
  let existingId := Js.get existingBySig key in
  match existingId with
  | Some eid =>
      if Js.truthyNum existingId then
        if Js.hasNum userSeatByFlight eid then acc
        else
          let existingFlight := find (fun ef => Z.eqb (fl_id ef) eid) existingFlights in
          match firstLegIdOf existingFlight with
          | Some firstLegId =>
              if Js.truthyNum (Some firstLegId) then
                (flightsToInsert,
                 seatsToAttach ++ map (seatInsertOf firstLegId) (firstLegSeats f))
              else acc
          | None => acc
          end
      else (flightsToInsert ++ [f], seatsToAttach)
  | None => (flightsToInsert ++ [f], seatsToAttach)
  end.

Definition partitionFlights (db : DB) (userId : string) (uniqueFlights : list CreateFlight)
  : list CreateFlight * list SeatInsert :=
  let existingFlights := existingFlightsOf db userId uniqueFlights in
  let existingBySig := existingBySigOf existingFlights in
  let userSeatByFlight := userSeatByFlightOf db userId existingFlights in
  fold_left (partitionStep existingFlights existingBySig userSeatByFlight)
            uniqueFlights ([], []).

(** Step 5, the attach phase: one row per seat key. *)
Definition seatKey (s : SeatInsert) : string :=
  (Js.numToString (si_legId s) ++ "|" ++
   match si_userId s with Some u => u | None => "" end)%string.

Definition uniqueSeatsOf (seatsToAttach : list SeatInsert) : list SeatInsert :=
  Js.values
    (fold_left
       (fun uniqueSeatsMap s =>
          let k := seatKey s in
          if Js.has uniqueSeatsMap k then uniqueSeatsMap
          else Js.set uniqueSeatsMap k s)
       seatsToAttach []).

(** The database after the phase, and the count; [None] for the count
    when the insert is refused and the promise rejected. *)
Definition attachPhase (db : DB) (seatsToAttach : list SeatInsert) : DB * option nat :=
  match seatsToAttach with
  | [] => (db, Some 0%nat)
  | _ =>
      let uniqueSeats := uniqueSeatsOf seatsToAttach in
      match uniqueSeats with
      | [] => (db, Some 0%nat)
      | _ =>
          match insertSeats db uniqueSeats with
          | Some db' => (db', Some (List.length uniqueSeats))
          | None => (db, None)
          end
      end
  end.

(** The number of seats of a batch, as the non-deduplicated path counts it. *)
Definition seatCount (data : list CreateFlight) : nat :=
  fold_left
    (fun acc f =>
       (acc + fold_left (fun a l => (a + List.length (cl_seats l))%nat) (cf_legs f) 0%nat)%nat)
    data 0%nat.

(** [createManyFlights]: what the call returns, [None] when its promise is
    rejected, and the database after the call. *)
Definition createManyFlights (db : DB) (data : list CreateFlight) (userId : string)
           (dedupe : bool) : option ImportResult * DB :=
  if negb dedupe then
    match createManyFlightsPrimitive db data with
    | Some db' =>
        (Some {| insertedFlights := List.length data; attachedSeats := seatCount data |}, db')
    | None => (None, db)
    end
  else
    let uniqueFlights := uniqueFlightsOf data in
    match uniqueFlights with
    | [] => (Some {| insertedFlights := 0; attachedSeats := 0 |}, db)
    | _ =>
        let '(flightsToInsert, seatsToAttach) := partitionFlights db userId uniqueFlights in
        let insertion :=
          match flightsToInsert with
          | [] => Some (db, 0%nat)
          | _ =>
              match createManyFlightsPrimitive db flightsToInsert with
              | Some db' => Some (db', List.length flightsToInsert)
              | None => None
              end
          end in
        match insertion with
        | Some (db1, inserted) =>
            match attachPhase db1 seatsToAttach with
            | (db2, Some attached) =>
                (Some {| insertedFlights := inserted; attachedSeats := attached |}, db2)
            | (db2, None) => (None, db2)
            end
        | None => (None, db)
        end
    end.

(* ================================================================= *)
(** ** The leg validator and the flight assembler *)

(** A [TZDate] that [mergeTimeWithDate] returned: an instant, in
    milliseconds since the epoch, and the zone it is shown in. *)
Record TZDate : Type := mkTZDate {
  tz_time : Z;
  tz_timeZone : string
}.

(** date-fns [isBefore(a, b)]: [+a < +b]. *)
Definition isBefore (a b : TZDate) : bool := Z.ltb (tz_time a) (tz_time b).

(** date-fns [differenceInSeconds(a, b)]: the difference in milliseconds
    over 1000, truncated towards zero. *)
Definition differenceInSeconds (a b : TZDate) : Z :=
  Z.quot (tz_time a - tz_time b) 1000.

(** [ErrorActionResult & { id?: number }], by its [success] and [type] tags. *)
Inductive ActionResult : Type :=
| PathError (path message : string)
| HttpError (status : Z) (message : string)
| OperationError (message : string)
| Success (message : string) (id : option Z).

Record LegInput : Type := mkLegInput {
  li_from : Airport;
  li_to : Airport;
  li_departure : option string;
  li_departureTime : option string;
  li_departureScheduled : option string;
  li_departureScheduledTime : option string;
  li_takeoffScheduled : option string;
  li_takeoffScheduledTime : option string;
  li_takeoffActual : option string;
  li_takeoffActualTime : option string;
  li_arrival : option string;
  li_arrivalTime : option string;
  li_arrivalScheduled : option string;
  li_arrivalScheduledTime : option string;
  li_landingScheduled : option string;
  li_landingScheduledTime : option string;
  li_landingActual : option string;
  li_landingActualTime : option string;
  li_departureTerminal : option string;
  li_departureGate : option string;
  li_arrivalTerminal : option string;
  li_arrivalGate : option string;
  li_flightNumber : option string;
  li_aircraft : option Aircraft;
  li_aircraftReg : option string;
  li_airline : option Airline;
  li_seats : list Seat
}.

Record FlightInput : Type := mkFlightInput {
  fi_id : option Z;
  fi_flightReason : option string;
  fi_note : option string;
  fi_legs : list LegInput
}.

Record User : Type := mkUser {
  user_id : string
}.

Record LonLat : Type := mkLonLat {
  lon : float;
  lat : float
}.

(** The helpers of [$lib/utils/datetime] and [$lib/utils], and the two
    date-fns functions that build or print a [Date].  [mergeTimeWithDate]
    returns [None] where the source throws.  [formatYMD] is
    [format(d, 'yyyy-MM-dd')] on the date that [parseISO] made of a
    departure date of the input, a string that [flightSchema] admitted;
    the schema is not at hand, and the dates it admits are taken to be
    dates, on which [format] returns. *)
Class Helpers : Type := mkHelpers {
  JSDate : Type;
  parseISO : string -> JSDate;
  parseLocalISO : string -> string -> JSDate;
  isBeforeEpoch : JSDate -> bool;
  formatYMD : JSDate -> string;
  mergeTimeWithDate : string -> string -> string -> option TZDate;
  toUtcISOString : TZDate -> string;
  distanceBetween : LonLat -> LonLat -> float;
  estimateFlightDuration : float -> Z
}.

(** The error monad of the validator: [inl] is the returned error. *)
Definition bindE {A B} (m : ActionResult + A) (k : A -> ActionResult + B)
  : ActionResult + B :=
  match m with
  | inl e => inl e
  | inr a => k a
  end.

Notation "x <- m ;; k" := (bindE m (fun x => k))
  (at level 61, m at next level, right associativity).

(** [a ?? b] on nullable strings. *)
Definition orElse (a b : option string) : option string :=
  match a with Some _ => a | None => b end.

(** [legData.departure ?? legData.departureScheduled], under the non-null
    assertion of the source. *)
Definition primaryDepartureDateOf (legData : LegInput) : string :=
  match orElse (li_departure legData) (li_departureScheduled legData) with
  | Some s => s
  | None => ""
  end.

(** The assignment [legData.arrival = legData.departure] of the validator:
    the arrival date after it. *)
Definition defaultedArrival (legData : LegInput) : option string :=
  if Js.truthy (li_arrivalTime legData) && negb (Js.truthy (li_arrival legData))
  then li_departure legData
  else li_arrival legData.

Section Validator.

Context {H : Helpers}.

Definition pathError (legIndex : nat) (path message : string) : ActionResult :=
  PathError ("legs[" ++ Js.numToString (Z.of_nat legIndex) ++ "]." ++ path)%string message.

Definition parseDateTimeField (legIndex : nat) (date time : option string)
           (tzId path : string) : ActionResult + option TZDate :=
  match date, time with
  | Some d, Some t =>
      if negb (Js.truthy date) || negb (Js.truthy time) then inr None
      else match mergeTimeWithDate d t tzId with
           | Some v => inr (Some v)
           | None => inl (pathError legIndex path "Invalid time format")
           end
  | _, _ => inr None
  end.

(** The local [departure] of the validator. *)
Definition departureInstant (legIndex : nat) (legData : LegInput)
  : ActionResult + option TZDate :=
  match li_departure legData, li_departureTime legData with
  | Some d, Some t =>
      if Js.truthy (li_departure legData) && Js.truthy (li_departureTime legData) then
        match mergeTimeWithDate d t (airport_tz (li_from legData)) with
        | Some v => inr (Some v)
        | None => inl (pathError legIndex "departureTime" "Invalid time format")
        end
      else inr None
  | _, _ => inr None
  end.

(** The local [arrival] of the validator, after the arrival date took its
    default. *)
Definition arrivalInstant (legIndex : nat) (legData : LegInput)
  : ActionResult + option TZDate :=
  match defaultedArrival legData, li_arrivalTime legData with
  | Some a, Some t =>
      if Js.truthy (defaultedArrival legData) && Js.truthy (li_arrivalTime legData) then
        match mergeTimeWithDate a t (airport_tz (li_to legData)) with
        | Some v => inr (Some v)
        | None => inl (pathError legIndex "arrivalTime" "Invalid time format")
        end
      else inr None
  | _, _ => inr None
  end.

(** The two checks on the arrival date as it was entered. *)
Definition checkArrivalDate (legIndex : nat) (legData : LegInput)
  : ActionResult + unit :=
  match li_arrival legData with
  | Some a =>
      if Js.truthy (li_arrival legData) then
        let arrivalDate := parseLocalISO a (airport_tz (li_to legData)) in
        if isBeforeEpoch arrivalDate then
          inl (pathError legIndex "arrival" "Too far in the past")
        else if negb (Js.truthy (li_arrivalTime legData)) then
          inl (pathError legIndex "arrival" "Cannot have arrival date without time")
        else inr tt
      else inr tt
  | None => inr tt
  end.

Definition durationOf (from to : Airport) (departure arrival : option TZDate)
  : option Z :=
  match departure, arrival with
  | Some d, Some a => Some (differenceInSeconds a d)
  | _, _ =>
      if negb (Z.eqb (airport_id from) (airport_id to)) then
        let fromLonLat := {| lon := airport_lon from; lat := airport_lat from |} in
        let toLonLat := {| lon := airport_lon to; lat := airport_lat to |} in
        Some (estimateFlightDuration
                (PrimFloat.div (distanceBetween fromLonLat toLonLat) 1000%float))
      else None
  end.

Definition isoOf (d : option TZDate) : option string :=
  option_map toUtcISOString d.

(** The eight locals of the validator that hold a resolved instant. *)
Record Instants : Type := mkInstants {
  i_departure : option TZDate;
  i_departureScheduled : option TZDate;
  i_takeoffScheduled : option TZDate;
  i_takeoffActual : option TZDate;
  i_arrival : option TZDate;
  i_arrivalScheduled : option TZDate;
  i_landingScheduled : option TZDate;
  i_landingActual : option TZDate
}.

(** The validator down to the last [parseDateTimeField]: every field
    check but the order check, in the order of the source. *)
Definition resolveInstants (legData : LegInput) (legIndex : nat)
  : ActionResult + Instants :=
  let from := li_from legData in
  let to := li_to legData in
  if negb (Js.truthy (li_departure legData)) &&
     negb (Js.truthy (li_departureScheduled legData)) then
    inl (pathError legIndex "departure" "Select a departure date")
  else
    let departureDate := parseISO (primaryDepartureDateOf legData) in
    if isBeforeEpoch departureDate then
      inl (pathError legIndex
             (if Js.truthy (li_departure legData) then "departure" else "departureScheduled")
             "Too far in the past")
    else
      departure <- departureInstant legIndex legData ;;
      departureScheduled <-
        parseDateTimeField legIndex (li_departureScheduled legData)
          (li_departureScheduledTime legData) (airport_tz from) "departureScheduledTime" ;;
      takeoffScheduled <-
        parseDateTimeField legIndex (li_takeoffScheduled legData)
          (li_takeoffScheduledTime legData) (airport_tz from) "takeoffScheduledTime" ;;
      takeoffActual <-
        parseDateTimeField legIndex (li_takeoffActual legData)
          (li_takeoffActualTime legData) (airport_tz from) "takeoffActualTime" ;;
      _ <- checkArrivalDate legIndex legData ;;
      arrival <- arrivalInstant legIndex legData ;;
      arrivalScheduled <-
        parseDateTimeField legIndex (li_arrivalScheduled legData)
          (li_arrivalScheduledTime legData) (airport_tz to) "arrivalScheduledTime" ;;
      landingScheduled <-
        parseDateTimeField legIndex (li_landingScheduled legData)
          (li_landingScheduledTime legData) (airport_tz to) "landingScheduledTime" ;;
      landingActual <-
        parseDateTimeField legIndex (li_landingActual legData)
          (li_landingActualTime legData) (airport_tz to) "landingActualTime" ;;
      inr {| i_departure := departure;
             i_departureScheduled := departureScheduled;
             i_takeoffScheduled := takeoffScheduled;
             i_takeoffActual := takeoffActual;
             i_arrival := arrival;
             i_arrivalScheduled := arrivalScheduled;
             i_landingScheduled := landingScheduled;
             i_landingActual := landingActual |}.

(** [if (arrival && departure && isBefore(arrival, departure))]. *)
Definition arrivalPrecedes (r : Instants) : bool :=
  match i_arrival r, i_departure r with
  | Some a, Some d => isBefore a d
  | _, _ => false
  end.

(** The returned [value]. *)
Definition legValueOf (legData : LegInput) (r : Instants) : LegValue :=
  {| lv_from := Some (li_from legData);
     lv_to := Some (li_to legData);
     lv_aircraft := li_aircraft legData;
     lv_airline := li_airline legData;
     lv_data :=
       {| duration := durationOf (li_from legData) (li_to legData)
                                 (i_departure r) (i_arrival r);
          departure := isoOf (i_departure r);
          arrival := isoOf (i_arrival r);
          departureScheduled := isoOf (i_departureScheduled r);
          arrivalScheduled := isoOf (i_arrivalScheduled r);
          takeoffScheduled := isoOf (i_takeoffScheduled r);
          takeoffActual := isoOf (i_takeoffActual r);
          landingScheduled := isoOf (i_landingScheduled r);
          landingActual := isoOf (i_landingActual r);
          departureTerminal := li_departureTerminal legData;
          departureGate := li_departureGate legData;
          arrivalTerminal := li_arrivalTerminal legData;
          arrivalGate := li_arrivalGate legData;
          flightNumber := li_flightNumber legData;
          aircraftReg := li_aircraftReg legData |} |}.

Definition validateAndProcessLeg (legData : LegInput) (legIndex : nat)
  : ActionResult + LegValue :=
  r <- resolveInstants legData legIndex ;;
  if arrivalPrecedes r
  then inl (pathError legIndex "arrival" "Arrival must be after departure")
  else inr (legValueOf legData r).

(** The leg loop of [validateAndSaveFlight], from index [i] on. *)
Fixpoint processLegsFrom (i : nat) (legs : list LegInput) : ActionResult + list CreateLeg :=
  match legs with
  | [] => inr []
  | legData :: rest =>
      value <- validateAndProcessLeg legData i ;;
      processedLegs <- processLegsFrom (S i) rest ;;
      inr ({| cl_value := value; cl_seats := li_seats legData |} :: processedLegs)
  end.

(** [flight?.legs.some((leg) => leg.seats.some((seat) => seat.userId === user.id))]. *)
Definition holdsSeat (user : User) (flight : option Flight) : bool :=
  match flight with
  | Some fl =>
      existsb
        (fun leg =>
           existsb (fun seat => sqlEqStr (si_userId (seatrow_cols seat)) (user_id user))
                   (l_seats leg))
        (fl_legs fl)
  | None => false
  end.

(** [validateAndSaveFlight]: the result and the database after the call;
    [None] is a rejected promise (the [TypeError] on an empty leg list). *)
Definition validateAndSaveFlight (db : DB) (user : User) (data : FlightInput)
  : option (ActionResult * DB) :=
  match processLegsFrom 0 (fi_legs data) with
  | inl error => Some (error, db)
  | inr processedLegs =>
      match fi_legs data with
      | [] => None
      | firstLeg :: _ =>
          let departureDate := parseISO (primaryDepartureDateOf firstLeg) in
          let values :=
            {| cf_date := formatYMD departureDate;
               cf_flightReason := fi_flightReason data;
               cf_note := fi_note data;
               cf_legs := processedLegs |} in
          match fi_id data with
          | Some updateId =>
              if Js.truthyNum (fi_id data) then
                let flight := getFlight db updateId in
                if negb (holdsSeat user flight) then
                  Some (HttpError 403
                          "Flight not found or you do not have a seat on this flight",
                        db)
                else
                  match updateFlight db updateId values with
                  | Some db' => Some (Success "Flight updated successfully" None, db')
                  | None => Some (OperationError "Failed to update flight", db)
                  end
              else
                match createFlight db values with
                | Some (db', flightId) => Some (Success "Flight added" (Some flightId), db')
                | None => Some (OperationError "Failed to add flight", db)
                end
          | None =>
              match createFlight db values with
              | Some (db', flightId) => Some (Success "Flight added" (Some flightId), db')
              | None => Some (OperationError "Failed to add flight", db)
              end
          end
      end
  end.

End Validator.

(* ================================================================= *)
(** ** A resolver and an estimator to run the validator on *)

Module Resolver.

Definition digitOf (c : ascii) : option Z :=
  let n := Z.of_nat (nat_of_ascii c) in
  if (48 <=? n) && (n <=? 57) then Some (n - 48) else None.

Fixpoint digitsFrom (acc : Z) (s : string) : option Z :=
  match s with
  | EmptyString => Some acc
  | String c rest =>
      match digitOf c with
      | Some d => digitsFrom (acc * 10 + d) rest
      | None => None
      end
  end.

Definition number (s : string) : option Z :=
  match s with
  | EmptyString => None
  | _ => digitsFrom 0 s
  end.

(** Days since 1970-01-01 of a proleptic Gregorian date. *)
Definition daysFromCivil (y m d : Z) : Z :=
  let y' := if m <=? 2 then y - 1 else y in
  let era := y' / 400 in
  let yoe := y' - era * 400 in
  let doy := (153 * (if 2 <? m then m - 3 else m + 9) + 2) / 5 + d - 1 in
  let doe := yoe * 365 + yoe / 4 - yoe / 100 + doy in
  era * 146097 + doe - 719468.

Definition civilFromDays (days : Z) : Z * Z * Z :=
  let z := days + 719468 in
  let era := z / 146097 in
  let doe := z - era * 146097 in
  let yoe := (doe - doe / 1460 + doe / 36524 - doe / 146096) / 365 in
  let doy := doe - (365 * yoe + yoe / 4 - yoe / 100) in
  let mp := (5 * doy + 2) / 153 in
  let d := doy - (153 * mp + 2) / 5 + 1 in
  let m := if mp <? 10 then mp + 3 else mp - 9 in
  (yoe + era * 400 + (if m <=? 2 then 1 else 0), m, d).

(** The leading [yyyy-MM-dd] of a date string, as a day number. *)
Definition dayOf (date : string) : option Z :=
  match number (substring 0 4 date), number (substring 5 2 date),
        number (substring 8 2 date) with
  | Some y, Some m, Some d =>
      if String.eqb (substring 4 1 date) "-" && String.eqb (substring 7 1 date) "-" &&
         (1 <=? m) && (m <=? 12) && (1 <=? d) && (d <=? 31)
      then Some (daysFromCivil y m d) else None
  | _, _, _ => None
  end.

(** [HH:mm] as minutes after midnight. *)
Definition minuteOf (time : string) : option Z :=
  match number (substring 0 2 time), number (substring 3 2 time) with
  | Some h, Some m =>
      if String.eqb (substring 2 1 time) ":" && (Nat.eqb (String.length time) 5) &&
         (h <? 24) && (m <? 60)
      then Some (h * 60 + m) else None
  | _, _ => None
  end.

(** Minutes east of Greenwich of the zones the examples use (standard
    time, no daylight saving). *)
Definition offsetOf (tzId : string) : option Z :=
  if String.eqb tzId "UTC" then Some 0
  else if String.eqb tzId "Europe/London" then Some 0
  else if String.eqb tzId "Europe/Paris" then Some 60
  else if String.eqb tzId "America/New_York" then Some (-300)
  else if String.eqb tzId "America/Los_Angeles" then Some (-480)
  else None.

(** Modelled from the spec: [merge(localDate, localTime, tzId)] of the
    Timezone Datetime Resolver ([mergeTimeWithDate] of
    [$lib/utils/datetime]), which fails when either input is malformed or
    the zone is not recognised. *)
Definition mergeTimeWithDate (date time tzId : string) : option TZDate :=
  match dayOf date, minuteOf time, offsetOf tzId with
  | Some d, Some m, Some off =>
      Some {| tz_time := (d * 1440 + m - off) * 60000; tz_timeZone := tzId |}
  | _, _, _ => None
  end.

(** Modelled from the spec: a [Date] is its time value, absent for an
    invalid date; [parseISO] reads a date at midnight UTC. *)
Definition parseISO (s : string) : option Z :=
  option_map (fun d => d * 86400000) (dayOf s).

(** Modelled from the spec: [parseLocalISO] reads a date at midnight in
    the given zone. *)
Definition parseLocalISO (s tzId : string) : option Z :=
  match dayOf s, offsetOf tzId with
  | Some d, Some off => Some ((d * 1440 - off) * 60000)
  | _, _ => None
  end.

(** Modelled from the spec: [isBeforeMinimumEpoch], the guard against
    dates before 1970. *)
Definition isBeforeEpoch (d : option Z) : bool :=
  match d with
  | Some t => t <? 0
  | None => false
  end.

Definition pad (width : nat) (z : Z) : string :=
  let s := Js.numToString z in
  (String.concat "" (repeat "0" (width - String.length s)) ++ s)%string.

Definition ymd (days : Z) : string :=
  let '(y, m, d) := civilFromDays days in
  (pad 4 y ++ "-" ++ pad 2 m ++ "-" ++ pad 2 d)%string.

(** [format(date, 'yyyy-MM-dd')], in UTC. *)
Definition formatYMD (d : option Z) : string :=
  match d with
  | Some t => ymd (t / 86400000)
  | None => "Invalid Date"
  end.

(** Modelled from the spec: [toUTC] followed by the ISO 8601 rendering. *)
Definition toUtcISOString (d : TZDate) : string :=
  let t := tz_time d in
  let ms := t mod 86400000 in
  (ymd (t / 86400000) ++ "T" ++ pad 2 (ms / 3600000) ++ ":" ++
   pad 2 ((ms / 60000) mod 60) ++ ":" ++ pad 2 ((ms / 1000) mod 60) ++ "." ++
   pad 3 (ms mod 1000) ++ "Z")%string.

(** Modelled from the spec: [distance] of the Geo Estimator, in metres.
    The great-circle formula needs trigonometry; this stand-in measures
    the chord on a degree grid, which is enough to run the validator. *)
Definition distanceBetween (a b : LonLat) : float :=
  let dx := (lon a - lon b)%float in
  let dy := (lat a - lat b)%float in
  (PrimFloat.sqrt (dx * dx + dy * dy) * 111195)%float.

Definition floatToZ (x : float) : Z :=
  match Prim2SF x with
  | S754_finite s m e => (if s then -1 else 1) * Z.shiftl (Z.pos m) e
  | _ => 0
  end.

(** Modelled from the spec: [estimateDuration] of the Geo Estimator, a
    cruise at 800 km/h plus half an hour on the ground, and 0 for no
    distance. *)
Definition estimateFlightDuration (distanceKm : float) : Z :=
  let cruise := floatToZ (distanceKm / 800 * 3600)%float in
  if cruise <=? 0 then 0 else cruise + 1800.

Definition helpers : Helpers :=
  mkHelpers (option Z) parseISO parseLocalISO isBeforeEpoch formatYMD
            mergeTimeWithDate toUtcISOString distanceBetween estimateFlightDuration.

End Resolver.

(* ================================================================= *)
(** ** Sample data *)

Module Ex.

Definition jfk : Airport := mkAirport 1 "America/New_York" (-73.75)%float 40.625%float.
Definition lax : Airport := mkAirport 2 "America/Los_Angeles" (-118.5)%float 34%float.

Definition seatOf (userId guestName : option string) : Seat :=
  mkSeat userId guestName None None None.

Definition legData0 : LegData :=
  mkLegData (Some 21600) (Some "2024-01-01T15:00:00.000Z") (Some "2024-01-01T21:00:00.000Z")
            None None None None None None None None None None (Some "AA1") (Some "N123AA").

(** One leg from [from] to LAX, flown by the given travellers. *)
Definition flightOf (from : option Airport) (seats : list Seat) : CreateFlight :=
  mkCreateFlight "2024-01-01" (Some "leisure") None
    [ mkCreateLeg (mkLegValue from (Some lax) None None legData0) seats ].

Definition aliceFlight : CreateFlight := flightOf (Some jfk) [seatOf (Some "alice") None].
Definition bobFlight : CreateFlight := flightOf (Some jfk) [seatOf (Some "bob") None].
Definition unknownOrigin : CreateFlight := flightOf None [seatOf (Some "alice") None].

Definition emptyDB : DB := mkDB [jfk; lax] [] [] [] [] [] 1 1 1.

(** The database after Alice, and after Bob, imported the flight once. *)
Definition dbAlice : DB :=
  Eval vm_compute in snd (createManyFlights emptyDB [aliceFlight] "alice" true).

Definition dbBob : DB :=
  Eval vm_compute in snd (createManyFlights emptyDB [bobFlight] "bob" true).

Definition dbUnknown : DB :=
  Eval vm_compute in snd (createManyFlights emptyDB [unknownOrigin] "alice" true).

(** Alice's flight from JFK to an airport that is not known, and the
    database after she imported it once. *)
Definition unknownDestination : CreateFlight :=
  mkCreateFlight "2024-01-01" (Some "leisure") None
    [ mkCreateLeg (mkLegValue (Some jfk) None None None legData0)
                  [seatOf (Some "alice") None] ].

Definition dbUnknownTo : DB :=
  Eval vm_compute in snd (createManyFlights emptyDB [unknownDestination] "alice" true).

(** Two guests queued for leg 7, and a registered traveller twice. *)
Definition guestQueue : list SeatInsert :=
  [ mkSeatInsert 7 None (Some "Ann") None None None;
    mkSeatInsert 7 None (Some "Ben") None None None;
    mkSeatInsert 7 (Some "alice") None None None None;
    mkSeatInsert 7 (Some "alice") None None (Some "12A") None ].

(** A leg input with the eight date and time strings that matter here:
    actual and scheduled departure, actual arrival, actual landing. *)
Definition legInput (from to : Airport)
           (dep depTime depSched depSchedTime arr arrTime land landTime : option string)
  : LegInput :=
  mkLegInput from to dep depTime depSched depSchedTime None None None None
             arr arrTime None None None None land landTime
             None None None None (Some "AA1") None None None
             [seatOf (Some "alice") None].

Definition sameDay : LegInput :=
  legInput jfk lax (Some "2024-01-01") (Some "10:00") None None
           (Some "2024-01-01") (Some "13:00") None None.

Definition noTimes : LegInput :=
  legInput jfk lax (Some "2024-01-01") None None None None None None None.

Definition arrivalTimeOnly : LegInput :=
  legInput jfk lax (Some "2024-01-01") (Some "10:00") None None
           None (Some "13:00") None None.

Definition scheduledOnly : LegInput :=
  legInput jfk lax None None (Some "2024-01-01") (Some "10:00")
           None (Some "13:00") None None.

(** Arrival before departure, and a landing time that does not parse. *)
Definition backwardsWithBadLanding : LegInput :=
  legInput jfk lax (Some "2024-01-02") (Some "10:00") None None
           (Some "2024-01-01") (Some "09:00") (Some "2024-01-01") (Some "9am").

Definition backwards : LegInput :=
  legInput jfk lax (Some "2024-01-02") (Some "10:00") None None
           (Some "2024-01-01") (Some "09:00") None None.

Definition noDeparture : LegInput :=
  legInput jfk lax None None None None None None None None.

Definition alice : User := mkUser "alice".

(** Alice's flight as the list query returns it from [dbAlice]. *)
Definition aliceStored : Flight :=
  Eval vm_compute in
    flightWithLegs dbAlice (mkFlightRow 1 "2024-01-01" (Some "leisure") None).

(** An update of flight 1, and a new flight, from leg inputs. *)
Definition updateOf (legs : list LegInput) : FlightInput :=
  mkFlightInput (Some 1) (Some "leisure") None legs.

Definition newFlightOf (legs : list LegInput) : FlightInput :=
  mkFlightInput None (Some "leisure") None legs.

(** The value the validator returns on a leg, when it returns one. *)
Definition validated (legData : LegInput) (legIndex : nat) : LegValue :=
  match @validateAndProcessLeg Resolver.helpers legData legIndex with
  | inr v => v
  | inl _ =>
      mkLegValue None None None None
        (mkLegData None None None None None None None None None None None None None None None)
  end.

End Ex.

(* ================================================================= *)
(** ** The procedures of the flight router *)

(** What a procedure does: it returns, or it throws an [Error] with a
    message. *)
Inductive Outcome (A : Type) : Type :=
| Returned (a : A)
| Threw (message : string).

Arguments Returned {A} a.
Arguments Threw {A} message.

(** [deleteFrom('flight').where(...)]: the rows that match go, the legs
    of a deleted flight go with it ([leg_flight_id_fkey], on delete
    cascade), and the seats of a deleted leg ([seat_leg_id_fkey]).  The
    second component is [numDeletedRows]. *)
Definition deleteFlightsWhere (db : DB) (doomed : FlightRow -> bool) : DB * nat :=
  let goneIds := map flight_id (filter doomed (db_flight db)) in
  let goneLegIds :=
    map leg_id (filter (fun l => Js.hasNum goneIds (leg_flightId l)) (db_leg db)) in
  ({| db_airport := db_airport db;
      db_aircraft := db_aircraft db;
      db_airline := db_airline db;
      db_flight := filter (fun fr => negb (doomed fr)) (db_flight db);
      db_leg := filter (fun l => negb (Js.hasNum goneIds (leg_flightId l))) (db_leg db);
      db_seat :=
        filter (fun s => negb (Js.hasNum goneLegIds (si_legId (seatrow_cols s))))
               (db_seat db);
      db_nextFlightId := db_nextFlightId db;
      db_nextLegId := db_nextLegId db;
      db_nextSeatId := db_nextSeatId db |},
   List.length (filter doomed (db_flight db))).

(** [deleteFlight] of flight.ts. *)
Definition deleteFlight (db : DB) (id : Z) : DB * nat :=
  deleteFlightsWhere db (fun fr => Z.eqb (flight_id fr) id).

Definition listFlightPrimitive := listFlightBaseQuery.
Definition listFlights := listFlightPrimitive.

Module FlightRouter.

(** The seat rows of the legs of a flight: [leg] joined with [seat]. *)
Definition seatsOfFlight (db : DB) (input : Z) : list SeatRow :=
  flat_map
    (fun l =>
       if Z.eqb (leg_flightId l) input
       then filter (fun s => Z.eqb (si_legId (seatrow_cols s)) (leg_id l)) (db_seat db)
       else [])
    (db_leg db).

(** [delete]: the seat check, the delete, the check of the deleted rows. *)
Definition delete (db : DB) (user : User) (input : Z) : Outcome unit * DB :=
  let seats := seatsOfFlight db input in
  if negb (existsb (fun seat => sqlEqStr (si_userId (seatrow_cols seat)) (user_id user)) seats)
  then (Threw "You do not have a seat on this flight", db)
  else
    let '(db', numDeletedRows) := deleteFlight db input in
    match numDeletedRows with
    | O => (Threw "Flight not found", db')
    | S _ => (Returned tt, db')
    end.

(** [deleteMany]: the distinct flights of the list on which the user has
    a seat must be as many as the list is long.  The model is for a list
    that is not empty: on an empty one the query builder writes [in ()],
    which the engine refuses. *)
Definition deleteMany (db : DB) (user : User) (input : list Z) : Outcome unit * DB :=
  let flightIds := Js.setOfNums (userSeatsQuery db (user_id user) input) in
  if negb (Nat.eqb (List.length flightIds) (List.length input))
  then (Threw "You do not have a seat on all flights", db)
  else (Returned tt, fst (deleteFlightsWhere db (fun fr => Js.hasNum input (flight_id fr)))).

(** The rows of [flight] joined with [leg] joined with [seat], as the
    flight id and the seat. *)
Definition flightSeatRows (db : DB) : list (Z * SeatRow) :=
  flat_map
    (fun fr =>
       flat_map
         (fun l =>
            if Z.eqb (leg_flightId l) (flight_id fr)
            then map (fun s => (flight_id fr, s))
                     (filter (fun s => Z.eqb (si_legId (seatrow_cols s)) (leg_id l))
                             (db_seat db))
            else [])
         (db_leg db))
    (db_flight db).

(** The seats of one group of [groupBy('flight.id')]. *)
Definition groupSeats (db : DB) (id : Z) : list SeatRow :=
  map snd (filter (fun row => Z.eqb (fst row) id) (flightSeatRows db)).

Definition isNull (o : option string) : bool :=
  match o with None => true | Some _ => false end.

(** The [having] clause: one seat of the user, and every other seat
    without a user. *)
Definition onlyTraveller (db : DB) (user : User) (id : Z) : bool :=
  let seats := groupSeats db id in
  let mine := filter (fun s => sqlEqStr (si_userId (seatrow_cols s)) (user_id user)) seats in
  let guests := filter (fun s => isNull (si_userId (seatrow_cols s))) seats in
  Z.eqb (Z.of_nat (List.length mine)) 1 &&
  Z.eqb (Z.of_nat (List.length guests)) (Z.of_nat (List.length seats) - 1).

(** [deleteAll]. *)
Definition deleteAll (db : DB) (user : User) : DB :=
  let flightIds :=
    filter (onlyTraveller db user) (Js.setOfNums (map fst (flightSeatRows db))) in
  match flightIds with
  | [] => db
  | _ => fst (deleteFlightsWhere db (fun fr => Js.hasNum flightIds (flight_id fr)))
  end.

(** [create]: the input goes to the store as it is. *)
Definition create (db : DB) (input : CreateFlight) : option DB :=
  option_map fst (createFlight db input).

(** [createMany], with [dedupe ?? true]. *)
Definition createMany (db : DB) (user : User) (flights : list CreateFlight)
           (dedupe : option bool) : option ImportResult * DB :=
  createManyFlights db flights (user_id user)
                    (match dedupe with Some b => b | None => true end).

(** [list]. *)
Definition list (db : DB) (user : User) : Datatypes.list Flight :=
  listFlights db (user_id user).

End FlightRouter.

Section Saved.

Context {H : Helpers}.

(** The [values] that [validateAndSaveFlight] hands to the store. *)
Definition valuesOf (data : FlightInput) (firstLeg : LegInput)
           (processedLegs : list CreateLeg) : CreateFlight :=
  {| cf_date := formatYMD (parseISO (primaryDepartureDateOf firstLeg));
     cf_flightReason := fi_flightReason data;
     cf_note := fi_note data;
     cf_legs := processedLegs |}.

End Saved.

(* ================================================================= *)
(** ** The import of an AirTrail file: [resolveSeats], [processV1], [processV2] *)

Module AirTrail.

(** An entry of the [users] of the file, and the same with the user of
    the application it is mapped to. *)
Record DataUser : Type := mkDataUser {
  du_id : string;
  du_username : string;
  du_displayName : string
}.

Record ExportedUser : Type := mkExportedUser {
  eu_id : string;
  eu_username : string;
  eu_displayName : string;
  eu_mappedUserId : option string
}.

(** A user of the application: what the import reads of an entry of
    [api.user.list] and of [page.data.user]. *)
Record AppUser : Type := mkAppUser {
  au_id : string;
  au_username : string
}.

(** [Record<string, number[]>]: the flight indices noted under a key,
    by its own keys; the order of the keys is not part of the model.  The
    keys are airport codes, airline codes and the keys of users, which
    hold bars; none is taken to name a property of [Object.prototype]. *)
Definition Unknowns : Type := Js.Map (list nat).

(** [if (!unknown[key]) unknown[key] = []; unknown[key].push(flightIndex)]. *)
Definition noteUnknown (unknown : Unknowns) (key : string) (flightIndex : nat) : Unknowns :=
  match Js.get unknown key with
  | Some indices => Js.set unknown key (indices ++ [flightIndex])
  | None => Js.set unknown key [flightIndex]
  end.

(** The property names of [Object.prototype]: what a plain object
    answers to besides its own keys. *)
Definition objectPrototypeKeys : list string :=
  [ "constructor"; "__defineGetter__"; "__defineSetter__"; "hasOwnProperty";
    "__lookupGetter__"; "__lookupSetter__"; "isPrototypeOf"; "propertyIsEnumerable";
    "toString"; "valueOf"; "__proto__"; "toLocaleString" ].

(** [dataUsers], a plain object: its own properties, and the entry of
    the file that became its prototype, when an entry has the id
    [__proto__]. *)
Record DataUsers : Type := mkDataUsers {
  own_users : Js.Map DataUser;
  proto_user : option DataUser
}.

(** [acc[user.id] = user]: the key [__proto__] sets the prototype, any
    other key an own property. *)
Definition assignUser (acc : DataUsers) (user : DataUser) : DataUsers :=
  if String.eqb (du_id user) "__proto__"
  then {| own_users := own_users acc; proto_user := Some user |}
  else {| own_users := Js.set (own_users acc) (du_id user) user;
          proto_user := proto_user acc |}.

(** [data.users.reduce((acc, user) => { acc[user.id] = user; return acc }, {})]. *)
Definition dataUsersOf (users : list DataUser) : DataUsers :=
  fold_left assignUser users {| own_users := []; proto_user := None |}.

(** What [dataUsers[key]] is when it is truthy: an entry of the file, or
    a value that has no [id], no [username] and no [displayName] (a
    function or the object of [Object.prototype], a string of the entry
    that is the prototype). *)
Inductive Slot : Type :=
| Entry (dataUser : DataUser)
| Alien.

(** A property of an entry of the file, read through the prototype
    chain. *)
Definition entryProperty (entry : DataUser) (key : string) : option string :=
  if String.eqb key "id" then Some (du_id entry)
  else if String.eqb key "username" then Some (du_username entry)
  else if String.eqb key "displayName" then Some (du_displayName entry)
  else None.

(** [dataUsers?.[seat.userId ?? '']], [None] when it is falsy: the own
    property, else the prototype itself under [__proto__], else a
    property of the entry that is the prototype, else a property of
    [Object.prototype]. *)
Definition dataUserOf (dataUsers : DataUsers) (seat : Seat) : option Slot :=
  let key := match seat_userId seat with Some u => u | None => "" end in
  match Js.get (own_users dataUsers) key with
  | Some dataUser => Some (Entry dataUser)
  | None =>
      if String.eqb key "__proto__" then
        Some (match proto_user dataUsers with
              | Some entry => Entry entry
              | None => Alien
              end)
      else
        match match proto_user dataUsers with
              | Some entry => entryProperty entry key
              | None => None
              end with
        | Some text => if Js.truthy (Some text) then Some Alien else None
        | None => if existsb (String.eqb key) objectPrototypeKeys then Some Alien else None
        end
  end.

(** The key under which an unresolved user of the file is noted:
    [`${dataUser.id}|${dataUser.username}|${dataUser.displayName}`], a
    property that is not there reading [undefined]. *)
Definition unknownUserKey (dataUser : DataUser) : string :=
  (du_id dataUser ++ "|" ++ du_username dataUser ++ "|" ++ du_displayName dataUser)%string.

Definition slotKey (slot : Slot) : string :=
  match slot with
  | Entry dataUser => unknownUserKey dataUser
  | Alien => "undefined|undefined|undefined"
  end.

(** The application user a seat of the file resolves to.  No exported
    user has the id [undefined]. *)
Definition userOf (dataUsers : DataUsers) (exportedUsers : list ExportedUser)
           (users : list AppUser) (seat : Seat) : option AppUser :=
  let mappedUserId :=
    match dataUserOf dataUsers seat with
    | Some (Entry dataUser) =>
        match find (fun u => String.eqb (eu_id u) (du_id dataUser)) exportedUsers with
        | Some u => eu_mappedUserId u
        | None => None
        end
    | Some Alien => None
    | None => None
    end in
  match mappedUserId with
  | Some m => if Js.truthy mappedUserId
              then find (fun user => String.eqb (au_id user) m) users
              else None
  | None => None
  end.

(** The callback of [rawSeats.map] in [resolveSeats]: the seat it returns
    and [unknownUsers] after it.  A guest name that is [undefined] is
    [None], as the store takes it. *)
Definition resolveSeat (dataUsers : DataUsers) (exportedUsers : list ExportedUser)
           (users : list AppUser) (flightIndex : nat)
           (unknownUsers : Unknowns) (seat : Seat) : Seat * Unknowns :=
  let dataUser := dataUserOf dataUsers seat in
  let user := userOf dataUsers exportedUsers users seat in
  let unknownUsers' :=
    match dataUser, user with
    | Some slot, None => noteUnknown unknownUsers (slotKey slot) flightIndex
    | _, _ => unknownUsers
    end in
  let guestName :=
    match user with
    | Some _ => None
    | None =>
        if Js.truthy (seat_guestName seat) then seat_guestName seat
        else match dataUser with
             | Some (Entry du) => Some (du_displayName du)
             | Some Alien => None
             | None => None
             end
    end in
  ({| seat_userId := option_map au_id user;
      seat_guestName := guestName;
      seat_seat := seat_seat seat;
      seat_seatNumber := seat_seatNumber seat;
      seat_seatClass := seat_seatClass seat |},
   unknownUsers').

Fixpoint resolveSeatsFrom (dataUsers : DataUsers) (exportedUsers : list ExportedUser)
         (users : list AppUser) (flightIndex : nat)
         (unknownUsers : Unknowns) (rawSeats : list Seat) : list Seat * Unknowns :=
  match rawSeats with
  | [] => ([], unknownUsers)
  | seat :: rest =>
      let '(s, unknownUsers1) :=
        resolveSeat dataUsers exportedUsers users flightIndex unknownUsers seat in
      let '(ss, unknownUsers2) :=
        resolveSeatsFrom dataUsers exportedUsers users flightIndex unknownUsers1 rest in
      (s :: ss, unknownUsers2)
  end.

(** [users.find((usr) => usr.id === seat.userId)?.username === currentUser.username]. *)
Definition isCurrentUsers (users : list AppUser) (currentUser : AppUser) (seat : Seat) : bool :=
  match seat_userId seat with
  | Some id =>
      match find (fun usr => String.eqb (au_id usr) id) users with
      | Some usr => String.eqb (au_username usr) (au_username currentUser)
      | None => false
      end
  | None => false
  end.

(** [resolveSeats]: the seats, and [unknownUsers] after the call. *)
Definition resolveSeats (rawSeats : list Seat) (dataUsers : DataUsers)
           (exportedUsers : list ExportedUser) (users : list AppUser)
           (currentUser : AppUser) (flightIndex : nat) (unknownUsers : Unknowns)
  : list Seat * Unknowns :=
  let '(seats, unknownUsers') :=
    resolveSeatsFrom dataUsers exportedUsers users flightIndex unknownUsers rawSeats in
  if negb (existsb (isCurrentUsers users currentUser) seats)
  then (seats ++ [ {| seat_userId := Some (au_id currentUser);
                      seat_guestName := None;
                      seat_seat := None;
                      seat_seatNumber := None;
                      seat_seatClass := None |} ],
        unknownUsers')
  else (seats, unknownUsers').

(** An airport, an airline and an aircraft of the file: the fields the
    import reads. *)
Record RawAirport : Type := mkRawAirport {
  ra_icao : string
}.

Record RawAirline : Type := mkRawAirline {
  rl_name : string;
  rl_icao : option string
}.

Record RawAircraft : Type := mkRawAircraft {
  rc_name : string;
  rc_icao : option string
}.

(** A leg of a version 2 file, and a flight of it. *)
Record RawLeg : Type := mkRawLeg {
  rleg_from : option RawAirport;
  rleg_to : option RawAirport;
  rleg_airline : option RawAirline;
  rleg_aircraft : option RawAircraft;
  rleg_data : LegData;
  rleg_seats : list Seat
}.

Record RawFlightV2 : Type := mkRawFlightV2 {
  r2_date : string;
  r2_flightReason : option string;
  r2_note : option string;
  r2_legs : list RawLeg
}.

(** A flight of a version 1 file: one leg, its airports never null. *)
Record RawFlightV1 : Type := mkRawFlightV1 {
  r1_date : string;
  r1_flightReason : option string;
  r1_note : option string;
  r1_from : RawAirport;
  r1_to : RawAirport;
  r1_airline : option RawAirline;
  r1_aircraft : option RawAircraft;
  r1_data : LegData;
  r1_seats : list Seat
}.

(** What the import looks up outside the file: the mappings of the
    [options], the airport, airline and aircraft caches, and the users of
    the application. *)
Class Lookups : Type := mkLookups {
  userMapping : string -> option string;
  airportMapping : string -> option Airport;
  airlineMapping : string -> option Airline;
  getAirportByIcao : string -> option Airport;
  getAirlineByIcao : string -> option Airline;
  getAirlineByName : string -> option Airline;
  getAircraftByIcao : string -> option Aircraft;
  getAircraftByName : string -> option Aircraft;
  userList : list AppUser
}.

(** What [processV1] and [processV2] return. *)
Record Processed : Type := mkProcessed {
  p_flights : list CreateFlight;
  p_unknownAirports : Unknowns;
  p_unknownAirlines : Unknowns;
  p_unknownUsers : Unknowns;
  p_exportedUsers : list ExportedUser
}.

Section Process.

Context {L : Lookups}.

(** [a ?? b] and [a || b] on a nullable object. *)
Definition orLookup {A} (a b : option A) : option A :=
  match a with Some _ => a | None => b end.

Definition resolveAirline (rawAirline : option RawAirline) : option Airline :=
  match rawAirline with
  | None => None
  | Some raw =>
      let mappedAirline :=
        match rl_icao raw with
        | Some icao => if Js.truthy (rl_icao raw) then airlineMapping icao else None
        | None => None
        end in
      orLookup mappedAirline
               (match rl_icao raw with
                | Some icao => if Js.truthy (rl_icao raw) then getAirlineByIcao icao
                               else getAirlineByName (rl_name raw)
                | None => getAirlineByName (rl_name raw)
                end)
  end.

Definition resolveAircraft (rawAircraft : option RawAircraft) : option Aircraft :=
  match rawAircraft with
  | None => None
  | Some raw =>
      match rc_icao raw with
      | Some icao => if Js.truthy (rc_icao raw) then getAircraftByIcao icao
                     else getAircraftByName (rc_name raw)
      | None => getAircraftByName (rc_name raw)
      end
  end.

(** The [exportedUsers] of both versions. *)
Definition exportedUsersOf (users : list DataUser) : list ExportedUser :=
  map (fun exportedUser =>
         {| eu_id := du_id exportedUser;
            eu_username := du_username exportedUser;
            eu_displayName := du_displayName exportedUser;
            eu_mappedUserId :=
              orElse (userMapping (du_id exportedUser))
                     (option_map au_id
                        (find (fun user => String.eqb (au_username user)
                                                      (du_username exportedUser))
                              userList)) |})
      users.

(** [rawLeg.airline?.icao], when it is truthy. *)
Definition airlineCode (rawAirline : option RawAirline) : option string :=
  match rawAirline with
  | Some raw => if Js.truthy (rl_icao raw) then rl_icao raw else None
  | None => None
  end.

(** The three [if] of a leg that note what was not found. *)
Definition noteAirport (unknownAirports : Unknowns) (found : option Airport)
           (icao : option string) (flightIndex : nat) : Unknowns :=
  match found, icao with
  | None, Some code => if Js.truthy icao then noteUnknown unknownAirports code flightIndex
                       else unknownAirports
  | _, _ => unknownAirports
  end.

Definition noteAirline (unknownAirlines : Unknowns) (found : option Airline)
           (rawAirline : option RawAirline) (flightIndex : nat) : Unknowns :=
  match found, airlineCode rawAirline with
  | None, Some code => noteUnknown unknownAirlines code flightIndex
  | _, _ => unknownAirlines
  end.

(** [mapped ?? (icao ? await getAirportByIcao(icao) : null)] of
    [processV2], with [mapped] the entry of the mapping for a truthy
    [icao]. *)
Definition lookupAirport (icao : option string) : option Airport :=
  match icao with
  | Some code => if Js.truthy icao
                 then orLookup (airportMapping code) (getAirportByIcao code)
                 else None
  | None => None
  end.

(** The state of the loops: [flights] and the three records. *)
Record Acc : Type := mkAcc {
  acc_flights : list CreateFlight;
  acc_unknownAirports : Unknowns;
  acc_unknownAirlines : Unknowns;
  acc_unknownUsers : Unknowns
}.

(** One turn of the inner loop of [processV2]: the leg it pushes and the
    records after it. *)
Definition processLegV2 (dataUsers : DataUsers) (exportedUsers : list ExportedUser)
           (currentUser : AppUser) (flightIndex : nat)
           (st : Unknowns * Unknowns * Unknowns) (rawLeg : RawLeg)
  : CreateLeg * (Unknowns * Unknowns * Unknowns) :=
  let '(unknownAirports, unknownAirlines, unknownUsers) := st in
  let '(seats, unknownUsers1) :=
    resolveSeats (rleg_seats rawLeg) dataUsers exportedUsers userList currentUser
                 flightIndex unknownUsers in
  let fromIcao := option_map ra_icao (rleg_from rawLeg) in
  let toIcao := option_map ra_icao (rleg_to rawLeg) in
  let from := lookupAirport fromIcao in
  let to := lookupAirport toIcao in
  let airline := resolveAirline (rleg_airline rawLeg) in
  let aircraft := resolveAircraft (rleg_aircraft rawLeg) in
  let unknownAirports1 := noteAirport unknownAirports from fromIcao flightIndex in
  let unknownAirports2 := noteAirport unknownAirports1 to toIcao flightIndex in
  let unknownAirlines1 := noteAirline unknownAirlines airline (rleg_airline rawLeg) flightIndex in
  ({| cl_value :=
        {| lv_from := from;
           lv_to := to;
           lv_aircraft := aircraft;
           lv_airline := airline;
           lv_data := rleg_data rawLeg |};
      cl_seats := seats |},
   (unknownAirports2, unknownAirlines1, unknownUsers1)).

Fixpoint processLegsV2 (dataUsers : DataUsers) (exportedUsers : list ExportedUser)
         (currentUser : AppUser) (flightIndex : nat)
         (st : Unknowns * Unknowns * Unknowns) (rawLegs : list RawLeg)
  : list CreateLeg * (Unknowns * Unknowns * Unknowns) :=
  match rawLegs with
  | [] => ([], st)
  | rawLeg :: rest =>
      let '(leg, st1) := processLegV2 dataUsers exportedUsers currentUser flightIndex st rawLeg in
      let '(legs, st2) := processLegsV2 dataUsers exportedUsers currentUser flightIndex st1 rest in
      (leg :: legs, st2)
  end.

(** One turn of the outer loop of [processV2]. *)
Definition processFlightV2 (dataUsers : DataUsers) (exportedUsers : list ExportedUser)
           (currentUser : AppUser) (acc : Acc) (rawFlight : RawFlightV2) : Acc :=
  let flightIndex := List.length (acc_flights acc) in
  let '(processedLegs, (unknownAirports, unknownAirlines, unknownUsers)) :=
    processLegsV2 dataUsers exportedUsers currentUser flightIndex
                  (acc_unknownAirports acc, acc_unknownAirlines acc, acc_unknownUsers acc)
                  (r2_legs rawFlight) in
  {| acc_flights :=
       acc_flights acc ++
       [ {| cf_date := r2_date rawFlight;
            cf_flightReason := r2_flightReason rawFlight;
            cf_note := r2_note rawFlight;
            cf_legs := processedLegs |} ];
     acc_unknownAirports := unknownAirports;
     acc_unknownAirlines := unknownAirlines;
     acc_unknownUsers := unknownUsers |}.

Definition processV2 (users : list DataUser) (flights : list RawFlightV2)
           (currentUser : AppUser) : Processed :=
  let dataUsers := dataUsersOf users in
  let exportedUsers := exportedUsersOf users in
  let acc :=
    fold_left (processFlightV2 dataUsers exportedUsers currentUser) flights
              {| acc_flights := []; acc_unknownAirports := [];
                 acc_unknownAirlines := []; acc_unknownUsers := [] |} in
  {| p_flights := acc_flights acc;
     p_unknownAirports := acc_unknownAirports acc;
     p_unknownAirlines := acc_unknownAirlines acc;
     p_unknownUsers := acc_unknownUsers acc;
     p_exportedUsers := exportedUsers |}.

(** One turn of the loop of [processV1]. *)
Definition processFlightV1 (dataUsers : DataUsers) (exportedUsers : list ExportedUser)
           (currentUser : AppUser) (acc : Acc) (rawFlight : RawFlightV1) : Acc :=
  let flightIndex := List.length (acc_flights acc) in
  let '(seats, unknownUsers) :=
    resolveSeats (r1_seats rawFlight) dataUsers exportedUsers userList currentUser
                 flightIndex (acc_unknownUsers acc) in
  let fromIcao := ra_icao (r1_from rawFlight) in
  let toIcao := ra_icao (r1_to rawFlight) in
  let from := orLookup (airportMapping fromIcao) (getAirportByIcao fromIcao) in
  let to := orLookup (airportMapping toIcao) (getAirportByIcao toIcao) in
  let airline := resolveAirline (r1_airline rawFlight) in
  let aircraft := resolveAircraft (r1_aircraft rawFlight) in
  let unknownAirports1 :=
    match from with
    | None => noteUnknown (acc_unknownAirports acc) fromIcao flightIndex
    | Some _ => acc_unknownAirports acc
    end in
  let unknownAirports2 :=
    match to with
    | None => noteUnknown unknownAirports1 toIcao flightIndex
    | Some _ => unknownAirports1
    end in
  let unknownAirlines1 :=
    noteAirline (acc_unknownAirlines acc) airline (r1_airline rawFlight) flightIndex in
  {| acc_flights :=
       acc_flights acc ++
       [ {| cf_date := r1_date rawFlight;
            cf_flightReason := r1_flightReason rawFlight;
            cf_note := r1_note rawFlight;
            cf_legs :=
              [ {| cl_value :=
                     {| lv_from := from;
                        lv_to := to;
                        lv_aircraft := aircraft;
                        lv_airline := airline;
                        lv_data := r1_data rawFlight |};
                   cl_seats := seats |} ] |} ];
     acc_unknownAirports := unknownAirports2;
     acc_unknownAirlines := unknownAirlines1;
     acc_unknownUsers := unknownUsers |}.

Definition processV1 (users : list DataUser) (flights : list RawFlightV1)
           (currentUser : AppUser) : Processed :=
  let dataUsers := dataUsersOf users in
  let exportedUsers := exportedUsersOf users in
  let acc :=
    fold_left (processFlightV1 dataUsers exportedUsers currentUser) flights
              {| acc_flights := []; acc_unknownAirports := [];
                 acc_unknownAirlines := []; acc_unknownUsers := [] |} in
  {| p_flights := acc_flights acc;
     p_unknownAirports := acc_unknownAirports acc;
     p_unknownAirlines := acc_unknownAirlines acc;
     p_unknownUsers := acc_unknownUsers acc;
     p_exportedUsers := exportedUsers |}.

End Process.

End AirTrail.

(* ================================================================= *)
(** ** The visited airports of [src/lib/utils/data/data.ts] *)

Module Data.

(** An airport as this file reads it: the fields [id], [name], [iata]
    and [icao]. *)
Record Place : Type := mkPlace {
  place_id : Z;
  place_name : string;
  place_iata : option string;
  place_icao : string
}.

(** A [LegData] and a [FlightData], by the fields that
    [prepareVisitedAirports] and [formatSimpleFlight] read. *)
Record LegD : Type := mkLegD {
  ld_from : option Place;
  ld_to : option Place;
  ld_airline : option Airline
}.

Record FlightD : Type := mkFlightD {
  fd_from : option Place;
  fd_to : option Place;
  fd_date : option TZDate;
  fd_airline : option Airline;
  fd_legs : list LegD
}.

(** What [formatSimpleFlight] returns; [sf_airline] is [None] for the
    empty string of [f.airline ?? '']. *)
Record SimpleFlight : Type := mkSimpleFlight {
  sf_airports : option Z * option Z;
  sf_route : string;
  sf_date : option TZDate;
  sf_airline : option Airline
}.

(** [f.from?.iata ?? f.from?.icao ?? 'N/A']. *)
Definition routeEnd (p : option Place) : string :=
  match p with
  | Some place =>
      match place_iata place with
      | Some iata => iata
      | None => place_icao place
      end
  | None => "N/A"
  end.

Definition formatSimpleFlight (f : FlightD) : SimpleFlight :=
  {| sf_airports := (option_map place_id (fd_from f), option_map place_id (fd_to f));
     sf_route := (routeEnd (fd_from f) ++ " - " ++ routeEnd (fd_to f))%string;
     sf_date := fd_date f;
     sf_airline := fd_airline f |}.

(** An entry of [visited]: the airport with its counters.  The counters
    are integer-valued and held as [Z]. *)
Record Visit : Type := mkVisit {
  v_airport : Place;
  v_arrivals : Z;
  v_departures : Z;
  v_airlines : list Z;
  v_flights : list SimpleFlight;
  v_frequency : float
}.

Inductive Direction : Type := From | To.

Definition endOf (leg : LegD) (direction : Direction) : option Place :=
  match direction with
  | From => ld_from leg
  | To => ld_to leg
  end.

(** The statements of [formatAirport] after the visit was found or
    pushed, on that visit. *)
Definition countVisit (flight : FlightD) (leg : LegD) (direction : Direction)
           (visit : Visit) : Visit :=
  {| v_airport := v_airport visit;
     v_arrivals := match direction with
                   | From => v_arrivals visit
                   | To => v_arrivals visit + 1
                   end;
     v_departures := match direction with
                     | From => v_departures visit + 1
                     | To => v_departures visit
                     end;
     v_airlines :=
       match ld_airline leg with
       | Some airline =>
           if negb (Js.hasNum (v_airlines visit) (airline_id airline))
           then v_airlines visit ++ [airline_id airline]
           else v_airlines visit
       | None => v_airlines visit
       end;
     v_flights := v_flights visit ++ [formatSimpleFlight flight];
     v_frequency := v_frequency visit |}.

(** The first entry with the name is replaced: [find] gives the object
    itself, which the statements that follow change in place. *)
Fixpoint onFirst (name : string) (change : Visit -> Visit) (visited : list Visit)
  : list Visit :=
  match visited with
  | [] => []
  | v :: rest =>
      if String.eqb (place_name (v_airport v)) name
      then change v :: rest
      else v :: onFirst name change rest
  end.

Definition formatAirport (visited : list Visit) (flight : FlightD) (leg : LegD)
           (direction : Direction) : list Visit :=
  match endOf leg direction with
  | None => visited
  | Some airport =>
      let found :=
        find (fun v => String.eqb (place_name (v_airport v)) (place_name airport)) visited in
      let visited1 :=
        match found with
        | Some _ => visited
        | None =>
            visited ++ [ {| v_airport := airport;
                            v_arrivals := 0;
                            v_departures := 0;
                            v_airlines := [];
                            v_flights := [];
                            v_frequency := 0%float |} ]
        end in
      onFirst (place_name airport) (countVisit flight leg direction) visited1
  end.

(** The two loops: each leg of each flight, departure then arrival. *)
Definition visitsOf (data : list FlightD) : list Visit :=
  fold_left
    (fun visited flight =>
       fold_left
         (fun visited leg =>
            formatAirport (formatAirport visited flight leg From) flight leg To)
         (fd_legs flight) visited)
    data [].

(** A count as the number it is in [combinedFrequencies]. *)
Definition numOf (z : Z) : float := PrimFloat.of_uint63 (Uint63.of_Z z).

Definition combined (v : Visit) : Z := v_arrivals v + v_departures v.

(** [Math.min(...xs)] and [Math.max(...xs)] on a list that is not empty. *)
Definition minOf (x : Z) (xs : list Z) : Z := fold_left Z.min xs x.
Definition maxOf (x : Z) (xs : list Z) : Z := fold_left Z.max xs x.

(** [prepareVisitedAirports].  With nothing visited the last loop has
    nothing to do, whatever [Math.min()] and [Math.max()] are. *)
Definition prepareVisitedAirports (data : list FlightD) : list Visit :=
  let visited := visitsOf data in
  match map combined visited with
  | [] => visited
  | c :: cs =>
      let rawMin := minOf c cs in
      let rawMax := maxOf c cs in
      let span := if Z.eqb (rawMax - rawMin) 0 then 1 else rawMax - rawMin in
      map (fun v =>
             let normalised := (numOf (combined v - rawMin) / numOf span)%float in
             {| v_airport := v_airport v;
                v_arrivals := v_arrivals v;
                v_departures := v_departures v;
                v_airlines := v_airlines v;
                v_flights := v_flights v;
                v_frequency := (normalised * numOf (3 - 1) + numOf 1)%float |})
          visited
  end.

End Data.

(* ================================================================= *)
(** ** More sample data *)

Module Ex2.

(** The legs that the validator makes of one same-day leg. *)
Definition sameDayLegs : list CreateLeg :=
  [ mkCreateLeg (Ex.validated Ex.sameDay 0) (li_seats Ex.sameDay) ].


(** A flight of two legs that Alice flies alone, and the database that
    holds it. *)
Definition twoLegs : CreateFlight :=
  mkCreateFlight "2024-01-01" (Some "leisure") None
    [ mkCreateLeg (mkLegValue (Some Ex.jfk) (Some Ex.lax) None None Ex.legData0)
                  [Ex.seatOf (Some "alice") None];
      mkCreateLeg (mkLegValue (Some Ex.lax) (Some Ex.jfk) None None Ex.legData0)
                  [Ex.seatOf (Some "alice") None] ].

Definition dbTwoLegs : DB :=
  Eval vm_compute in snd (createManyFlights Ex.emptyDB [twoLegs] "alice" false).

(** Alice twice on the one leg of a flight. *)
Definition aliceTwice : CreateFlight :=
  Ex.flightOf (Some Ex.jfk) [Ex.seatOf (Some "alice") None; Ex.seatOf (Some "alice") None].

(** The leg input of [Ex.sameDay], with Alice on two seats. *)
Definition sameDayAliceTwice : LegInput :=
  mkLegInput Ex.jfk Ex.lax (Some "2024-01-01") (Some "10:00") None None None None None None
             (Some "2024-01-01") (Some "13:00") None None None None None None
             None None None None (Some "AA1") None None None
             [Ex.seatOf (Some "alice") None; Ex.seatOf (Some "alice") None].

(** The one user of a file, mapped to Alice, and Alice as the user of the
    application who imports. *)
Definition fileUser : AirTrail.DataUser := AirTrail.mkDataUser "usr_1" "alice" "Alice".

Definition fileUserMapped : AirTrail.ExportedUser :=
  AirTrail.mkExportedUser "usr_1" "alice" "Alice" (Some "alice").

Definition appAlice : AirTrail.AppUser := AirTrail.mkAppUser "alice" "alice".

(** Two flights that differ in flight number and registration, with a
    bar in them. *)
Definition barFlight (number registration : option string) : CreateFlight :=
  mkCreateFlight "2024-01-01" None None
    [ mkCreateLeg
        (mkLegValue (Some Ex.jfk) (Some Ex.lax) None None
           (mkLegData None None None None None None None None None None None None None
                      number registration))
        [] ].

End Ex2.

(* ================================================================= *)
(** ** Predicates the statements use *)

(** *** The tables after the writes

    What a write leaves when the engine accepts every row of it: the
    rows are appended and the counters move on. *)

Fixpoint seatsAdded (db : DB) (rows : list SeatInsert) : DB :=
  match rows with
  | [] => db
  | r :: rest =>
      seatsAdded
        {| db_airport := db_airport db;
           db_aircraft := db_aircraft db;
           db_airline := db_airline db;
           db_flight := db_flight db;
           db_leg := db_leg db;
           db_seat := db_seat db ++ [ {| seatrow_id := db_nextSeatId db; seatrow_cols := r |} ];
           db_nextFlightId := db_nextFlightId db;
           db_nextLegId := db_nextLegId db;
           db_nextSeatId := db_nextSeatId db + 1 |}
        rest
  end.

Definition legAdded (db : DB) (flightId : Z) (i : Z) (leg : CreateLeg) : DB :=
  let v := cl_value leg in
  let legRespId := db_nextLegId db in
  let db1 :=
    {| db_airport := db_airport db;
       db_aircraft := db_aircraft db;
       db_airline := db_airline db;
       db_flight := db_flight db;
       db_leg := db_leg db ++
         [ {| leg_id := legRespId;
              leg_flightId := flightId;
              leg_legOrder := i;
              leg_fromId := option_map airport_id (lv_from v);
              leg_toId := option_map airport_id (lv_to v);
              leg_aircraftId := option_map aircraft_id (lv_aircraft v);
              leg_airlineId := option_map airline_id (lv_airline v);
              leg_data := lv_data v |} ];
       db_seat := db_seat db;
       db_nextFlightId := db_nextFlightId db;
       db_nextLegId := db_nextLegId db + 1;
       db_nextSeatId := db_nextSeatId db |} in
  match cl_seats leg with
  | [] => db1
  | _ => seatsAdded db1 (map (seatInsertOf legRespId) (cl_seats leg))
  end.

Fixpoint legsAdded (db : DB) (flightId : Z) (i : Z) (legs : list CreateLeg) : DB :=
  match legs with
  | [] => db
  | leg :: rest => legsAdded (legAdded db flightId i leg) flightId (i + 1) rest
  end.

(** The store after a batch of flights went in, each with its legs. *)
Fixpoint flightsAdded (db : DB) (data : list CreateFlight) : DB :=
  match data with
  | [] => db
  | flight :: rest =>
      let '(db1, respId) := insertFlightRow db flight in
      flightsAdded (legsAdded db1 respId 0 (cf_legs flight)) rest
  end.

(** The store after a flight took new columns and new legs. *)
Definition flightReplaced (db : DB) (id : Z) (data : CreateFlight) : DB :=
  let isOld := fun l => Z.eqb (leg_flightId l) id in
  let oldLegIds := map leg_id (filter isOld (db_leg db)) in
  let db1 :=
    {| db_airport := db_airport db;
       db_aircraft := db_aircraft db;
       db_airline := db_airline db;
       db_flight :=
         map (fun fr =>
                if Z.eqb (flight_id fr) id
                then {| flight_id := flight_id fr;
                        flight_date := cf_date data;
                        flight_flightReason := cf_flightReason data;
                        flight_note := cf_note data |}
                else fr)
             (db_flight db);
       db_leg := filter (fun l => negb (isOld l)) (db_leg db);
       db_seat :=
         filter (fun s => negb (Js.hasNum oldLegIds (si_legId (seatrow_cols s))))
                (db_seat db);
       db_nextFlightId := db_nextFlightId db;
       db_nextLegId := db_nextLegId db;
       db_nextSeatId := db_nextSeatId db |} in
  legsAdded db1 id 0 (cf_legs data).

(** The rows of [db'] are those of [db]: what a refused write leaves
    behind, the sequences apart. *)
Definition sameRows (db db' : DB) : Prop :=
  db_airport db' = db_airport db /\
  db_aircraft db' = db_aircraft db /\
  db_airline db' = db_airline db /\
  db_flight db' = db_flight db /\
  db_leg db' = db_leg db /\
  db_seat db' = db_seat db.

(** *** What the engine accepts

    The seats of a leg name no user twice and no guest twice; the
    airports, the aircraft and the airline of a leg are rows of their
    tables, or null. *)
Definition seatsShare (a b : Seat) : bool :=
  sqlSameStr (seat_userId a) (seat_userId b) ||
  sqlSameStr (seat_guestName a) (seat_guestName b).

Fixpoint seatsDistinct (seats : list Seat) : bool :=
  match seats with
  | [] => true
  | s :: rest => negb (existsb (seatsShare s) rest) && seatsDistinct rest
  end.

Definition legAcceptable (db : DB) (leg : CreateLeg) : bool :=
  let v := cl_value leg in
  refAccepted airport_id (db_airport db) (option_map airport_id (lv_from v)) &&
  refAccepted airport_id (db_airport db) (option_map airport_id (lv_to v)) &&
  refAccepted aircraft_id (db_aircraft db) (option_map aircraft_id (lv_aircraft v)) &&
  refAccepted airline_id (db_airline db) (option_map airline_id (lv_airline v)) &&
  seatsDistinct (cl_seats leg).

Definition flightAcceptable (db : DB) (f : CreateFlight) : bool :=
  forallb (legAcceptable db) (cf_legs f).

(** No bar in a string: what a calendar date and a rendered number satisfy. *)
Fixpoint noBar (s : string) : bool :=
  match s with
  | EmptyString => true
  | String c rest => negb (Ascii.eqb c "|") && noBar rest
  end.

(** Serial ids start at 1: no flight row has id 0. *)
Definition flightIdsNonzero (db : DB) : Prop :=
  forall fr, In fr (db_flight db) -> flight_id fr <> 0.

(** The rows a bulk insert appends to the flight table, numbered from [n]. *)
Fixpoint flightRowsFrom (n : Z) (data : list CreateFlight) : list FlightRow :=
  match data with
  | [] => []
  | f :: rest =>
      {| flight_id := n;
         flight_date := cf_date f;
         flight_flightReason := cf_flightReason f;
         flight_note := cf_note f |} :: flightRowsFrom (n + 1) rest
  end.

(** Guest seats of a leg among seat rows to insert. *)
Definition guestRowsOn (legId : Z) (rows : list SeatInsert) : list SeatInsert :=
  filter (fun s => Z.eqb (si_legId s) legId &&
                   match si_userId s with None => true | Some _ => false end)
         rows.

(** The loop shape shared by the three maps of the matcher: an element
    enters under its key unless the key is taken. *)
Definition firstWins {A V : Type} (key : A -> string) (val : A -> V)
           (m0 : Js.Map V) (l : list A) : Js.Map V :=
  fold_left (fun m x => if Js.has m (key x) then m else Js.set m (key x) (val x)) l m0.

(** An error of a field check: scoped to the leg, and not the order error. *)
Definition fieldError (legIndex : nat) (e : ActionResult) : Prop :=
  exists path message,
    e = pathError legIndex path message /\
    message <> "Arrival must be after departure".

(** The leg rows the legs of a flight become: ids from [n], positions
    from [i]. *)
Fixpoint legRowsFrom (n flightId i : Z) (legs : list CreateLeg) : list LegRow :=
  match legs with
  | [] => []
  | leg :: rest =>
      {| leg_id := n;
         leg_flightId := flightId;
         leg_legOrder := i;
         leg_fromId := option_map airport_id (lv_from (cl_value leg));
         leg_toId := option_map airport_id (lv_to (cl_value leg));
         leg_aircraftId := option_map aircraft_id (lv_aircraft (cl_value leg));
         leg_airlineId := option_map airline_id (lv_airline (cl_value leg));
         leg_data := lv_data (cl_value leg) |} :: legRowsFrom (n + 1) flightId (i + 1) rest
  end.

(** Flight ids as a serial column and a foreign key give them: positive,
    below the counter, and no leg of a flight yet to come. *)
Definition serialFlightIds (db : DB) : Prop :=
  0 < db_nextFlightId db /\
  (forall fr, In fr (db_flight db) -> 0 < flight_id fr < db_nextFlightId db) /\
  (forall l, In l (db_leg db) -> leg_flightId l < db_nextFlightId db).

(** The airport a leg refers to is in the airport table. *)
Definition knownAirport (db : DB) (ref : option Z) : Prop :=
  exists a, lookupBy airport_id (db_airport db) ref = Some a.

(** The user is among the travellers of an incoming flight. *)
Definition travelsOn (userId : string) (f : CreateFlight) : Prop :=
  exists k leg s, nth_error (cf_legs f) k = Some leg /\ In s (cl_seats leg) /\
                  seat_userId s = Some userId.

(** The copied columns of an incoming leg. *)
Definition legDataOf (l : CreateLeg) : LegData := lv_data (cl_value l).

(** An incoming flight is matched when its signature maps to an id the
    code takes as present. *)
Definition matched (existingBySig : Js.Map Z) (f : CreateFlight) : bool :=
  Js.truthyNum (Js.get existingBySig (signature f)).

(** The user already holds a seat on an existing flight with the
    signature of [f], and [f] names both airports of its first leg. *)
Definition alreadyImported (db : DB) (userId : string) (f : CreateFlight) : Prop :=
  Js.truthyNum (firstFromId f) = true /\
  Js.truthyNum (firstToId f) = true /\
  exists ef, In ef (listFlightsQuery db userId) /\
             noBar (fl_date ef) = true /\
             signature (createFlightOf ef) = signature f.

(* ================================================================= *)
(** ** Predicates for the further statements *)

(** The user has a seat on a leg of the flight with this id. *)
Definition seatOnFlight (db : DB) (user : User) (id : Z) : Prop :=
  exists l s, In l (db_leg db) /\ leg_flightId l = id /\
              In s (db_seat db) /\ si_legId (seatrow_cols s) = leg_id l /\
              si_userId (seatrow_cols s) = Some (user_id user).

(** A leg of a flight that a delete removes, and a seat of such a leg. *)
Definition legOfDoomed (db : DB) (doomed : FlightRow -> bool) (l : LegRow) : Prop :=
  exists fr, In fr (db_flight db) /\ doomed fr = true /\ flight_id fr = leg_flightId l.

Definition seatOfDoomed (db : DB) (doomed : FlightRow -> bool) (s : SeatRow) : Prop :=
  exists l, In l (db_leg db) /\ legOfDoomed db doomed l /\
            leg_id l = si_legId (seatrow_cols s).

(** A seat row without its [id] and [legId], as [createFlightOf] maps it. *)
Definition seatOfCols (c : SeatInsert) : Seat :=
  {| seat_userId := si_userId c;
     seat_guestName := si_guestName c;
     seat_seat := si_seat c;
     seat_seatNumber := si_seatNumber c;
     seat_seatClass := si_seatClass c |}.

(** The seat rows the legs of a flight bring, leg ids from [n]. *)
Fixpoint seatColsFrom (n : Z) (legs : list CreateLeg) : list SeatInsert :=
  match legs with
  | [] => []
  | leg :: rest => map (seatInsertOf n) (cl_seats leg) ++ seatColsFrom (n + 1) rest
  end.

(** What the schema keeps: the primary keys of [flight] and [leg] are
    distinct and below their serial counters, every leg belongs to a
    flight row ([leg_flight_id_fkey]) and every seat to a leg row
    ([seat_leg_id_fkey]), and no two legs of a flight have the same
    position ([leg_flight_id_leg_order_key]). *)
Definition consistent (db : DB) : Prop :=
  NoDup (map flight_id (db_flight db)) /\
  NoDup (map leg_id (db_leg db)) /\
  (forall fr, In fr (db_flight db) -> flight_id fr < db_nextFlightId db) /\
  (forall l, In l (db_leg db) -> leg_id l < db_nextLegId db) /\
  (forall l, In l (db_leg db) -> In (leg_flightId l) (map flight_id (db_flight db))) /\
  (forall s, In s (db_seat db) ->
             In (si_legId (seatrow_cols s)) (map leg_id (db_leg db))) /\
  NoDup (map (fun l => (leg_flightId l, leg_legOrder l)) (db_leg db)).

(** The flight row a [CreateFlight] becomes under an id. *)
Definition flightRowOf (id : Z) (data : CreateFlight) : FlightRow :=
  {| flight_id := id;
     flight_date := cf_date data;
     flight_flightReason := cf_flightReason data;
     flight_note := cf_note data |}.

(** The seats of the legs of a flight read back, against the seats that
    were given.  The subquery of the seats has no [orderBy]: the seats of
    a leg are read up to their order. *)
Definition seatsReadAs (legs : list Leg) (given : list (list Seat)) : Prop :=
  Forall2 (fun l seats => Permutation (map seatOfRow (l_seats l)) seats) legs given.

(** Two flights that differ at most in the order of the seats of their
    legs. *)
Definition sameButSeatOrder (f g : CreateFlight) : Prop :=
  cf_date f = cf_date g /\
  cf_flightReason f = cf_flightReason g /\
  cf_note f = cf_note g /\
  Forall2 (fun a b => cl_value a = cl_value b /\ Permutation (cl_seats a) (cl_seats b))
          (cf_legs f) (cf_legs g).

(** The airports, the aircraft and the airline of an incoming leg are
    rows of their tables, found under their ids, or null. *)
Definition refsStored (db : DB) (leg : CreateLeg) : Prop :=
  let v := cl_value leg in
  lookupBy airport_id (db_airport db) (option_map airport_id (lv_from v)) = lv_from v /\
  lookupBy airport_id (db_airport db) (option_map airport_id (lv_to v)) = lv_to v /\
  lookupBy aircraft_id (db_aircraft db) (option_map aircraft_id (lv_aircraft v)) =
    lv_aircraft v /\
  lookupBy airline_id (db_airline db) (option_map airline_id (lv_airline v)) =
    lv_airline v.


(** The eight components of the signature agree on two flights with the
    first legs [lf] and [lg]. *)
Definition sameKey (f g : CreateFlight) (lf lg : CreateLeg) : Prop :=
  let df := lv_data (cl_value lf) in
  let dg := lv_data (cl_value lg) in
  cf_date f = cf_date g /\
  option_map airport_id (lv_from (cl_value lf)) =
    option_map airport_id (lv_from (cl_value lg)) /\
  option_map airport_id (lv_to (cl_value lf)) =
    option_map airport_id (lv_to (cl_value lg)) /\
  component (flightNumber df) = component (flightNumber dg) /\
  component (aircraftReg df) = component (aircraftReg dg) /\
  component (departure df) = component (departure dg) /\
  component (arrival df) = component (arrival dg) /\
  List.length (cf_legs f) = List.length (cf_legs g).

(** No component that the signature takes as a string holds a bar. *)
Definition barFree (f : CreateFlight) (firstLeg : CreateLeg) : Prop :=
  let d := lv_data (cl_value firstLeg) in
  noBar (cf_date f) = true /\
  noBar (component (flightNumber d)) = true /\
  noBar (component (aircraftReg d)) = true /\
  noBar (component (departure d)) = true /\
  noBar (component (arrival d)) = true.

(** Two results of the validator, at the leg indices [i] and [j], that
    differ at most in the index their error carries. *)
Definition sameAt {A} (i j : nat) (x y : ActionResult + A) : Prop :=
  match x, y with
  | inr a, inr b => a = b
  | inl e, inl e' =>
      exists path message, e = pathError i path message /\ e' = pathError j path message
  | _, _ => False
  end.

(** The indices noted under a key, none when the key is absent. *)
Definition indicesOf (unknown : AirTrail.Unknowns) (key : string) : list nat :=
  match Js.get unknown key with
  | Some indices => indices
  | None => []
  end.

(** The importing user's name belongs, among the users of the
    application, to the importing user only. *)
Definition ownName (users : list AirTrail.AppUser) (currentUser : AirTrail.AppUser) : Prop :=
  forall u, In u users ->
            AirTrail.au_username u = AirTrail.au_username currentUser ->
            AirTrail.au_id u = AirTrail.au_id currentUser.

(** Where a seat is: its type, number and class. *)
Definition seatPlace (s : Seat) : option string * option string * option string :=
  (seat_seat s, seat_seatNumber s, seat_seatClass s).

(** A seat of the file for which [dataUsers] answers and that maps to no
    user of the application: it is noted under [key]. *)
Definition unresolvedAs (dataUsers : AirTrail.DataUsers)
           (exportedUsers : list AirTrail.ExportedUser) (users : list AirTrail.AppUser)
           (key : string) (seat : Seat) : bool :=
  match AirTrail.dataUserOf dataUsers seat,
        AirTrail.userOf dataUsers exportedUsers users seat with
  | Some slot, None => String.eqb (AirTrail.slotKey slot) key
  | _, _ => false
  end.

(** The airport codes of a leg of the file that name an airport and find
    none. *)
Definition missingAirports {L : AirTrail.Lookups} (rawLeg : AirTrail.RawLeg) : list string :=
  let missing icao :=
    match AirTrail.lookupAirport icao, icao with
    | None, Some code => if Js.truthy icao then [code] else []
    | _, _ => []
    end in
  missing (option_map AirTrail.ra_icao (AirTrail.rleg_from rawLeg)) ++
  missing (option_map AirTrail.ra_icao (AirTrail.rleg_to rawLeg)).

(** The leg and the flight that the import makes of a leg and a flight
    of a version 2 file. *)
Definition importedLeg {L : AirTrail.Lookups} (dataUsers : AirTrail.DataUsers)
           (exportedUsers : list AirTrail.ExportedUser) (currentUser : AirTrail.AppUser)
           (rawLeg : AirTrail.RawLeg) (leg : CreateLeg) : Prop :=
  lv_from (cl_value leg) =
    AirTrail.lookupAirport (option_map AirTrail.ra_icao (AirTrail.rleg_from rawLeg)) /\
  lv_to (cl_value leg) =
    AirTrail.lookupAirport (option_map AirTrail.ra_icao (AirTrail.rleg_to rawLeg)) /\
  lv_airline (cl_value leg) = AirTrail.resolveAirline (AirTrail.rleg_airline rawLeg) /\
  lv_aircraft (cl_value leg) = AirTrail.resolveAircraft (AirTrail.rleg_aircraft rawLeg) /\
  lv_data (cl_value leg) = AirTrail.rleg_data rawLeg /\
  cl_seats leg =
    fst (AirTrail.resolveSeats (AirTrail.rleg_seats rawLeg) dataUsers exportedUsers
                               AirTrail.userList currentUser 0 []).

Definition importedFlight {L : AirTrail.Lookups} (dataUsers : AirTrail.DataUsers)
           (exportedUsers : list AirTrail.ExportedUser) (currentUser : AirTrail.AppUser)
           (rawFlight : AirTrail.RawFlightV2) (f : CreateFlight) : Prop :=
  cf_date f = AirTrail.r2_date rawFlight /\
  cf_flightReason f = AirTrail.r2_flightReason rawFlight /\
  cf_note f = AirTrail.r2_note rawFlight /\
  Forall2 (importedLeg dataUsers exportedUsers currentUser)
          (AirTrail.r2_legs rawFlight) (cf_legs f).

(** The airline code of a leg of the file that finds no airline. *)
Definition missingAirline {L : AirTrail.Lookups} (rawAirline : option AirTrail.RawAirline)
  : list string :=
  match AirTrail.resolveAirline rawAirline, AirTrail.airlineCode rawAirline with
  | None, Some code => [code]
  | _, _ => []
  end.

(** The airport that [processV1] finds for a code. *)
Definition airportV1 {L : AirTrail.Lookups} (icao : string) : option Airport :=
  AirTrail.orLookup (AirTrail.airportMapping icao) (AirTrail.getAirportByIcao icao).

(** The flight that the import makes of a flight of a version 1 file. *)
Definition importedFlightV1 {L : AirTrail.Lookups} (dataUsers : AirTrail.DataUsers)
           (exportedUsers : list AirTrail.ExportedUser) (currentUser : AirTrail.AppUser)
           (rawFlight : AirTrail.RawFlightV1) (f : CreateFlight) : Prop :=
  cf_date f = AirTrail.r1_date rawFlight /\
  cf_flightReason f = AirTrail.r1_flightReason rawFlight /\
  cf_note f = AirTrail.r1_note rawFlight /\
  exists leg,
    cf_legs f = [leg] /\
    lv_from (cl_value leg) = airportV1 (AirTrail.ra_icao (AirTrail.r1_from rawFlight)) /\
    lv_to (cl_value leg) = airportV1 (AirTrail.ra_icao (AirTrail.r1_to rawFlight)) /\
    lv_airline (cl_value leg) = AirTrail.resolveAirline (AirTrail.r1_airline rawFlight) /\
    lv_aircraft (cl_value leg) = AirTrail.resolveAircraft (AirTrail.r1_aircraft rawFlight) /\
    lv_data (cl_value leg) = AirTrail.r1_data rawFlight /\
    cl_seats leg =
      fst (AirTrail.resolveSeats (AirTrail.r1_seats rawFlight) dataUsers exportedUsers
                                 AirTrail.userList currentUser 0 []).

(** An end of a flight of a version 1 file for which no airport is found. *)
Definition missingAirportV1 {L : AirTrail.Lookups} (key : string)
           (rawFlight : AirTrail.RawFlightV1) : Prop :=
  (AirTrail.ra_icao (AirTrail.r1_from rawFlight) = key /\
   airportV1 (AirTrail.ra_icao (AirTrail.r1_from rawFlight)) = None) \/
  (AirTrail.ra_icao (AirTrail.r1_to rawFlight) = key /\
   airportV1 (AirTrail.ra_icao (AirTrail.r1_to rawFlight)) = None).

(** Some seat on some leg of an incoming flight is the user's. *)
Definition onBoard (userId : string) (f : CreateFlight) : bool :=
  existsb (fun leg => existsb (fun s => sqlEqStr (seat_userId s) userId) (cl_seats leg))
          (cf_legs f).

(** The name under which a visit is kept. *)
Definition visitName (v : Data.Visit) : string := Data.place_name (Data.v_airport v).

(** An end of a leg is an airport of this name. *)
Definition endNamed (direction : Data.Direction) (name : string) (leg : Data.LegD) : bool :=
  match Data.endOf leg direction with
  | Some airport => String.eqb (Data.place_name airport) name
  | None => false
  end.

(** The legs of the flights that depart from ([From]) or arrive at
    ([To]) an airport of this name. *)
Definition endsAt (direction : Data.Direction) (name : string) (data : list Data.FlightD)
  : list Data.LegD :=
  filter (endNamed direction name) (flat_map Data.fd_legs data).

(** The calls of [formatAirport] in the order of the two loops. *)
Definition callsOf (data : list Data.FlightD)
  : list (Data.FlightD * Data.LegD * Data.Direction) :=
  flat_map (fun flight =>
              flat_map (fun leg => [(flight, leg, Data.From); (flight, leg, Data.To)])
                       (Data.fd_legs flight))
           data.

(** A call counts for a direction and a name. *)
Definition callHits (direction : Data.Direction) (name : string)
           (call : Data.FlightD * Data.LegD * Data.Direction) : bool :=
  match direction, snd call with
  | Data.From, Data.From | Data.To, Data.To => endNamed direction name (snd (fst call))
  | _, _ => false
  end.

Definition hitsIn (direction : Data.Direction) (name : string)
           (calls : list (Data.FlightD * Data.LegD * Data.Direction)) : Z :=
  Z.of_nat (List.length (filter (callHits direction name) calls)).

(** What holds of [visited] after a sequence of calls. *)
Definition counted (calls : list (Data.FlightD * Data.LegD * Data.Direction))
           (visited : list Data.Visit) : Prop :=
  NoDup (map visitName visited) /\
  (forall v, In v visited ->
     Data.v_departures v = hitsIn Data.From (visitName v) calls /\
     Data.v_arrivals v = hitsIn Data.To (visitName v) calls /\
     Z.of_nat (List.length (Data.v_flights v)) = Data.v_departures v + Data.v_arrivals v /\
     0 < Data.v_departures v + Data.v_arrivals v /\
     NoDup (Data.v_airlines v)) /\
  (forall name, ~ In name (map visitName visited) ->
     hitsIn Data.From name calls = 0 /\ hitsIn Data.To name calls = 0).

(* ================================================================= *)
(** * Properties *)

(** ** Strings *)

Lemma append_bar_split (a a' r r' : string) :
  noBar a = true -> noBar a' = true ->
  (a ++ "|" ++ r)%string = (a' ++ "|" ++ r')%string ->
  a = a' /\ r = r'.
Proof.
  revert a'. induction a as [|c a IH]; intros [|c' a'] Ha Ha' E; simpl in *.
  - injection E as E. auto.
  - injection E as Ec E. subst c'. simpl in Ha'. discriminate.
  - injection E as Ec E. subst c. simpl in Ha. discriminate.
  - injection E as Ec E. subst c'.
    apply andb_prop in Ha as [_ Ha]. apply andb_prop in Ha' as [_ Ha'].
    destruct (IH a' Ha Ha' E) as [-> ->]. auto.
Qed.

Lemma noBar_append_bar (a r : string) : noBar (a ++ "|" ++ r)%string = false.
Proof.
  induction a as [|c a IH]; simpl in *.
  - reflexivity.
  - rewrite IH. apply andb_false_r.
Qed.

Lemma uint_noBar (d : Decimal.uint) : noBar (NilEmpty.string_of_uint d) = true.
Proof. induction d; simpl; auto. Qed.

Lemma numToString_noBar (z : Z) : noBar (Js.numToString z) = true.
Proof.
  unfold Js.numToString, NilZero.string_of_int, NilZero.string_of_uint.
  destruct (Z.to_int z) as [d|d]; destruct d; simpl; auto using uint_noBar.
Qed.

Lemma to_int_not_nil (z : Z) :
  Z.to_int z <> Decimal.Pos Decimal.Nil /\ Z.to_int z <> Decimal.Neg Decimal.Nil.
Proof.
  destruct z as [|p|p]; simpl; split; try discriminate;
    intros E; injection E as E; exact (DecimalPos.Unsigned.to_uint_nonnil p E).
Qed.

Lemma numToString_inj (a b : Z) : Js.numToString a = Js.numToString b -> a = b.
Proof.
  unfold Js.numToString. intros E.
  apply DecimalZ.to_int_inj.
  destruct (to_int_not_nil a) as [Ha1 Ha2], (to_int_not_nil b) as [Hb1 Hb2].
  pose proof (NilZero.isi _ Ha1 Ha2) as Ia.
  pose proof (NilZero.isi _ Hb1 Hb2) as Ib.
  rewrite E in Ia. congruence.
Qed.

Lemma numToString_nonempty (z : Z) : Js.numToString z <> "".
Proof.
  unfold Js.numToString. intros E.
  destruct (to_int_not_nil z) as [H1 H2].
  pose proof (NilZero.isi _ H1 H2) as I. rewrite E in I. discriminate.
Qed.

(** ** Maps built by "first occurrence wins" loops *)

Section FirstWins.

Context {A V : Type} (key : A -> string) (val : A -> V).

Lemma has_in_keys (m : Js.Map V) (k : string) :
  Js.has m k = true <-> In k (map fst m).
Proof.
  unfold Js.has. rewrite existsb_exists, in_map_iff. split.
  - intros [kv [Hin E]]. apply String.eqb_eq in E. eauto.
  - intros [kv [E Hin]]. exists kv. split; auto. now apply String.eqb_eq.
Qed.

Lemma set_fresh (m : Js.Map V) (k : string) (v : V) :
  Js.has m k = false -> Js.set m k v = m ++ [(k, v)].
Proof.
  induction m as [|[k' v'] m IH]; simpl; intros E.
  - reflexivity.
  - apply orb_false_elim in E as [E1 E2]. rewrite E1, IH; auto.
Qed.

Lemma firstWins_cons (m0 : Js.Map V) (x : A) (l : list A) :
  firstWins key val m0 (x :: l) =
  firstWins key val (if Js.has m0 (key x) then m0 else m0 ++ [(key x, val x)]) l.
Proof.
  unfold firstWins. simpl.
  destruct (Js.has m0 (key x)) eqn:E; auto. now rewrite set_fresh.
Qed.

Lemma has_app (m m' : Js.Map V) (k : string) :
  Js.has (m ++ m') k = Js.has m k || Js.has m' k.
Proof. unfold Js.has. apply existsb_app. Qed.

Lemma get_none_has (m : Js.Map V) (k : string) :
  Js.get m k = None <-> Js.has m k = false.
Proof.
  unfold Js.get, Js.has. induction m as [|[k' v'] m IH]; simpl.
  - tauto.
  - destruct (String.eqb k' k); simpl; auto. split; discriminate.
Qed.

(** The loop only appends: what was in the map stays in front. *)
Lemma firstWins_prefix (l : list A) (m0 : Js.Map V) :
  exists added, firstWins key val m0 l = m0 ++ added.
Proof.
  revert m0. induction l as [|x l IH]; intros m0.
  - exists []. now rewrite app_nil_r.
  - rewrite firstWins_cons. destruct (Js.has m0 (key x)); [apply IH|].
    destruct (IH (m0 ++ [(key x, val x)])) as (added & ->).
    rewrite <- app_assoc. eauto.
Qed.

(** A key is in the built map exactly when it was there or an element
    carries it. *)
Lemma firstWins_has (l : list A) (m0 : Js.Map V) (k : string) :
  Js.has (firstWins key val m0 l) k = true <->
  Js.has m0 k = true \/ exists x, In x l /\ key x = k.
Proof.
  revert m0. induction l as [|x l IH]; intros m0.
  - simpl. split; auto. intros [E|[x [[] _]]]; auto.
  - rewrite firstWins_cons, IH. destruct (Js.has m0 (key x)) eqn:E.
    + split.
      * intros [Hk|[y [Hy Ek]]]; auto. right. exists y. simpl. auto.
      * intros [Hk|[y [[->|Hy] Ek]]]; auto.
        -- left. now rewrite <- Ek.
        -- right. eauto.
    + rewrite has_app. simpl. rewrite orb_false_r, orb_true_iff, String.eqb_eq. split.
      * intros [[Hk|Ek]|[y [Hy Ek]]]; auto.
        -- right. exists x. simpl. auto.
        -- right. exists y. simpl. auto.
      * intros [Hk|[y [[->|Hy] Ek]]]; auto. right. eauto.
Qed.

(** The keys stay distinct. *)
Lemma firstWins_NoDup (l : list A) (m0 : Js.Map V) :
  NoDup (map fst m0) -> NoDup (map fst (firstWins key val m0 l)).
Proof.
  revert m0. induction l as [|x l IH]; intros m0 Hnd.
  - exact Hnd.
  - rewrite firstWins_cons. apply IH. destruct (Js.has m0 (key x)) eqn:E; auto.
    rewrite map_app. simpl. apply NoDup_app.
    + exact Hnd.
    + repeat constructor. intros [].
    + intros k Hk [<-|[]]. apply has_in_keys in Hk. simpl in Hk. congruence.
Qed.

(** Every entry comes from an element of the list, or was there before. *)
Lemma firstWins_entries (l : list A) (m0 : Js.Map V) (kv : string * V) :
  In kv (firstWins key val m0 l) ->
  In kv m0 \/ exists x, In x l /\ kv = (key x, val x).
Proof.
  revert m0. induction l as [|x l IH]; intros m0 Hin.
  - auto.
  - rewrite firstWins_cons in Hin. apply IH in Hin as [Hin|[y [Hy E]]].
    + destruct (Js.has m0 (key x)); auto.
      apply in_app_or in Hin as [Hin|[<-|[]]]; auto.
      right. exists x. simpl. auto.
    + right. exists y. simpl. auto.
Qed.

Lemma get_in (m : Js.Map V) (k : string) (v : V) :
  Js.get m k = Some v -> In (k, v) m.
Proof.
  unfold Js.get. induction m as [|[k' v'] m IH]; simpl; intros E.
  - discriminate.
  - destruct (String.eqb k' k) eqn:Ek.
    + apply String.eqb_eq in Ek. simpl in E. injection E as <-. subst. auto.
    + auto.
Qed.

End FirstWins.

(** ** The matcher *)

Lemma filter_none {A} (p : A -> bool) (l : list A) :
  (forall x, In x l -> p x = false) -> filter p l = [].
Proof.
  induction l as [|x l IH]; simpl; intros Hall; auto.
  rewrite (Hall x (or_introl eq_refl)). auto.
Qed.

Lemma hasNum_In (s : list Z) (z : Z) : Js.hasNum s z = true <-> In z s.
Proof.
  unfold Js.hasNum. rewrite existsb_exists. split.
  - intros [y [Hy E]]. apply Z.eqb_eq in E. now subst.
  - intros Hz. exists z. split; auto. apply Z.eqb_refl.
Qed.

Lemma hasStr_In (s : list string) (x : string) : Js.hasStr s x = true <-> In x s.
Proof.
  unfold Js.hasStr. rewrite existsb_exists. split.
  - intros [y [Hy E]]. apply String.eqb_eq in E. now subst.
  - intros Hx. exists x. split; auto. apply String.eqb_refl.
Qed.

Lemma uniqueMapOf_firstWins (data : list CreateFlight) :
  uniqueMapOf data = firstWins signature (fun f => f) [] data.
Proof. reflexivity. Qed.

Lemma uniqueMapOf_keyed (data : list CreateFlight) (kv : string * CreateFlight) :
  In kv (uniqueMapOf data) -> In (snd kv) data /\ fst kv = signature (snd kv).
Proof.
  rewrite uniqueMapOf_firstWins. intros Hin.
  apply firstWins_entries in Hin as [[]|[x [Hx ->]]]. auto.
Qed.

Lemma uniqueFlightsOf_incl (data : list CreateFlight) (g : CreateFlight) :
  In g (uniqueFlightsOf data) -> In g data.
Proof.
  unfold uniqueFlightsOf, Js.values. rewrite in_map_iff.
  intros [kv [<- Hin]]. now apply uniqueMapOf_keyed.
Qed.

Lemma uniqueFlightsOf_keys (data : list CreateFlight) :
  map signature (uniqueFlightsOf data) = map fst (uniqueMapOf data).
Proof.
  unfold uniqueFlightsOf, Js.values. rewrite map_map.
  apply map_ext_in. intros kv Hin.
  apply uniqueMapOf_keyed in Hin as [_ E]. auto.
Qed.

Lemma uniqueFlightsOf_NoDup (data : list CreateFlight) :
  NoDup (map signature (uniqueFlightsOf data)).
Proof.
  rewrite uniqueFlightsOf_keys, uniqueMapOf_firstWins.
  apply firstWins_NoDup. constructor.
Qed.

Lemma uniqueFlightsOf_represents (data : list CreateFlight) (f : CreateFlight) :
  In f data ->
  exists g, In g (uniqueFlightsOf data) /\ signature g = signature f.
Proof.
  intros Hf.
  assert (Hk : In (signature f) (map signature (uniqueFlightsOf data))).
  { rewrite uniqueFlightsOf_keys. apply has_in_keys.
    rewrite uniqueMapOf_firstWins. apply firstWins_has. right. eauto. }
  apply in_map_iff in Hk as [g [E Hg]]. eauto.
Qed.

Lemma existingBySigOf_firstWins (efs : list Flight) :
  existingBySigOf efs = firstWins (fun ef => signature (createFlightOf ef)) fl_id [] efs.
Proof. reflexivity. Qed.

(** An id in the signature map is the id of a candidate flight. *)
Lemma existingBySigOf_ids (efs : list Flight) (k : string) (eid : Z) :
  Js.get (existingBySigOf efs) k = Some eid ->
  exists ef, In ef efs /\ fl_id ef = eid /\ signature (createFlightOf ef) = k.
Proof.
  intros E. apply get_in in E. rewrite existingBySigOf_firstWins in E.
  apply firstWins_entries in E as [[]|[ef [Hef E]]].
  injection E as -> ->. eauto.
Qed.

Lemma existingBySigOf_hit (efs : list Flight) (ef : Flight) :
  In ef efs ->
  exists eid, Js.get (existingBySigOf efs) (signature (createFlightOf ef)) = Some eid.
Proof.
  intros Hef.
  destruct (Js.get (existingBySigOf efs) (signature (createFlightOf ef))) eqn:E; eauto.
  apply get_none_has in E.
  assert (Js.has (existingBySigOf efs) (signature (createFlightOf ef)) = true).
  { rewrite existingBySigOf_firstWins. apply firstWins_has. right. eauto. }
  congruence.
Qed.

Lemma existingFlightsOf_listed (db : DB) (userId : string)
      (uniqueFlights : list CreateFlight) (ef : Flight) :
  In ef (existingFlightsOf db userId uniqueFlights) ->
  In ef (listFlightsQuery db userId).
Proof.
  unfold existingFlightsOf.
  destruct (negb _ && negb _ && negb _); [|intros []].
  intros Hin. apply filter_In in Hin as [Hin _]. now apply filter_In in Hin as [Hin _].
Qed.

(** The batched seat lookup finds every flight the list query returned:
    both ask for a seat of the user on a leg of the flight. *)
Lemma listed_flight_has_user_seat (db : DB) (userId : string) (efs : list Flight)
      (ef : Flight) :
  In ef efs -> In ef (listFlightsQuery db userId) ->
  Js.hasNum (userSeatByFlightOf db userId efs) (fl_id ef) = true.
Proof.
  intros Hefs Hlisted.
  unfold listFlightsQuery, listFlightBaseQuery in Hlisted.
  apply in_map_iff in Hlisted as [fr [<- Hfr]].
  apply filter_In in Hfr as [Hfr Hseat].
  unfold userHasSeatOn in Hseat.
  apply existsb_exists in Hseat as [l [Hl Hseat]].
  apply andb_prop in Hseat as [Hfl Hseat].
  apply existsb_exists in Hseat as [s [Hs Hseat]].
  apply andb_prop in Hseat as [Hleg Huser].
  apply Z.eqb_eq in Hfl.
  assert (Hid : In (flight_id fr) (Js.setOfNums (map fl_id efs))).
  { unfold Js.setOfNums. apply nodup_In.
    apply in_map_iff. exists (flightWithLegs db fr). auto. }
  unfold userSeatByFlightOf.
  destruct (Js.setOfNums (map fl_id efs)) as [|i ids] eqn:Eids; [destruct Hid|].
  simpl isEmpty. cbv iota.
  apply hasNum_In. unfold Js.setOfNums at 1. apply nodup_In.
  unfold userSeatsQuery. apply in_flat_map. exists l. split; auto.
  apply in_flat_map. exists s. split; auto.
  apply hasNum_In in Hid.
  rewrite Hleg, Huser, Hfl, Hid. simpl. auto.
Qed.

(** The loop of step 4 when every id of the signature map has a seat of
    the user: the unmatched flights are queued, nothing is attached. *)
Lemma partition_fold (efs : list Flight) (ebs : Js.Map Z) (usbf : list Z)
      (l ins : list CreateFlight) (att : list SeatInsert) :
  (forall k eid, Js.get ebs k = Some eid -> Js.hasNum usbf eid = true) ->
  fold_left (partitionStep efs ebs usbf) l (ins, att) =
  (ins ++ filter (fun f => negb (matched ebs f)) l, att).
Proof.
  intros Hseat. revert ins. induction l as [|f l IH]; intros ins; simpl.
  - now rewrite app_nil_r.
  - unfold matched at 1.
    destruct (Js.get ebs (signature f)) as [eid|] eqn:E; simpl.
    + destruct (eid =? 0) eqn:Ez; simpl.
      * rewrite IH, <- app_assoc. reflexivity.
      * rewrite (Hseat _ _ E). apply IH.
    + rewrite IH, <- app_assoc. reflexivity.
Qed.

(** Step 4 on the code's own candidates: the attach queue stays empty. *)
Lemma partitionFlights_spec (db : DB) (userId : string) (uniqueFlights : list CreateFlight) :
  partitionFlights db userId uniqueFlights =
  (filter (fun f => negb (matched (existingBySigOf
                                     (existingFlightsOf db userId uniqueFlights)) f))
          uniqueFlights,
   []).
Proof.
  unfold partitionFlights. rewrite partition_fold; auto.
  intros k eid E. apply existingBySigOf_ids in E as [ef [Hef [<- _]]].
  apply listed_flight_has_user_seat; auto.
  eapply existingFlightsOf_listed; eauto.
Qed.

Lemma createManyFlights_dedupe (db : DB) (data : list CreateFlight) (userId : string) :
  createManyFlights db data userId true =
  let ins := fst (partitionFlights db userId (uniqueFlightsOf data)) in
  match createManyFlightsPrimitive db ins with
  | Some db' => (Some {| insertedFlights := List.length ins; attachedSeats := 0 |}, db')
  | None => (None, db)
  end.
Proof.
  unfold createManyFlights. simpl negb. cbv iota.
  destruct (uniqueFlightsOf data) as [|u us] eqn:Eu.
  - reflexivity.
  - rewrite partitionFlights_spec.
    generalize (filter (fun f => negb (matched (existingBySigOf
                   (existingFlightsOf db userId (u :: us))) f)) (u :: us)).
    intros [|g ins]; [reflexivity|]. cbv zeta. cbn [fst].
    destruct (createManyFlightsPrimitive db (g :: ins)); reflexivity.
Qed.

(** ** The signature, component by component *)

Lemma signature_specSignature (f : CreateFlight) (firstLeg : CreateLeg)
      (rest : list CreateLeg) :
  cf_legs f = firstLeg :: rest -> signature f = specSignature f firstLeg.
Proof.
  intros E. unfold signature, specSignature. rewrite E.
  destruct firstLeg as [[from to ac al d] seats]. simpl.
  destruct from, to, (flightNumber d), (aircraftReg d), (departure d), (arrival d);
    reflexivity.
Qed.

Lemma signature_no_legs (f : CreateFlight) :
  cf_legs f = [] -> signature f = cf_date f.
Proof. intros E. unfold signature. now rewrite E. Qed.

Lemma signature_has_bar (f : CreateFlight) :
  cf_legs f <> [] -> noBar (signature f) = false.
Proof.
  destruct (cf_legs f) as [|l rest] eqn:E; [congruence|]. intros _.
  rewrite (signature_specSignature _ _ _ E). apply noBar_append_bar.
Qed.

Lemma idComponent_noBar (o : option Airport) : noBar (idComponent o) = true.
Proof. destruct o; simpl; auto using numToString_noBar. Qed.

Lemma idComponent_inj (o o' : option Airport) :
  idComponent o = idComponent o' -> option_map airport_id o = option_map airport_id o'.
Proof.
  destruct o as [a|], o' as [a'|]; simpl; intros E.
  - f_equal. now apply numToString_inj.
  - now apply numToString_nonempty in E.
  - symmetry in E. now apply numToString_nonempty in E.
  - reflexivity.
Qed.

(** Two bar-free dates: equal signatures force the same date and the same
    airports on the first leg. *)
Lemma signature_first_components (f g : CreateFlight) :
  cf_legs f <> [] -> cf_legs g <> [] ->
  noBar (cf_date f) = true -> noBar (cf_date g) = true ->
  signature f = signature g ->
  cf_date f = cf_date g /\ firstFromId f = firstFromId g /\ firstToId f = firstToId g.
Proof.
  intros Hf Hg Df Dg E.
  unfold firstFromId, firstToId.
  destruct (cf_legs f) as [|lf rf] eqn:Ef; [congruence|].
  destruct (cf_legs g) as [|lg rg] eqn:Eg; [congruence|].
  rewrite (signature_specSignature _ _ _ Ef), (signature_specSignature _ _ _ Eg) in E.
  unfold specSignature in E.
  apply append_bar_split in E as [Ed E]; auto.
  apply append_bar_split in E as [Efrom E]; auto using idComponent_noBar.
  apply append_bar_split in E as [Eto _]; auto using idComponent_noBar.
  auto using idComponent_inj.
Qed.

Lemma firstFromId_legs (f : CreateFlight) :
  Js.truthyNum (firstFromId f) = true -> cf_legs f <> [].
Proof. unfold firstFromId. destruct (cf_legs f); [discriminate|congruence]. Qed.

Lemma keepTruthy_In (ids : list (option Z)) (z : Z) :
  In (Some z) ids -> Js.truthyNum (Some z) = true -> In z (keepTruthy ids).
Proof.
  intros Hin Ht. unfold keepTruthy. apply in_flat_map.
  exists (Some z). split; auto. rewrite Ht. simpl. auto.
Qed.

Lemma truthyNum_Some (o : option Z) :
  Js.truthyNum o = true -> exists z, o = Some z /\ z <> 0.
Proof.
  destruct o as [z|]; simpl; [|discriminate]. intros E.
  exists z. split; auto. apply negb_true_iff in E. now apply Z.eqb_neq.
Qed.

(** A flight the user already holds, with both airports named, is in the
    candidate space and its signature maps to a present id. *)
Lemma alreadyImported_matched (db : DB) (userId : string) (data : list CreateFlight)
      (f : CreateFlight) :
  flightIdsNonzero db ->
  (forall g, In g data -> noBar (cf_date g) = true) ->
  In f data -> alreadyImported db userId f ->
  matched (existingBySigOf (existingFlightsOf db userId (uniqueFlightsOf data))) f = true.
Proof.
  intros Hids Hdates Hf (Hfrom & Hto & ef & Hlisted & Hefdate & Esig).
  destruct (uniqueFlightsOf_represents data f Hf) as [g [Hg Eg]].
  pose proof (uniqueFlightsOf_incl _ _ Hg) as Hgdata.
  pose proof (firstFromId_legs _ Hfrom) as Hflegs.
  assert (Hglegs : cf_legs g <> []).
  { intros Hnil. pose proof (signature_has_bar f Hflegs) as Hbar.
    rewrite <- Eg, (signature_no_legs g Hnil), (Hdates g Hgdata) in Hbar. discriminate. }
  assert (Heflegs : cf_legs (createFlightOf ef) <> []).
  { intros Hnil. pose proof (signature_has_bar f Hflegs) as Hbar.
    rewrite <- Esig, (signature_no_legs _ Hnil) in Hbar. simpl in Hbar. congruence. }
  destruct (signature_first_components f g Hflegs Hglegs (Hdates f Hf) (Hdates g Hgdata)
              (eq_sym Eg)) as (Edg & Efg & Etg).
  destruct (signature_first_components (createFlightOf ef) f Heflegs Hflegs Hefdate
              (Hdates f Hf) Esig) as (Ede & Efe & Ete).
  destruct (truthyNum_Some _ Hfrom) as [a [Ea Ha]].
  destruct (truthyNum_Some _ Hto) as [b [Eb Hb]].
  assert (Hd : In (fl_date ef) (datesOf (uniqueFlightsOf data))).
  { unfold datesOf, Js.setOfStrings. apply nodup_In. apply in_map_iff.
    exists g. split; auto. simpl in Ede. congruence. }
  assert (Hfr : In a (fromsOf (uniqueFlightsOf data))).
  { unfold fromsOf, Js.setOfNums. apply nodup_In. apply keepTruthy_In.
    - apply in_map_iff. exists g. split; auto. congruence.
    - rewrite <- Ea. exact Hfrom. }
  assert (Hts : In b (tosOf (uniqueFlightsOf data))).
  { unfold tosOf, Js.setOfNums. apply nodup_In. apply keepTruthy_In.
    - apply in_map_iff. exists g. split; auto. congruence.
    - rewrite <- Eb. exact Hto. }
  assert (Hcand : In ef (existingFlightsOf db userId (uniqueFlightsOf data))).
  { unfold existingFlightsOf.
    destruct (datesOf _) as [|d0 ds] eqn:Eds; [destruct Hd|].
    destruct (fromsOf _) as [|f0 fs] eqn:Efs; [destruct Hfr|].
    destruct (tosOf _) as [|t0 ts] eqn:Ets; [destruct Hts|].
    simpl isEmpty. simpl negb. simpl andb. cbv iota.
    apply filter_In. split.
    - apply filter_In. split; auto. now apply hasStr_In.
    - unfold firstLegMatches.
      rewrite Ea in Efe. rewrite Eb in Ete.
      unfold firstFromId in Efe. unfold firstToId in Ete. simpl in Efe, Ete.
      destruct (fl_legs ef) as [|l ls]; [discriminate|]. simpl in Efe, Ete.
      rewrite Efe, Ete. simpl orMinusOne.
      apply andb_true_intro. split; now apply hasNum_In. }
  destruct (existingBySigOf_hit _ _ Hcand) as [eid Eget].
  unfold matched. rewrite <- Esig, Eget.
  apply existingBySigOf_ids in Eget as [ef0 [Hef0 [<- _]]].
  apply existingFlightsOf_listed in Hef0.
  unfold listFlightsQuery, listFlightBaseQuery in Hef0.
  apply in_map_iff in Hef0 as [fr [<- Hfr0]]. apply filter_In in Hfr0 as [Hfr0 _].
  simpl. apply negb_true_iff. apply Z.eqb_neq. now apply Hids.
Qed.

(** A batch of flights the user already holds changes nothing. *)
Lemma imported_batch_is_discarded (db : DB) (userId : string) (data : list CreateFlight) :
  flightIdsNonzero db ->
  (forall g, In g data -> noBar (cf_date g) = true) ->
  (forall f, In f data -> alreadyImported db userId f) ->
  createManyFlights db data userId true =
  (Some {| insertedFlights := 0; attachedSeats := 0 |}, db).
Proof.
  intros Hids Hdates Hall.
  rewrite createManyFlights_dedupe, partitionFlights_spec. simpl fst.
  assert (E : filter (fun f => negb (matched (existingBySigOf
                (existingFlightsOf db userId (uniqueFlightsOf data))) f))
                (uniqueFlightsOf data) = []).
  { apply filter_none. intros g Hg. apply negb_false_iff.
    apply uniqueFlightsOf_incl in Hg.
    apply alreadyImported_matched; auto. }
  cbv zeta. rewrite E. reflexivity.
Qed.

(** ** The write primitives, table by table *)

Lemma insertSeats_tables (rows : list SeatInsert) (db : DB) :
  db_flight (seatsAdded db rows) = db_flight db /\
  db_leg (seatsAdded db rows) = db_leg db /\
  db_nextFlightId (seatsAdded db rows) = db_nextFlightId db /\
  db_nextLegId (seatsAdded db rows) = db_nextLegId db /\
  map seatrow_cols (db_seat (seatsAdded db rows)) = map seatrow_cols (db_seat db) ++ rows.
Proof.
  revert db. induction rows as [|r rows IH]; intros db; simpl.
  - now rewrite app_nil_r.
  - destruct (IH {| db_airport := db_airport db;
                    db_aircraft := db_aircraft db;
                    db_airline := db_airline db;
                    db_flight := db_flight db;
                    db_leg := db_leg db;
                    db_seat := db_seat db ++ [ {| seatrow_id := db_nextSeatId db; seatrow_cols := r |} ];
                    db_nextFlightId := db_nextFlightId db;
                    db_nextLegId := db_nextLegId db;
                    db_nextSeatId := db_nextSeatId db + 1 |})
      as (E1 & E2 & E3 & E4 & E5).
    simpl in *. repeat split; auto.
    rewrite E5, map_app, <- app_assoc. reflexivity.
Qed.

Lemma insertLegAt_tables (db : DB) (flightId i : Z) (leg : CreateLeg) :
  db_flight (legAdded db flightId i leg) = db_flight db /\
  db_nextFlightId (legAdded db flightId i leg) = db_nextFlightId db /\
  map leg_data (db_leg (legAdded db flightId i leg)) =
    map leg_data (db_leg db) ++ [legDataOf leg].
Proof.
  unfold legAdded. destruct (cl_seats leg) as [|s ss].
  - simpl. rewrite map_app. auto.
  - match goal with |- context [seatsAdded ?d ?r] =>
      destruct (insertSeats_tables r d) as (E1 & E2 & E3 & _) end.
    rewrite E1, E2, E3. simpl. rewrite map_app. auto.
Qed.

Lemma insertLegsFrom_tables (legs : list CreateLeg) (db : DB) (flightId i : Z) :
  db_flight (legsAdded db flightId i legs) = db_flight db /\
  db_nextFlightId (legsAdded db flightId i legs) = db_nextFlightId db /\
  map leg_data (db_leg (legsAdded db flightId i legs)) =
    map leg_data (db_leg db) ++ map legDataOf legs.
Proof.
  revert db i. induction legs as [|leg legs IH]; intros db i; simpl.
  - now rewrite app_nil_r.
  - destruct (IH (legAdded db flightId i leg) (i + 1)) as (E1 & E2 & E3).
    destruct (insertLegAt_tables db flightId i leg) as (F1 & F2 & F3).
    rewrite E1, E2, E3, F1, F2, F3, <- app_assoc. auto.
Qed.

(** The bulk insert appends one numbered flight row per flight of the
    batch, in order, and every leg of every flight. *)
Lemma flightsAdded_tables (data : list CreateFlight) (db : DB) :
  db_flight (flightsAdded db data) =
    db_flight db ++ flightRowsFrom (db_nextFlightId db) data /\
  map leg_data (db_leg (flightsAdded db data)) =
    map leg_data (db_leg db) ++ flat_map (fun f => map legDataOf (cf_legs f)) data.
Proof.
  revert db. induction data as [|f data IH]; intros db; simpl.
  - now rewrite !app_nil_r.
  - match goal with |- context [legsAdded ?d ?fid ?i ?ls] =>
      destruct (insertLegsFrom_tables ls d fid i) as (E1 & E2 & E3);
      destruct (IH (legsAdded d fid i ls)) as (G1 & G2) end.
    rewrite G1, G2, E1, E2, E3. simpl. rewrite <- !app_assoc. auto.
Qed.

Lemma flightRowsFrom_length (data : list CreateFlight) (n : Z) :
  List.length (flightRowsFrom n data) = List.length data.
Proof. revert n. induction data; intros n; simpl; auto. Qed.

(** ** A write that the engine accepts leaves the rows appended *)

Lemma insertSeats_commits (rows : list SeatInsert) (db db' : DB) :
  insertSeats db rows = Some db' -> db' = seatsAdded db rows.
Proof.
  revert db. induction rows as [|r rows IH]; intros db; simpl.
  - now intros [= <-].
  - destruct (seatRowAccepted db r); [apply IH|discriminate].
Qed.

Lemma insertLegAt_commits (db db' : DB) (flightId i : Z) (leg : CreateLeg) :
  insertLegAt db flightId i leg = Some db' -> db' = legAdded db flightId i leg.
Proof.
  unfold insertLegAt, legAdded. cbv zeta.
  destruct (legRowAccepted db _); [|discriminate].
  destruct (cl_seats leg); [now intros [= <-]|apply insertSeats_commits].
Qed.

Lemma insertLegsFrom_commits (legs : list CreateLeg) (db db' : DB) (flightId i : Z) :
  insertLegsFrom db flightId i legs = Some db' -> db' = legsAdded db flightId i legs.
Proof.
  revert db i. induction legs as [|leg legs IH]; intros db i; simpl.
  - now intros [= <-].
  - destruct (insertLegAt db flightId i leg) as [db1|] eqn:E; [|discriminate].
    apply insertLegAt_commits in E as ->. apply IH.
Qed.

Lemma createManyFlightsPrimitive_commits (data : list CreateFlight) (db db' : DB) :
  createManyFlightsPrimitive db data = Some db' -> db' = flightsAdded db data.
Proof.
  revert db. induction data as [|f data IH]; intros db; simpl.
  - now intros [= <-].
  - match goal with |- context [insertLegsFrom ?d ?fid ?i ?ls] =>
      destruct (insertLegsFrom d fid i ls) as [db2|] eqn:E; [|discriminate] end.
    apply insertLegsFrom_commits in E as ->. apply IH.
Qed.

Lemma createFlightPrimitive_commits (db db' : DB) (data : CreateFlight) (id : Z) :
  createFlightPrimitive db data = Some (db', id) ->
  id = db_nextFlightId db /\ db' = flightsAdded db [data].
Proof.
  unfold createFlightPrimitive. cbn [insertFlightRow flightsAdded].
  match goal with |- context [insertLegsFrom ?d ?fid ?i ?ls] =>
    destruct (insertLegsFrom d fid i ls) as [db2|] eqn:E; [|discriminate] end.
  apply insertLegsFrom_commits in E as ->. now intros [= <- <-].
Qed.

Lemma updateFlightPrimitive_commits (db db' : DB) (id : Z) (data : CreateFlight) :
  updateFlightPrimitive db id data = Some db' -> db' = flightReplaced db id data.
Proof. unfold updateFlightPrimitive, flightReplaced. apply insertLegsFrom_commits. Qed.

(** ** Importing a flight, then importing it again *)

Lemma insertSeats_rows (rows : list SeatInsert) (db : DB) :
  db_airport (seatsAdded db rows) = db_airport db /\
  exists extra, db_seat (seatsAdded db rows) = db_seat db ++ extra /\
                map seatrow_cols extra = rows.
Proof.
  revert db. induction rows as [|r rows IH]; intros db; simpl.
  - split; auto. exists []. now rewrite app_nil_r.
  - match goal with |- context [seatsAdded ?d rows] =>
      destruct (IH d) as (Ea & extra & Es & Em) end.
    simpl in Ea, Es. split; auto.
    exists ({| seatrow_id := db_nextSeatId db; seatrow_cols := r |} :: extra).
    rewrite Es, <- app_assoc. simpl. now rewrite Em.
Qed.

Lemma insertLegAt_rows (db : DB) (flightId i : Z) (leg : CreateLeg) :
  db_airport (legAdded db flightId i leg) = db_airport db /\
  db_nextLegId (legAdded db flightId i leg) = db_nextLegId db + 1 /\
  db_leg (legAdded db flightId i leg) =
    db_leg db ++ legRowsFrom (db_nextLegId db) flightId i [leg] /\
  exists extra, db_seat (legAdded db flightId i leg) = db_seat db ++ extra /\
                map seatrow_cols extra = map (seatInsertOf (db_nextLegId db)) (cl_seats leg).
Proof.
  unfold legAdded. destruct (cl_seats leg) as [|s ss] eqn:Es.
  - simpl. repeat split; auto. exists []. now rewrite app_nil_r.
  - match goal with |- context [seatsAdded ?d ?r] =>
      destruct (insertSeats_rows r d) as (Ea & extra & Ex & Em);
      destruct (insertSeats_tables r d) as (_ & El & _ & En & _) end.
    rewrite Ea, El, En. simpl. repeat split; auto.
    exists extra. auto.
Qed.

Lemma insertLegsFrom_rows (legs : list CreateLeg) (db : DB) (flightId i : Z) :
  db_airport (legsAdded db flightId i legs) = db_airport db /\
  db_leg (legsAdded db flightId i legs) =
    db_leg db ++ legRowsFrom (db_nextLegId db) flightId i legs /\
  (forall row, In row (db_seat db) -> In row (db_seat (legsAdded db flightId i legs))) /\
  (forall k leg s, nth_error legs k = Some leg -> In s (cl_seats leg) ->
     exists row, In row (db_seat (legsAdded db flightId i legs)) /\
                 seatrow_cols row = seatInsertOf (db_nextLegId db + Z.of_nat k) s).
Proof.
  revert db i. induction legs as [|leg legs IH]; intros db i; simpl.
  - rewrite app_nil_r. repeat split; auto. intros [|k]; discriminate.
  - destruct (insertLegAt_rows db flightId i leg) as (Ea & En & El & extra & Es & Em).
    destruct (IH (legAdded db flightId i leg) (i + 1)) as (Fa & Fl & Fold & Fnew).
    rewrite Fa, Fl, Ea, El, En, <- app_assoc. simpl. repeat split; auto.
    + intros row Hrow. apply Fold. rewrite Es. apply in_or_app. auto.
    + intros [|k] lg s Hk Hs; simpl in Hk.
      * injection Hk as <-.
        assert (Hin : In (seatInsertOf (db_nextLegId db) s) (map seatrow_cols extra)).
        { rewrite Em. now apply in_map. }
        apply in_map_iff in Hin as [row [Erow Hrow]].
        exists row. split.
        -- apply Fold. rewrite Es. apply in_or_app. auto.
        -- rewrite Erow. f_equal. simpl. lia.
      * destruct (Fnew k lg s Hk Hs) as [row [Hrow Erow]].
        exists row. split; auto. rewrite Erow, En. f_equal. lia.
Qed.

Lemma legRowsFrom_flightId (legs : list CreateLeg) (n flightId i : Z) (l : LegRow) :
  In l (legRowsFrom n flightId i legs) -> leg_flightId l = flightId /\ i <= leg_legOrder l.
Proof.
  revert n i. induction legs as [|leg legs IH]; intros n i; simpl.
  - intros [].
  - intros [<-|Hin]; simpl; [split; auto; lia|].
    apply IH in Hin as [E Hle]. split; auto. lia.
Qed.

Lemma legRowsFrom_nth (legs : list CreateLeg) (n flightId i : Z) (k : nat)
      (leg : CreateLeg) :
  nth_error legs k = Some leg ->
  exists l, In l (legRowsFrom n flightId i legs) /\
            leg_id l = n + Z.of_nat k /\ leg_flightId l = flightId.
Proof.
  revert n i k. induction legs as [|lg legs IH]; intros n i [|k] Hk; simpl in *;
    try discriminate.
  - eexists. split; [left; reflexivity|]. simpl. split; auto. lia.
  - destruct (IH (n + 1) (i + 1) k Hk) as [l [Hl [Eid Efl]]].
    exists l. split; auto. split; auto. lia.
Qed.

Lemma insertLeg_last (l : LegRow) (sorted : list LegRow) :
  (forall x, In x sorted -> leg_legOrder x <= leg_legOrder l) ->
  insertLeg l sorted = sorted ++ [l].
Proof.
  induction sorted as [|x sorted IH]; simpl; intros Hall; auto.
  destruct (Z.ltb_spec (leg_legOrder l) (leg_legOrder x)) as [Hlt|_].
  - specialize (Hall x (or_introl eq_refl)). lia.
  - rewrite IH; auto.
Qed.

Lemma orderByLegOrder_rows (legs : list CreateLeg) (n flightId i : Z)
      (sorted : list LegRow) :
  (forall x, In x sorted -> leg_legOrder x <= i) ->
  fold_left (fun acc l => insertLeg l acc) (legRowsFrom n flightId i legs) sorted =
  sorted ++ legRowsFrom n flightId i legs.
Proof.
  revert n i sorted. induction legs as [|leg legs IH]; intros n i sorted Hall; simpl.
  - now rewrite app_nil_r.
  - rewrite insertLeg_last by (simpl; auto).
    rewrite IH.
    + rewrite <- app_assoc. reflexivity.
    + intros x Hx. apply in_app_or in Hx as [Hx|[<-|[]]]; simpl; [|lia].
      specialize (Hall x Hx). lia.
Qed.

Lemma filter_new_legs (old : list LegRow) (legs : list CreateLeg) (n flightId i : Z) :
  (forall l, In l old -> leg_flightId l < flightId) ->
  filter (fun l => Z.eqb (leg_flightId l) flightId) (old ++ legRowsFrom n flightId i legs) =
  legRowsFrom n flightId i legs.
Proof.
  intros Hold. rewrite filter_app, filter_none.
  - simpl. apply forallb_filter_id. apply forallb_forall.
    intros l Hl. apply legRowsFrom_flightId in Hl as [-> _]. apply Z.eqb_refl.
  - intros l Hl. apply Z.eqb_neq. specialize (Hold l Hl). lia.
Qed.

Lemma lookupBy_id (table : list Airport) (i : Z) (a : Airport) :
  lookupBy airport_id table (Some i) = Some a -> airport_id a = i.
Proof.
  simpl. intros E. apply find_some in E as [_ E]. now apply Z.eqb_eq.
Qed.

Lemma knownAirport_id (db : DB) (o : option Airport) :
  knownAirport db (option_map airport_id o) ->
  option_map airport_id (lookupBy airport_id (db_airport db) (option_map airport_id o)) =
  option_map airport_id o.
Proof.
  intros [a Ea]. destruct o as [b|]; simpl in *; [|discriminate].
  rewrite Ea. simpl. f_equal. now apply (lookupBy_id (db_airport db)).
Qed.

Lemma legRowsFrom_length (legs : list CreateLeg) (n flightId i : Z) :
  List.length (legRowsFrom n flightId i legs) = List.length legs.
Proof. revert n i. induction legs; intros n i; simpl; auto. Qed.

Lemma signature_of_stored (ef : Flight) :
  signature (createFlightOf ef) =
  match fl_legs ef with
  | [] => fl_date ef
  | l :: _ =>
      Js.join "|"
        [ Js.Str (fl_date ef);
          Js.numOrEmpty (option_map airport_id (l_from l));
          Js.numOrEmpty (option_map airport_id (l_to l));
          Js.strOrEmpty (flightNumber (leg_data (l_row l)));
          Js.strOrEmpty (aircraftReg (leg_data (l_row l)));
          Js.strOrEmpty (departure (leg_data (l_row l)));
          Js.strOrEmpty (arrival (leg_data (l_row l)));
          Js.Num (Z.of_nat (List.length (fl_legs ef))) ]
  end.
Proof.
  unfold signature, createFlightOf. cbn [cf_legs cf_date].
  destruct (fl_legs ef) as [|l ls]; [reflexivity|].
  cbn [map List.length createLegOf cl_value lv_from lv_to lv_data].
  rewrite length_map. reflexivity.
Qed.

(** After the bulk insert of one flight on which the user travels, the
    list query returns the stored copy, and its signature is the incoming
    one. *)
Lemma inserted_flight_is_listed (db : DB) (userId : string) (f : CreateFlight) :
  serialFlightIds db ->
  Js.truthyNum (firstFromId f) = true ->
  knownAirport db (firstFromId f) -> knownAirport db (firstToId f) ->
  travelsOn userId f ->
  flightIdsNonzero (flightsAdded db [f]) /\
  exists ef, In ef (listFlightsQuery (flightsAdded db [f]) userId) /\
             fl_date ef = cf_date f /\
             signature (createFlightOf ef) = signature f.
Proof.
  intros (Hnext & Hflights & Hlegs) Hfrom Kfrom Kto (k & leg & s & Hk & Hs & Hu).
  simpl flightsAdded.
  set (newRow := {| flight_id := db_nextFlightId db;
                    flight_date := cf_date f;
                    flight_flightReason := cf_flightReason f;
                    flight_note := cf_note f |}).
  match goal with |- context [legsAdded ?d _ _ _] => set (db0 := d) end.
  set (db1 := legsAdded db0 (db_nextFlightId db) 0 (cf_legs f)).
  destruct (insertLegsFrom_rows (cf_legs f) db0 (db_nextFlightId db) 0)
    as (Ea & El & Fold & Fnew).
  destruct (insertLegsFrom_tables (cf_legs f) db0 (db_nextFlightId db) 0) as (Ef & _ & _).
  fold db1 in Ea, El, Fold, Fnew, Ef. simpl in Ea, El, Ef.
  assert (Hrow : In newRow (db_flight db1)).
  { rewrite Ef. apply in_or_app. right. left. reflexivity. }
  split.
  - intros fr Hfr. rewrite Ef in Hfr. apply in_app_or in Hfr as [Hfr|[<-|[]]].
    + specialize (Hflights fr Hfr). lia.
    + simpl. lia.
  - exists (flightWithLegs db1 newRow). split; [|split; [reflexivity|]].
    + unfold listFlightsQuery, listFlightBaseQuery. apply in_map.
      apply filter_In. split; [exact Hrow|].
      unfold userHasSeatOn. apply existsb_exists.
      destruct (legRowsFrom_nth (cf_legs f) (db_nextLegId db) (db_nextFlightId db) 0 k leg Hk)
        as (l & Hl & Eid & Efl).
      exists l. split; [rewrite El; apply in_or_app; auto|].
      rewrite Efl. simpl flight_id. rewrite Z.eqb_refl. simpl.
      apply existsb_exists.
      destruct (Fnew k leg s Hk Hs) as (row & Hrow' & Ecols).
      exists row. split; [exact Hrow'|].
      rewrite Ecols. simpl. rewrite Eid, Hu. simpl.
      rewrite Z.eqb_refl, String.eqb_refl. reflexivity.
    + assert (Elegs1 : fl_legs (flightWithLegs db1 newRow) =
                       map (legWithRefs db1)
                           (legRowsFrom (db_nextLegId db) (db_nextFlightId db) 0 (cf_legs f))).
      { unfold flightWithLegs. cbn [fl_legs]. rewrite El. cbn [flight_id newRow].
        rewrite filter_new_legs by exact Hlegs.
        unfold orderByLegOrder. rewrite orderByLegOrder_rows by (intros x []).
        reflexivity. }
      rewrite signature_of_stored, Elegs1.
      unfold firstFromId in Hfrom, Kfrom. unfold firstToId in Kto.
      unfold signature.
      destruct (cf_legs f) as [|l0 rest] eqn:Elegs; [discriminate|].
      cbn [legRowsFrom map legWithRefs l_from l_to l_row leg_data leg_fromId leg_toId].
      rewrite Ea, (knownAirport_id db _ Kfrom), (knownAirport_id db _ Kto).
      cbn [List.length]. rewrite length_map, legRowsFrom_length. reflexivity.
Qed.

(** ** The attach phase *)

Lemma uniqueSeatsOf_firstWins (l : list SeatInsert) :
  uniqueSeatsOf l = Js.values (firstWins seatKey (fun s => s) [] l).
Proof. reflexivity. Qed.

Lemma uniqueSeatsOf_keyed (l : list SeatInsert) (kv : string * SeatInsert) :
  In kv (firstWins seatKey (fun s => s) [] l) ->
  In (snd kv) l /\ fst kv = seatKey (snd kv).
Proof.
  intros Hin. apply firstWins_entries in Hin as [[]|[x [Hx ->]]]. auto.
Qed.

Lemma uniqueSeatsOf_NoDup (l : list SeatInsert) :
  NoDup (map seatKey (uniqueSeatsOf l)).
Proof.
  rewrite uniqueSeatsOf_firstWins. unfold Js.values. rewrite map_map.
  rewrite (map_ext_in _ fst).
  - apply firstWins_NoDup. constructor.
  - intros kv Hin. apply uniqueSeatsOf_keyed in Hin as [_ E]. auto.
Qed.

Lemma uniqueSeatsOf_incl (l : list SeatInsert) (s : SeatInsert) :
  In s (uniqueSeatsOf l) -> In s l.
Proof.
  rewrite uniqueSeatsOf_firstWins. unfold Js.values. rewrite in_map_iff.
  intros [kv [<- Hin]]. now apply uniqueSeatsOf_keyed.
Qed.

(** Dropping rows keeps the remaining keys distinct. *)
Lemma distinct_keys_filter {R} (key : R -> string) (keep : R -> bool) (rows : list R) :
  NoDup (map key rows) -> NoDup (map key (filter keep rows)).
Proof.
  induction rows as [|row rows IH]; simpl; intros Hnd; auto.
  inversion Hnd as [|k ks Hfresh Hrest]; subst.
  destruct (keep row); simpl; auto. constructor; auto.
  intros Hin. apply Hfresh. apply in_map_iff in Hin as [other [E Hother]].
  apply filter_In in Hother as [Hother _]. apply in_map_iff. eauto.
Qed.

Lemma NoDup_constant {B} (k : B) (l : list B) :
  NoDup l -> (forall x, In x l -> x = k) -> (List.length l <= 1)%nat.
Proof.
  destruct l as [|x [|y l]]; simpl; intros Hnd Hall; auto.
  exfalso. inversion Hnd as [|? ? Hnotin _]; subst. apply Hnotin.
  rewrite (Hall x), (Hall y); simpl; auto.
Qed.

Lemma seatKey_same (s s' : SeatInsert) :
  seatKey s = seatKey s' <->
  si_legId s = si_legId s' /\ component (si_userId s) = component (si_userId s').
Proof.
  unfold seatKey. fold (component (si_userId s)). fold (component (si_userId s')).
  split.
  - intros E. apply append_bar_split in E as [E1 E2]; auto using numToString_noBar.
    split; auto. now apply numToString_inj.
  - intros [-> ->]. reflexivity.
Qed.

(** C10.  The attach phase keys a seat row by its leg id and its user id,
    a null user id counting as the empty string: the rows it inserts are
    taken from the queue and have pairwise distinct keys, so a leg
    receives at most one row with a null user id, and the count it
    returns, which [createManyFlights] returns as [attachedSeats], is the
    number of rows inserted. *)
Theorem attach_phase_one_row_per_key (db : DB) (seatsToAttach : list SeatInsert) :
  let uniqueSeats := uniqueSeatsOf seatsToAttach in
  (forall s s', seatKey s = seatKey s' <->
                si_legId s = si_legId s' /\
                component (si_userId s) = component (si_userId s')) /\
  NoDup (map seatKey uniqueSeats) /\
  (forall s, In s uniqueSeats -> In s seatsToAttach) /\
  (forall legId, (List.length (guestRowsOn legId uniqueSeats) <= 1)%nat) /\
  (forall db', insertSeats db uniqueSeats = Some db' ->
     attachPhase db seatsToAttach = (db', Some (List.length uniqueSeats)) /\
     map seatrow_cols (db_seat db') = map seatrow_cols (db_seat db) ++ uniqueSeats) /\
  (insertSeats db uniqueSeats = None ->
     snd (attachPhase db seatsToAttach) = None /\
     sameRows db (fst (attachPhase db seatsToAttach))) /\
  (forall data userId r,
     fst (createManyFlights db data userId true) = Some r ->
     attachedSeats r =
     List.length (uniqueSeatsOf (snd (partitionFlights db userId (uniqueFlightsOf data))))).
Proof.
  cbv zeta. split; [exact seatKey_same|].
  split; [apply uniqueSeatsOf_NoDup|].
  split; [apply uniqueSeatsOf_incl|].
  split.
  { intros legId.
    pose proof (distinct_keys_filter seatKey
                  (fun s => Z.eqb (si_legId s) legId &&
                            match si_userId s with None => true | Some _ => false end)
                  _ (uniqueSeatsOf_NoDup seatsToAttach)) as Hnd.
    fold (guestRowsOn legId (uniqueSeatsOf seatsToAttach)) in Hnd.
    rewrite <- (length_map seatKey).
    apply (NoDup_constant (Js.numToString legId ++ "|" ++ "")%string); auto.
    intros k Hk. apply in_map_iff in Hk as [s [<- Hs]].
    apply filter_In in Hs as [_ Hs]. apply andb_prop in Hs as [Hl Hu].
    apply Z.eqb_eq in Hl. unfold seatKey. rewrite Hl.
    destruct (si_userId s); [discriminate|reflexivity]. }
  assert (Ephase : attachPhase db seatsToAttach =
                   match insertSeats db (uniqueSeatsOf seatsToAttach) with
                   | Some db' => (db', Some (List.length (uniqueSeatsOf seatsToAttach)))
                   | None => (db, None)
                   end).
  { unfold attachPhase. destruct seatsToAttach as [|s l]; [reflexivity|].
    destruct (uniqueSeatsOf (s :: l)); reflexivity. }
  split; [|split].
  - intros db' E. rewrite Ephase, E. split; [reflexivity|].
    apply insertSeats_commits in E as ->.
    apply (insertSeats_tables (uniqueSeatsOf seatsToAttach) db).
  - intros E. rewrite Ephase, E. cbn. unfold sameRows. auto 7.
  - intros data userId r. rewrite createManyFlights_dedupe, partitionFlights_spec.
    cbv zeta. cbn [fst snd].
    match goal with |- context [createManyFlightsPrimitive ?d ?l] =>
      destruct (createManyFlightsPrimitive d l) end; cbn [fst]; [|discriminate].
    now intros [= <-].
Qed.

(** ** The leg validator *)

Section ValidatorFacts.

Context {H : Helpers}.

Lemma fieldError_intro (legIndex : nat) (path message : string) :
  message <> "Arrival must be after departure" ->
  fieldError legIndex (pathError legIndex path message).
Proof. intros Hm. exists path, message. auto. Qed.

Ltac field_error := apply fieldError_intro; discriminate.

Lemma parseDateTimeField_error (i : nat) (date time : option string)
      (tzId path : string) (e : ActionResult) :
  parseDateTimeField i date time tzId path = inl e -> fieldError i e.
Proof.
  unfold parseDateTimeField.
  destruct date as [d|], time as [t|]; try discriminate.
  destruct (negb _ || negb _); try discriminate.
  destruct (mergeTimeWithDate d t tzId); try discriminate.
  intros [= <-]. field_error.
Qed.

Lemma departureInstant_error (i : nat) (leg : LegInput) (e : ActionResult) :
  departureInstant i leg = inl e -> fieldError i e.
Proof.
  unfold departureInstant.
  destruct (li_departure leg) as [d|], (li_departureTime leg) as [t|]; try discriminate.
  destruct (_ && _); try discriminate.
  destruct (mergeTimeWithDate d t _); try discriminate.
  intros [= <-]. field_error.
Qed.

Lemma arrivalInstant_error (i : nat) (leg : LegInput) (e : ActionResult) :
  arrivalInstant i leg = inl e -> fieldError i e.
Proof.
  unfold arrivalInstant.
  destruct (defaultedArrival leg) as [a|], (li_arrivalTime leg) as [t|]; try discriminate.
  destruct (_ && _); try discriminate.
  destruct (mergeTimeWithDate a t _); try discriminate.
  intros [= <-]. field_error.
Qed.

Lemma checkArrivalDate_error (i : nat) (leg : LegInput) (e : ActionResult) :
  checkArrivalDate i leg = inl e -> fieldError i e.
Proof.
  unfold checkArrivalDate.
  destruct (li_arrival leg) as [a|]; try discriminate.
  destruct (Js.truthy (Some a)); try discriminate.
  destruct (isBeforeEpoch _); [intros [= <-]; field_error|].
  destruct (negb _); [intros [= <-]; field_error|discriminate].
Qed.

Ltac bind_step E :=
  match type of E with
  | bindE ?m _ = _ =>
      let Em := fresh "Em" in
      destruct m eqn:Em; simpl in E
  end.

Lemma resolveInstants_error (leg : LegInput) (i : nat) (e : ActionResult) :
  resolveInstants leg i = inl e -> fieldError i e.
Proof.
  unfold resolveInstants.
  destruct (negb _ && negb _); [intros [= <-]; field_error|].
  destruct (isBeforeEpoch _); [intros [= <-]; field_error|].
  intros E.
  bind_step E; [injection E as <-; eauto using departureInstant_error|].
  bind_step E; [injection E as <-; eauto using parseDateTimeField_error|].
  bind_step E; [injection E as <-; eauto using parseDateTimeField_error|].
  bind_step E; [injection E as <-; eauto using parseDateTimeField_error|].
  bind_step E; [injection E as <-; eauto using checkArrivalDate_error|].
  bind_step E; [injection E as <-; eauto using arrivalInstant_error|].
  bind_step E; [injection E as <-; eauto using parseDateTimeField_error|].
  bind_step E; [injection E as <-; eauto using parseDateTimeField_error|].
  bind_step E; [injection E as <-; eauto using parseDateTimeField_error|].
  discriminate.
Qed.

(** What a completed resolution says about the two actual instants. *)
Lemma resolveInstants_instants (leg : LegInput) (i : nat) (r : Instants) :
  resolveInstants leg i = inr r ->
  departureInstant i leg = inr (i_departure r) /\
  arrivalInstant i leg = inr (i_arrival r).
Proof.
  unfold resolveInstants.
  destruct (negb _ && negb _); [discriminate|].
  destruct (isBeforeEpoch _); [discriminate|].
  intros E.
  do 9 (bind_step E; [discriminate|]).
  injection E as <-. simpl. auto.
Qed.

Lemma validate_success (leg : LegInput) (i : nat) (v : LegValue) :
  validateAndProcessLeg leg i = inr v ->
  exists r, resolveInstants leg i = inr r /\ arrivalPrecedes r = false /\
            v = legValueOf leg r.
Proof.
  unfold validateAndProcessLeg. intros E.
  bind_step E; [discriminate|].
  destruct (arrivalPrecedes i0) eqn:Ep; [discriminate|].
  injection E as <-. eauto.
Qed.

(** Every error of the validator is scoped to the leg it was given. *)
Lemma validate_error_scoped (leg : LegInput) (i : nat) (e : ActionResult) :
  validateAndProcessLeg leg i = inl e ->
  exists path message, e = pathError i path message.
Proof.
  unfold validateAndProcessLeg. intros E.
  bind_step E.
  - injection E as <-. apply resolveInstants_error in Em as (p & m & -> & _). eauto.
  - destruct (arrivalPrecedes i0); [|discriminate]. injection E as <-. eauto.
Qed.

Lemma isBefore_lt (a d : TZDate) : isBefore a d = true <-> tz_time a < tz_time d.
Proof. unfold isBefore. apply Z.ltb_lt. Qed.

(** C5.  On a leg that validates, with [d] and [a] the departure and
    arrival instants of the validator: when both resolved, the duration is
    the arrival minus the departure in whole seconds (and the arrival is
    not before the departure); otherwise it is the estimate for the
    distance in kilometres when the two airports differ, and null when
    they are the same. *)
Theorem duration_of_validated_leg (leg : LegInput) (i : nat) (v : LegValue) :
  validateAndProcessLeg leg i = inr v ->
  exists d a,
    departureInstant i leg = inr d /\ arrivalInstant i leg = inr a /\
    match d, a with
    | Some dep, Some arr =>
        duration (lv_data v) = Some ((tz_time arr - tz_time dep) / 1000) /\
        tz_time dep <= tz_time arr
    | _, _ =>
        if Z.eqb (airport_id (li_from leg)) (airport_id (li_to leg))
        then duration (lv_data v) = None
        else duration (lv_data v) =
             Some (estimateFlightDuration
                     (PrimFloat.div
                        (distanceBetween
                           {| lon := airport_lon (li_from leg); lat := airport_lat (li_from leg) |}
                           {| lon := airport_lon (li_to leg); lat := airport_lat (li_to leg) |})
                        1000%float))
    end.
Proof.
  intros E. apply validate_success in E as (r & Er & Ep & ->).
  apply resolveInstants_instants in Er as [Ed Ea].
  exists (i_departure r), (i_arrival r). split; [exact Ed|]. split; [exact Ea|].
  unfold arrivalPrecedes in Ep. simpl. unfold durationOf.
  destruct (i_departure r) as [dep|], (i_arrival r) as [arr|];
    try (destruct (Z.eqb _ _); reflexivity).
  assert (Hle : tz_time dep <= tz_time arr).
  { destruct (Z.ltb_spec (tz_time arr) (tz_time dep)) as [Hlt|Hge]; auto.
    apply isBefore_lt in Hlt. congruence. }
  split; auto. unfold differenceInSeconds.
  rewrite Z.quot_div_nonneg; auto; lia.
Qed.

Lemma pathError_message (i : nat) (p p' m m' : string) :
  pathError i p m = pathError i p' m' -> m = m'.
Proof. unfold pathError. congruence. Qed.

Lemma resolved_both (leg : LegInput) (i : nat) (r : Instants) (d a : TZDate) :
  departureInstant i leg = inr (Some d) ->
  arrivalInstant i leg = inr (Some a) ->
  resolveInstants leg i = inr r ->
  arrivalPrecedes r = isBefore a d.
Proof.
  intros Ed Ea Er. apply resolveInstants_instants in Er as [Ed' Ea'].
  unfold arrivalPrecedes.
  assert (i_departure r = Some d) as -> by congruence.
  assert (i_arrival r = Some a) as -> by congruence.
  reflexivity.
Qed.

(** C6, as amended.  On a leg whose departure and arrival instants both
    resolve: the error "Arrival must be after departure" on
    [legs[i].arrival] is returned only if the arrival is strictly before
    the departure; an arrival strictly before the departure always makes
    validation fail, and with that very error whenever the other field
    checks pass; so a leg that validates has its arrival not before its
    departure. *)
Theorem arrival_before_departure_is_rejected (leg : LegInput) (i : nat) (d a : TZDate) :
  departureInstant i leg = inr (Some d) ->
  arrivalInstant i leg = inr (Some a) ->
  let orderError := pathError i "arrival" "Arrival must be after departure" in
  (validateAndProcessLeg leg i = inl orderError -> tz_time a < tz_time d) /\
  (tz_time a < tz_time d -> exists e, validateAndProcessLeg leg i = inl e) /\
  (forall r, resolveInstants leg i = inr r ->
     (validateAndProcessLeg leg i = inl orderError <-> tz_time a < tz_time d)) /\
  (forall v, validateAndProcessLeg leg i = inr v -> tz_time d <= tz_time a).
Proof.
  intros Ed Ea orderError. unfold validateAndProcessLeg.
  destruct (resolveInstants leg i) as [e|r] eqn:Er; simpl.
  - split; [|split; [|split]].
    + intros [= ->]. apply resolveInstants_error in Er as (p & m & E & Hm).
      apply pathError_message in E. congruence.
    + eauto.
    + discriminate.
    + discriminate.
  - rewrite (resolved_both leg i r d a Ed Ea Er).
    destruct (isBefore a d) eqn:Eb.
    + apply isBefore_lt in Eb. repeat split; eauto; discriminate.
    + assert (Hge : tz_time d <= tz_time a).
      { destruct (Z.ltb_spec (tz_time a) (tz_time d)) as [Hlt|Hge]; auto.
        apply isBefore_lt in Hlt. congruence. }
      split; [discriminate|]. split; [lia|]. split; auto.
      intros _ _. split; [discriminate|lia].
Qed.

(** C8, as amended.  When an arrival time is present and the arrival date
    is absent, the arrival date becomes the actual departure date
    ([departure]): with that date present, the arrival instant is the
    merge of the departure date and the arrival time in the destination's
    zone.  With no actual departure date (the leg's date coming from
    [departureScheduled] only) there is no arrival instant. *)
Theorem arrival_date_defaults_to_departure (leg : LegInput) (i : nat) (t : string) :
  li_arrivalTime leg = Some t -> Js.truthy (Some t) = true ->
  Js.truthy (li_arrival leg) = false ->
  defaultedArrival leg = li_departure leg /\
  (forall dep, li_departure leg = Some dep -> Js.truthy (Some dep) = true ->
     arrivalInstant i leg =
       match mergeTimeWithDate dep t (airport_tz (li_to leg)) with
       | Some arr => inr (Some arr)
       | None => inl (pathError i "arrivalTime" "Invalid time format")
       end /\
     forall v, validateAndProcessLeg leg i = inr v ->
       exists arr, mergeTimeWithDate dep t (airport_tz (li_to leg)) = Some arr /\
                   arrival (lv_data v) = Some (toUtcISOString arr)) /\
  (Js.truthy (li_departure leg) = false ->
     arrivalInstant i leg = inr None /\
     forall v, validateAndProcessLeg leg i = inr v -> arrival (lv_data v) = None).
Proof.
  intros Et Htt Harr.
  assert (Edef : defaultedArrival leg = li_departure leg).
  { unfold defaultedArrival. rewrite Et, Htt, Harr. reflexivity. }
  split; [exact Edef|]. split.
  - intros dep Edep Hdep.
    assert (Ea : arrivalInstant i leg =
                 match mergeTimeWithDate dep t (airport_tz (li_to leg)) with
                 | Some arr => inr (Some arr)
                 | None => inl (pathError i "arrivalTime" "Invalid time format")
                 end).
    { unfold arrivalInstant. rewrite Edef, Edep, Et, Hdep, Htt. reflexivity. }
    split; [exact Ea|].
    intros v Ev. apply validate_success in Ev as (r & Er & _ & ->).
    apply resolveInstants_instants in Er as [_ Ea'].
    rewrite Ea in Ea'.
    destruct (mergeTimeWithDate dep t (airport_tz (li_to leg))) as [arr|]; [|discriminate].
    exists arr. split; auto. simpl. injection Ea' as <-. reflexivity.
  - intros Hdep.
    assert (Ea : arrivalInstant i leg = inr None).
    { unfold arrivalInstant. rewrite Edef.
      destruct (li_departure leg) as [dep|]; [|reflexivity].
      rewrite Et, Hdep. reflexivity. }
    split; [exact Ea|].
    intros v Ev. apply validate_success in Ev as (r & Er & _ & ->).
    apply resolveInstants_instants in Er as [_ Ea'].
    rewrite Ea in Ea'. simpl. injection Ea' as <-. reflexivity.
Qed.

(** ** The flight assembler *)

Lemma processLegsFrom_first_error (pre : list LegInput) (bad : LegInput)
      (post : list LegInput) (i : nat) (err : ActionResult) :
  (forall k leg, nth_error pre k = Some leg ->
                 exists v, validateAndProcessLeg leg (i + k) = inr v) ->
  validateAndProcessLeg bad (i + List.length pre) = inl err ->
  processLegsFrom i (pre ++ bad :: post) = inl err.
Proof.
  revert i. induction pre as [|leg pre IH]; intros i Hpre Hbad; simpl in *.
  - rewrite Nat.add_0_r in Hbad. now rewrite Hbad.
  - destruct (Hpre 0%nat leg eq_refl) as [v Ev]. rewrite Nat.add_0_r in Ev.
    rewrite Ev. simpl. rewrite IH; auto.
    + intros k lg Hk. specialize (Hpre (S k) lg Hk).
      now rewrite Nat.add_succ_r in Hpre.
    + now rewrite Nat.add_succ_r in Hbad.
Qed.

Lemma processLegsFrom_success (legs : list LegInput) (i : nat)
      (processedLegs : list CreateLeg) :
  processLegsFrom i legs = inr processedLegs ->
  List.length processedLegs = List.length legs /\
  forall k leg, nth_error legs k = Some leg ->
                exists v, validateAndProcessLeg leg (i + k) = inr v.
Proof.
  revert i processedLegs. induction legs as [|leg legs IH]; intros i ps E; simpl in E.
  - injection E as <-. split; auto. intros [|k] l; discriminate.
  - bind_step E; [discriminate|]. bind_step E; [discriminate|].
    injection E as <-. destruct (IH _ _ Em0) as [Hlen Hall].
    split; [simpl; congruence|].
    intros [|k] lg Hk; simpl in Hk.
    + injection Hk as <-. rewrite Nat.add_0_r. eauto.
    + rewrite Nat.add_succ_r. apply (Hall k lg Hk).
Qed.

Lemma processLegsFrom_all (legs : list LegInput) (i : nat) :
  (forall k leg, nth_error legs k = Some leg ->
                 exists v, validateAndProcessLeg leg (i + k) = inr v) ->
  exists processedLegs, processLegsFrom i legs = inr processedLegs.
Proof.
  revert i. induction legs as [|leg legs IH]; intros i Hall; simpl.
  - eauto.
  - destruct (Hall 0%nat leg eq_refl) as [v Ev]. rewrite Nat.add_0_r in Ev.
    rewrite Ev. simpl.
    destruct (IH (S i)) as [ps Eps].
    + intros k lg Hk. specialize (Hall (S k) lg Hk). now rewrite Nat.add_succ_r in Hall.
    + rewrite Eps. simpl. eauto.
Qed.

(** C3.  When a leg fails validation, all legs before it validating,
    [validateAndSaveFlight] returns that leg's error, which is scoped to
    the leg, and the database is the one it was given.  A call that
    changes the database has validated every leg. *)
Theorem first_leg_error_is_returned_before_any_write (db : DB) (user : User)
        (data : FlightInput) :
  (forall pre bad post err,
     fi_legs data = pre ++ bad :: post ->
     (forall k leg, nth_error pre k = Some leg ->
                    exists v, validateAndProcessLeg leg k = inr v) ->
     validateAndProcessLeg bad (List.length pre) = inl err ->
     validateAndSaveFlight db user data = Some (err, db) /\
     exists path message, err = pathError (List.length pre) path message) /\
  (forall r db',
     validateAndSaveFlight db user data = Some (r, db') -> db' <> db ->
     forall k leg, nth_error (fi_legs data) k = Some leg ->
                   exists v, validateAndProcessLeg leg k = inr v).
Proof.
  split.
  - intros pre bad post err Elegs Hpre Hbad. split.
    + unfold validateAndSaveFlight. rewrite Elegs.
      rewrite (processLegsFrom_first_error pre bad post 0 err); auto.
    + eapply validate_error_scoped; eauto.
  - intros r db' E Hneq. unfold validateAndSaveFlight in E.
    destruct (processLegsFrom 0 (fi_legs data)) as [e|ps] eqn:Eps.
    + injection E as _ <-. congruence.
    + apply processLegsFrom_success in Eps as [_ Hall]. exact Hall.
Qed.

(** C9, as amended.  On an update (a non-zero [id]) by a user who holds no
    seat on any leg of the stored flight, or when no flight has the id:
    if every leg validates the result is the 403 ownership error, and in
    every case no success is reported and the database, with the flight,
    its legs and its seats, is the one the call was given. *)
Theorem update_without_seat_is_refused (db : DB) (user : User) (data : FlightInput)
        (updateId : Z) :
  fi_id data = Some updateId -> updateId <> 0 ->
  holdsSeat user (getFlight db updateId) = false ->
  (fi_legs data <> [] ->
   (forall k leg, nth_error (fi_legs data) k = Some leg ->
                  exists v, validateAndProcessLeg leg k = inr v) ->
   validateAndSaveFlight db user data =
   Some (HttpError 403 "Flight not found or you do not have a seat on this flight", db)) /\
  (forall r db',
     validateAndSaveFlight db user data = Some (r, db') ->
     db' = db /\ forall message id, r <> Success message id).
Proof.
  intros Eid Hnz Hseat.
  assert (Ht : Js.truthyNum (Some updateId) = true).
  { simpl. apply negb_true_iff. now apply Z.eqb_neq. }
  split.
  - intros Hlegs Hall.
    destruct (processLegsFrom_all (fi_legs data) 0 Hall) as [ps Eps].
    unfold validateAndSaveFlight. rewrite Eps.
    destruct (fi_legs data) as [|firstLeg rest]; [congruence|].
    rewrite Eid, Ht, Hseat. reflexivity.
  - intros r db' E. unfold validateAndSaveFlight in E.
    destruct (processLegsFrom 0 (fi_legs data)) as [e|ps] eqn:Eps.
    + injection E as <- <-. split; auto.
      destruct (fi_legs data) as [|leg rest]; simpl in Eps; [discriminate|].
      bind_step Eps.
      * injection Eps as <-. apply validate_error_scoped in Em as (p & m & ->).
        discriminate.
      * bind_step Eps; [|discriminate]. injection Eps as <-.
        clear - Em0. revert Em0. generalize 1%nat. induction rest as [|l rest IH]; intros n E.
        -- discriminate.
        -- simpl in E. bind_step E.
           ++ injection E as <-. apply validate_error_scoped in Em as (p & m & ->).
              discriminate.
           ++ bind_step E; [|discriminate]. injection E as <-. eapply IH; eauto.
    + destruct (fi_legs data) as [|firstLeg rest]; [discriminate|].
      rewrite Eid, Ht, Hseat in E. simpl in E. injection E as <- <-.
      split; auto. discriminate.
Qed.

End ValidatorFacts.

(** ** The signature and the matcher's use of it *)



(** ** The matcher on sample imports *)

(** With dedupe enabled no import attaches a seat: the candidates are the
    user's own flights, and the seat lookup finds the user on each. *)
Lemma dedupe_attaches_nothing (db : DB) (data : list CreateFlight) (userId : string) :
  snd (partitionFlights db userId (uniqueFlightsOf data)) = [] /\
  (forall r, fst (createManyFlights db data userId true) = Some r ->
             attachedSeats r = 0%nat).
Proof.
  split; [now rewrite partitionFlights_spec|].
  intros r. rewrite createManyFlights_dedupe. cbv zeta.
  match goal with |- context [createManyFlightsPrimitive ?d ?l] =>
    destruct (createManyFlightsPrimitive d l) end; cbn [fst]; [|discriminate].
  now intros [= <-].
Qed.



(** C2, at the failing input.  Bob holds the only seat on the stored
    flight; Alice imports a flight with the same signature.  The list
    query returns Alice no candidate, so the flight is inserted a second
    time with her seat on the new leg, and nothing is attached to the
    existing leg. *)
Theorem import_for_another_user_inserts_a_duplicate :
  listFlightsQuery Ex.dbBob "alice" = [] /\
  (exists ef, In ef (listFlightsQuery Ex.dbBob "bob") /\
              signature (createFlightOf ef) = signature Ex.aliceFlight) /\
  fst (createManyFlights Ex.dbBob [Ex.aliceFlight] "alice" true) =
    Some {| insertedFlights := 1; attachedSeats := 0 |} /\
  map flight_id (db_flight (snd (createManyFlights Ex.dbBob [Ex.aliceFlight] "alice" true))) =
    [1; 2] /\
  map (fun s => (si_legId (seatrow_cols s), si_userId (seatrow_cols s)))
      (db_seat (snd (createManyFlights Ex.dbBob [Ex.aliceFlight] "alice" true))) =
    [(1, Some "bob"); (2, Some "alice")].
Proof.
  split; [vm_compute; reflexivity|]. split.
  - eexists. split; [left; reflexivity|]. vm_compute. reflexivity.
  - repeat split; vm_compute; reflexivity.
Qed.

(** Two guests with different names, queued for the same leg, leave one row. *)
Example two_guests_one_row :
  uniqueSeatsOf Ex.guestQueue =
  [ mkSeatInsert 7 None (Some "Ann") None None None;
    mkSeatInsert 7 (Some "alice") None None None None ].
Proof. vm_compute. reflexivity. Qed.

(** A batch that repeats a stored flight twice, dedupe disabled. *)
Example no_dedupe_keeps_duplicates :
  fst (createManyFlights Ex.dbAlice [Ex.aliceFlight; Ex.aliceFlight] "alice" false) =
  Some {| insertedFlights := 2; attachedSeats := 2 |}.
Proof. vm_compute. reflexivity. Qed.

(** ** The validator on sample legs *)

Lemma duration_of_validated_leg_witness :
  exists d a,
    @departureInstant Resolver.helpers 0 Ex.sameDay = inr d /\
    @arrivalInstant Resolver.helpers 0 Ex.sameDay = inr a /\
    match d, a with
    | Some dep, Some arr =>
        duration (lv_data (Ex.validated Ex.sameDay 0)) =
          Some ((tz_time arr - tz_time dep) / 1000) /\
        tz_time dep <= tz_time arr
    | _, _ =>
        if Z.eqb (airport_id (li_from Ex.sameDay)) (airport_id (li_to Ex.sameDay))
        then duration (lv_data (Ex.validated Ex.sameDay 0)) = None
        else duration (lv_data (Ex.validated Ex.sameDay 0)) =
             Some (Resolver.estimateFlightDuration
                     (PrimFloat.div
                        (Resolver.distanceBetween
                           {| lon := airport_lon (li_from Ex.sameDay);
                              lat := airport_lat (li_from Ex.sameDay) |}
                           {| lon := airport_lon (li_to Ex.sameDay);
                              lat := airport_lat (li_to Ex.sameDay) |})
                        1000%float))
    end.
Proof.
  apply (@duration_of_validated_leg Resolver.helpers Ex.sameDay 0 (Ex.validated Ex.sameDay 0)).
  vm_compute. reflexivity.
Defined.

Lemma arrival_before_departure_is_rejected_witness :
  @validateAndProcessLeg Resolver.helpers Ex.backwards 3 =
  inl (pathError 3 "arrival" "Arrival must be after departure").
Proof.
  apply (proj1 (proj2 (proj2 (@arrival_before_departure_is_rejected Resolver.helpers
                  Ex.backwards 3
                  (mkTZDate 1704207600000 "America/New_York")
                  (mkTZDate 1704128400000 "America/Los_Angeles")
                  ltac:(vm_compute; reflexivity) ltac:(vm_compute; reflexivity))))
           (mkInstants (Some (mkTZDate 1704207600000 "America/New_York")) None None None
                       (Some (mkTZDate 1704128400000 "America/Los_Angeles")) None None None)
           ltac:(vm_compute; reflexivity)).
  simpl. lia.
Defined.

(** A leg whose arrival is before its departure and whose landing time
    does not parse, against C6 as the specification has it: both instants
    resolve, and the error is the one of the landing time. *)
Lemma bad_landing_time_comes_before_the_order_error :
  exists d a,
    @departureInstant Resolver.helpers 0 Ex.backwardsWithBadLanding = inr (Some d) /\
    @arrivalInstant Resolver.helpers 0 Ex.backwardsWithBadLanding = inr (Some a) /\
    tz_time a < tz_time d /\
    @validateAndProcessLeg Resolver.helpers Ex.backwardsWithBadLanding 0 =
      inl (PathError "legs[0].landingActualTime" "Invalid time format") /\
    @validateAndProcessLeg Resolver.helpers Ex.backwardsWithBadLanding 0 <>
      inl (pathError 0 "arrival" "Arrival must be after departure").
Proof.
  exists (mkTZDate 1704207600000 "America/New_York"),
         (mkTZDate 1704128400000 "America/Los_Angeles").
  split; [vm_compute; reflexivity|]. split; [vm_compute; reflexivity|].
  split; [simpl; lia|]. split; [vm_compute; reflexivity|].
  vm_compute. discriminate.
Qed.

Lemma arrival_date_defaults_to_departure_witness :
  @arrivalInstant Resolver.helpers 0 Ex.arrivalTimeOnly =
    inr (Some (mkTZDate 1704142800000 "America/Los_Angeles")) /\
  arrival (lv_data (Ex.validated Ex.arrivalTimeOnly 0)) = Some "2024-01-01T21:00:00.000Z".
Proof.
  destruct (@arrival_date_defaults_to_departure Resolver.helpers Ex.arrivalTimeOnly 0 "13:00"
              eq_refl eq_refl eq_refl) as (_ & Hdep & _).
  destruct (Hdep "2024-01-01" eq_refl eq_refl) as (Ea & Hv).
  split.
  - rewrite Ea. vm_compute. reflexivity.
  - destruct (Hv (Ex.validated Ex.arrivalTimeOnly 0) ltac:(vm_compute; reflexivity))
      as (arr & Em & ->).
    vm_compute in Em. injection Em as <-. vm_compute. reflexivity.
Defined.

(** A leg dated by its scheduled departure only, against C8 as the
    specification has it: the scheduled date and the arrival time do
    merge, yet the validator produces no arrival instant and returns a
    null arrival. *)
Lemma scheduled_departure_gives_no_arrival :
  li_arrivalTime Ex.scheduledOnly = Some "13:00" /\
  li_arrival Ex.scheduledOnly = None /\
  li_departure Ex.scheduledOnly = None /\
  li_departureScheduled Ex.scheduledOnly = Some "2024-01-01" /\
  Resolver.mergeTimeWithDate "2024-01-01" "13:00" (airport_tz (li_to Ex.scheduledOnly)) =
    Some (mkTZDate 1704142800000 "America/Los_Angeles") /\
  @arrivalInstant Resolver.helpers 0 Ex.scheduledOnly = inr None /\
  exists v, @validateAndProcessLeg Resolver.helpers Ex.scheduledOnly 0 = inr v /\
            arrival (lv_data v) = None.
Proof.
  repeat split; try (vm_compute; reflexivity).
  eexists. split; vm_compute; reflexivity.
Qed.

Lemma first_leg_error_is_returned_before_any_write_witness :
  @validateAndSaveFlight Resolver.helpers Ex.dbAlice Ex.alice
    (Ex.newFlightOf [Ex.sameDay; Ex.noDeparture]) =
  Some (PathError "legs[1].departure" "Select a departure date", Ex.dbAlice).
Proof.
  apply (proj1 (@first_leg_error_is_returned_before_any_write Resolver.helpers
                  Ex.dbAlice Ex.alice (Ex.newFlightOf [Ex.sameDay; Ex.noDeparture]))
               [Ex.sameDay] Ex.noDeparture [] _ eq_refl).
  - intros [|[|k]] leg Hk; simpl in Hk; try discriminate.
    injection Hk as <-. eexists. vm_compute. reflexivity.
  - vm_compute. reflexivity.
Defined.

Lemma update_without_seat_is_refused_witness :
  @validateAndSaveFlight Resolver.helpers Ex.dbBob Ex.alice (Ex.updateOf [Ex.sameDay]) =
  Some (HttpError 403 "Flight not found or you do not have a seat on this flight", Ex.dbBob).
Proof.
  apply (proj1 (@update_without_seat_is_refused Resolver.helpers Ex.dbBob Ex.alice
                  (Ex.updateOf [Ex.sameDay]) 1 eq_refl ltac:(lia)
                  ltac:(vm_compute; reflexivity))).
  - discriminate.
  - intros [|k] leg Hk; simpl in Hk.
    + injection Hk as <-. eexists. vm_compute. reflexivity.
    + destruct k; discriminate.
Defined.

(** An update by a user without a seat whose only leg has no departure
    date, against C9 as the specification has it: the flight exists, the
    user holds no seat on it, and the result is the leg's error, not the
    ownership error. *)
Lemma update_with_invalid_leg_returns_the_leg_error :
  getFlight Ex.dbBob 1 <> None /\
  holdsSeat Ex.alice (getFlight Ex.dbBob 1) = false /\
  @validateAndSaveFlight Resolver.helpers Ex.dbBob Ex.alice (Ex.updateOf [Ex.noDeparture]) =
  Some (PathError "legs[0].departure" "Select a departure date", Ex.dbBob).
Proof.
  split; [vm_compute; discriminate|]. split; vm_compute; reflexivity.
Qed.

(* ================================================================= *)
(** * Further properties *)

(** ** Deleting flights *)

Lemma filter_all {A} (p : A -> bool) (l : list A) :
  (forall x, In x l -> p x = true) -> filter p l = l.
Proof.
  induction l as [|x l IH]; simpl; intros Hall; auto.
  rewrite (Hall x (or_introl eq_refl)), IH; auto.
Qed.

Lemma hasNum_false (s : list Z) (z : Z) : Js.hasNum s z = false <-> ~ In z s.
Proof.
  rewrite <- hasNum_In. destruct (Js.hasNum s z); split; congruence.
Qed.

(** What a delete leaves in the three tables. *)
Lemma deleteFlightsWhere_tables (db : DB) (doomed : FlightRow -> bool) :
  let db' := fst (deleteFlightsWhere db doomed) in
  (forall fr, In fr (db_flight db') <-> In fr (db_flight db) /\ doomed fr = false) /\
  (forall l, In l (db_leg db') <-> In l (db_leg db) /\ ~ legOfDoomed db doomed l) /\
  (forall s, In s (db_seat db') <-> In s (db_seat db) /\ ~ seatOfDoomed db doomed s).
Proof.
  assert (Hleg : forall l,
             Js.hasNum (map flight_id (filter doomed (db_flight db))) (leg_flightId l) = true <->
             legOfDoomed db doomed l).
  { intros l. rewrite hasNum_In, in_map_iff. unfold legOfDoomed. split.
    - intros (fr & E & Hfr). apply filter_In in Hfr as [Hfr Hd]. eauto.
    - intros (fr & Hfr & Hd & E). exists fr. split; auto. now apply filter_In. }
  simpl. split; [|split].
  - intros fr. rewrite filter_In, negb_true_iff. tauto.
  - intros l. rewrite filter_In, negb_true_iff, <- Hleg.
    destruct (Js.hasNum _ (leg_flightId l)); split; intros [Hin Hx]; split; auto; congruence.
  - intros s. rewrite filter_In, negb_true_iff, hasNum_false, in_map_iff.
    unfold seatOfDoomed. split; intros [Hin Hx]; split; auto.
    + intros (l & Hl & Hd & E). apply Hx. exists l. split; auto.
      apply filter_In. split; auto. now apply Hleg.
    + intros (l & E & Hl). apply filter_In in Hl as [Hl Hd]. apply Hx.
      exists l. split; auto. split; auto. now apply Hleg.
Qed.

Lemma deleteFlightsWhere_none (db : DB) (doomed : FlightRow -> bool) :
  (forall fr, In fr (db_flight db) -> doomed fr = false) ->
  deleteFlightsWhere db doomed = (db, 0%nat).
Proof.
  intros Hnone. unfold deleteFlightsWhere.
  rewrite (filter_none doomed) by exact Hnone. simpl.
  rewrite (filter_none (fun _ : LegRow => false)) by reflexivity. simpl.
  rewrite !filter_all.
  - destruct db; reflexivity.
  - intros s _. reflexivity.
  - intros l _. reflexivity.
  - intros fr Hfr. now rewrite Hnone.
Qed.

Lemma seatsOfFlight_user (db : DB) (user : User) (input : Z) :
  existsb (fun seat => sqlEqStr (si_userId (seatrow_cols seat)) (user_id user))
          (FlightRouter.seatsOfFlight db input) = true <->
  seatOnFlight db user input.
Proof.
  unfold FlightRouter.seatsOfFlight, seatOnFlight. rewrite existsb_exists. split.
  - intros (s & Hs & Hu). apply in_flat_map in Hs as (l & Hl & Hs).
    destruct (Z.eqb_spec (leg_flightId l) input) as [E|]; [|destruct Hs].
    apply filter_In in Hs as [Hs El]. apply Z.eqb_eq in El.
    exists l, s. repeat split; auto.
    destruct (si_userId (seatrow_cols s)) as [u|]; [|discriminate].
    simpl in Hu. apply String.eqb_eq in Hu. now subst.
  - intros (l & s & Hl & E & Hs & El & Hu). exists s. split.
    + apply in_flat_map. exists l. split; auto. rewrite E, Z.eqb_refl.
      apply filter_In. split; auto. now apply Z.eqb_eq.
    + rewrite Hu. simpl. apply String.eqb_refl.
Qed.

(** X1.  [delete] of the flight router.  Without a seat of the user on
    the flight nothing is deleted and the call throws.  With one, and a
    flight row of that id, the call returns and exactly that flight goes:
    its row, its legs and their seats, every other row staying; the flight
    can no longer be fetched.  With a seat but no flight row, the call
    throws "Flight not found" and the database is as it was. *)
Theorem delete_removes_one_flight_or_nothing (db : DB) (user : User) (input : Z) :
  (~ seatOnFlight db user input ->
   FlightRouter.delete db user input =
   (Threw "You do not have a seat on this flight", db)) /\
  (seatOnFlight db user input ->
   (exists fr, In fr (db_flight db) /\ flight_id fr = input) ->
   exists db',
     FlightRouter.delete db user input = (Returned tt, db') /\
     (forall fr, In fr (db_flight db') <-> In fr (db_flight db) /\ flight_id fr <> input) /\
     (forall l, In l (db_leg db') <-> In l (db_leg db) /\ leg_flightId l <> input) /\
     (forall s, In s (db_seat db') <->
                In s (db_seat db) /\
                ~ exists l, In l (db_leg db) /\ leg_flightId l = input /\
                            leg_id l = si_legId (seatrow_cols s)) /\
     getFlight db' input = None) /\
  (seatOnFlight db user input ->
   (forall fr, In fr (db_flight db) -> flight_id fr <> input) ->
   FlightRouter.delete db user input = (Threw "Flight not found", db)).
Proof.
  unfold FlightRouter.delete.
  pose proof (seatsOfFlight_user db user input) as Hseat.
  destruct (existsb _ (FlightRouter.seatsOfFlight db input)) eqn:Ex; simpl negb; cbv iota.
  - assert (Hon : seatOnFlight db user input) by now apply Hseat.
    split; [intros Hno; contradiction|]. split.
    + intros _ (fr0 & Hfr0 & Eid).
      unfold deleteFlight.
      destruct (deleteFlightsWhere_tables db (fun fr => Z.eqb (flight_id fr) input))
        as (Hf & Hl & Hs).
      destruct (deleteFlightsWhere db (fun fr => Z.eqb (flight_id fr) input))
        as [db' n] eqn:Ed.
      assert (En : n = List.length (filter (fun fr => Z.eqb (flight_id fr) input)
                                           (db_flight db))).
      { unfold deleteFlightsWhere in Ed. now injection Ed as _ <-. }
      simpl fst in Hf, Hl, Hs.
      assert (Hdoom : forall l, legOfDoomed db (fun fr => Z.eqb (flight_id fr) input) l <->
                                leg_flightId l = input).
      { intros l. unfold legOfDoomed. split.
        - intros (fr & _ & Hd & E). apply Z.eqb_eq in Hd. congruence.
        - intros E. exists fr0. repeat split; auto.
          + now apply Z.eqb_eq.
          + congruence. }
      destruct n as [|n].
      { symmetry in En. apply length_zero_iff_nil in En.
        assert (Hin : In fr0 (filter (fun fr => Z.eqb (flight_id fr) input) (db_flight db))).
        { apply filter_In. split; auto. now apply Z.eqb_eq. }
        rewrite En in Hin. destruct Hin. }
      exists db'. split; [reflexivity|]. split; [|split; [|split]].
      * intros fr. rewrite Hf, Z.eqb_neq. tauto.
      * intros l. rewrite Hl, Hdoom. tauto.
      * intros s. rewrite Hs. unfold seatOfDoomed.
        split; intros [Hin Hx]; split; auto; intros (l & Hl' & A & B); apply Hx; exists l.
        -- split; auto. split; auto. now apply Hdoom.
        -- apply Hdoom in A. auto.
      * unfold getFlight, getFlightPrimitive.
        destruct (find (fun fr => Z.eqb (flight_id fr) input) (db_flight db')) as [fr|] eqn:Ef;
          [|reflexivity].
        apply find_some in Ef as [Hin E]. apply Hf in Hin as [_ Hne].
        simpl in Hne. congruence.
    + intros _ Hnone. unfold deleteFlight.
      rewrite deleteFlightsWhere_none; [reflexivity|].
      intros fr Hfr. apply Z.eqb_neq. auto.
  - assert (Hoff : ~ seatOnFlight db user input).
    { intros Hon. apply Hseat in Hon. discriminate. }
    split; [reflexivity|]. split; intros Hon; contradiction.
Qed.

Lemma userSeatsQuery_In (db : DB) (user : User) (ids : list Z) (id : Z) :
  In id (userSeatsQuery db (user_id user) ids) <-> seatOnFlight db user id /\ In id ids.
Proof.
  unfold userSeatsQuery, seatOnFlight. rewrite in_flat_map. split.
  - intros (l & Hl & Hin). apply in_flat_map in Hin as (s & Hs & Hin).
    destruct (Z.eqb_spec (si_legId (seatrow_cols s)) (leg_id l)) as [El|]; [|destruct Hin].
    destruct (si_userId (seatrow_cols s)) as [u|] eqn:Eu; [|destruct Hin].
    simpl in Hin. destruct (String.eqb_spec u (user_id user)) as [->|]; [|destruct Hin].
    destruct (Js.hasNum ids (leg_flightId l)) eqn:Eh; [|destruct Hin].
    destruct Hin as [<-|[]]. apply hasNum_In in Eh. split; auto.
    exists l, s. repeat split; auto.
  - intros ((l & s & Hl & E & Hs & El & Hu) & Hid). exists l. split; auto.
    apply in_flat_map. exists s. split; auto.
    rewrite El, Z.eqb_refl, Hu. simpl. rewrite String.eqb_refl, E.
    apply hasNum_In in Hid. rewrite Hid. simpl. auto.
Qed.

Lemma nodup_full_length (l : list Z) :
  List.length (nodup Z.eq_dec l) = List.length l -> NoDup l.
Proof.
  induction l as [|x l IH]; simpl; intros E; [constructor|].
  pose proof (nodup_incl Z.eq_dec l l) as _.
  assert (Hle : (List.length (nodup Z.eq_dec l) <= List.length l)%nat).
  { apply NoDup_incl_length; [apply NoDup_nodup|]. intros y Hy. now apply nodup_In in Hy. }
  destruct (in_dec Z.eq_dec x l) as [Hin|Hnin]; simpl in E; [lia|].
  constructor; auto.
Qed.

(** X2.  [deleteMany] of the flight router, on a non-empty list of ids.
    A list that repeats an id is refused.  A list without repetition is
    accepted exactly when the user has a seat on every flight of it, and
    then the flights of the list go, each with its legs and their seats,
    and no other row.  A refusal leaves the database as it was. *)
Theorem deleteMany_is_all_or_nothing (db : DB) (user : User) (input : list Z) :
  input <> [] ->
  (~ NoDup input ->
   FlightRouter.deleteMany db user input =
   (Threw "You do not have a seat on all flights", db)) /\
  (NoDup input ->
   ((forall id, In id input -> seatOnFlight db user id) <->
    exists db', FlightRouter.deleteMany db user input = (Returned tt, db'))) /\
  (forall message db',
     FlightRouter.deleteMany db user input = (Threw message, db') -> db' = db) /\
  (forall db',
     FlightRouter.deleteMany db user input = (Returned tt, db') ->
     (forall fr, In fr (db_flight db') <->
                 In fr (db_flight db) /\ ~ In (flight_id fr) input) /\
     (forall l, In l (db_leg db') <->
                In l (db_leg db) /\
                ~ legOfDoomed db (fun fr => Js.hasNum input (flight_id fr)) l) /\
     (forall s, In s (db_seat db') <->
                In s (db_seat db) /\
                ~ seatOfDoomed db (fun fr => Js.hasNum input (flight_id fr)) s)).
Proof.
  intros _. unfold FlightRouter.deleteMany.
  set (found := Js.setOfNums (userSeatsQuery db (user_id user) input)).
  assert (Hnd : NoDup found) by apply NoDup_nodup.
  assert (Hfound : forall id, In id found <-> seatOnFlight db user id /\ In id input).
  { intros id. unfold found, Js.setOfNums. rewrite nodup_In. apply userSeatsQuery_In. }
  assert (Hincl : incl found input).
  { intros id Hid. now apply Hfound in Hid. }
  assert (Hle : (List.length found <= List.length (nodup Z.eq_dec input))%nat).
  { apply NoDup_incl_length; auto. intros id Hid. apply nodup_In. auto. }
  assert (Hle' : (List.length (nodup Z.eq_dec input) <= List.length input)%nat).
  { apply NoDup_incl_length; [apply NoDup_nodup|]. intros y Hy. now apply nodup_In in Hy. }
  split; [|split; [|split]].
  - intros Hdup.
    destruct (Nat.eqb_spec (List.length found) (List.length input)) as [E|]; [|reflexivity].
    exfalso. apply Hdup. apply nodup_full_length. lia.
  - intros Hinput. split.
    + intros Hall.
      assert (E : List.length found = List.length input).
      { apply Nat.le_antisymm.
        - now apply NoDup_incl_length.
        - apply NoDup_incl_length; auto. intros id Hid. apply Hfound. auto. }
      rewrite E, Nat.eqb_refl. simpl. eauto.
    + intros [db' E] id Hid.
      destruct (Nat.eqb_spec (List.length found) (List.length input)) as [El|];
        [|discriminate].
      assert (Hback : incl input found).
      { apply NoDup_length_incl; auto. lia. }
      apply Hback in Hid. now apply Hfound in Hid.
  - intros message db'.
    destruct (Nat.eqb (List.length found) (List.length input)); simpl; [discriminate|].
    now intros [= _ <-].
  - intros db'.
    destruct (Nat.eqb (List.length found) (List.length input)); simpl; [|discriminate].
    intros [= <-].
    destruct (deleteFlightsWhere_tables db (fun fr => Js.hasNum input (flight_id fr)))
      as (Hf & Hl & Hs).
    split; [|split]; auto.
    intros fr. rewrite Hf, hasNum_false. tauto.
Qed.

Lemma groupSeats_In (db : DB) (id : Z) (s : SeatRow) :
  In s (FlightRouter.groupSeats db id) <->
  exists fr l, In fr (db_flight db) /\ flight_id fr = id /\
               In l (db_leg db) /\ leg_flightId l = id /\
               In s (db_seat db) /\ si_legId (seatrow_cols s) = leg_id l.
Proof.
  unfold FlightRouter.groupSeats, FlightRouter.flightSeatRows.
  rewrite in_map_iff. split.
  - intros ([i s'] & E & Hin). simpl in E. subst s'.
    apply filter_In in Hin as [Hin Ei]. simpl in Ei. apply Z.eqb_eq in Ei. subst i.
    apply in_flat_map in Hin as (fr & Hfr & Hin).
    apply in_flat_map in Hin as (l & Hl & Hin).
    destruct (Z.eqb_spec (leg_flightId l) (flight_id fr)) as [El|]; [|destruct Hin].
    apply in_map_iff in Hin as (s' & E & Hs). injection E as Ei <-.
    apply filter_In in Hs as [Hs Es]. apply Z.eqb_eq in Es.
    exists fr, l. repeat split; auto. congruence.
  - intros (fr & l & Hfr & Ef & Hl & El & Hs & Es). exists (id, s). split; auto.
    apply filter_In. split; [|simpl; apply Z.eqb_refl].
    apply in_flat_map. exists fr. split; auto.
    apply in_flat_map. exists l. split; auto.
    rewrite El, Ef, Z.eqb_refl. apply in_map_iff. exists s. split; auto.
    apply filter_In. split; auto. now apply Z.eqb_eq.
Qed.

Lemma two_in_length {A} (x y : A) (l : list A) :
  In x l -> In y l -> x <> y -> (2 <= List.length l)%nat.
Proof.
  destruct l as [|a [|b l]]; simpl; intros Hx Hy Hne; [destruct Hx| |lia].
  destruct Hx as [Hx|[]], Hy as [Hy|[]]. congruence.
Qed.

Lemma onlyTraveller_listed (db : DB) (user : User) (id : Z) :
  FlightRouter.onlyTraveller db user id = true ->
  In id (Js.setOfNums (map fst (FlightRouter.flightSeatRows db))).
Proof.
  unfold FlightRouter.onlyTraveller, FlightRouter.groupSeats, Js.setOfNums.
  intros E. apply andb_prop in E as [E _]. apply Z.eqb_eq in E.
  destruct (filter _ (map snd _)) as [|s rest] eqn:Ef; [discriminate|].
  assert (Hs : In s (s :: rest)) by (left; reflexivity).
  rewrite <- Ef in Hs. apply filter_In in Hs as [Hs _].
  apply in_map_iff in Hs as (row & _ & Hrow). apply filter_In in Hrow as [Hrow Ei].
  apply Z.eqb_eq in Ei. apply nodup_In. apply in_map_iff. eauto.
Qed.

(** X3.  [deleteAll] of the flight router.  A flight row goes exactly
    when, over the legs of the flight, the user has one seat and every
    other seat has no user; the legs and seats of the other flights stay.
    So a flight stays when another user has a seat on it, when the user
    has seats on two of its legs, and when the user has no seat on it. *)
Theorem deleteAll_keeps_shared_flights (db : DB) (user : User) :
  let db' := FlightRouter.deleteAll db user in
  (forall fr, In fr (db_flight db') <->
              In fr (db_flight db) /\
              FlightRouter.onlyTraveller db user (flight_id fr) = false) /\
  (forall l, In l (db_leg db) ->
             FlightRouter.onlyTraveller db user (leg_flightId l) = false ->
             In l (db_leg db')) /\
  (forall id s other,
     In s (FlightRouter.groupSeats db id) ->
     si_userId (seatrow_cols s) = Some other -> other <> user_id user ->
     FlightRouter.onlyTraveller db user id = false) /\
  (forall id s1 s2,
     In s1 (FlightRouter.groupSeats db id) -> In s2 (FlightRouter.groupSeats db id) ->
     s1 <> s2 ->
     si_userId (seatrow_cols s1) = Some (user_id user) ->
     si_userId (seatrow_cols s2) = Some (user_id user) ->
     FlightRouter.onlyTraveller db user id = false) /\
  (forall id, ~ seatOnFlight db user id ->
              FlightRouter.onlyTraveller db user id = false).
Proof.
  cbv zeta.
  assert (Hids : forall id,
             In id (filter (FlightRouter.onlyTraveller db user)
                           (Js.setOfNums (map fst (FlightRouter.flightSeatRows db)))) <->
             FlightRouter.onlyTraveller db user id = true).
  { intros id. rewrite filter_In. split; [tauto|].
    intros E. split; auto. exact (onlyTraveller_listed db user id E). }
  split; [|split; [|split; [|split]]].
  - intros fr. unfold FlightRouter.deleteAll.
    destruct (filter _ (Js.setOfNums _)) as [|i ids] eqn:Ef.
    + split; [|tauto]. intros Hfr. split; auto.
      destruct (FlightRouter.onlyTraveller db user (flight_id fr)) eqn:E; auto.
      apply (proj2 (Hids (flight_id fr))) in E. destruct E.
    + destruct (deleteFlightsWhere_tables db (fun fr => Js.hasNum (i :: ids) (flight_id fr)))
        as (Hf & _ & _).
      rewrite Hf, hasNum_false, Hids.
      destruct (FlightRouter.onlyTraveller db user (flight_id fr)); split; intros [A B];
        split; auto; congruence.
  - intros l Hl Hkeep. unfold FlightRouter.deleteAll.
    destruct (filter _ (Js.setOfNums _)) as [|i ids] eqn:Ef; auto.
    destruct (deleteFlightsWhere_tables db (fun fr => Js.hasNum (i :: ids) (flight_id fr)))
      as (_ & Hlegs & _).
    apply Hlegs. split; auto. intros (fr & _ & Hd & E).
    apply hasNum_In in Hd. apply (proj1 (Hids (flight_id fr))) in Hd.
    congruence.
  - intros id s other Hs Hu Hne. unfold FlightRouter.onlyTraveller.
    set (seats := FlightRouter.groupSeats db id) in *.
    set (mine := filter (fun s => sqlEqStr (si_userId (seatrow_cols s)) (user_id user)) seats).
    set (guests := filter (fun s => FlightRouter.isNull (si_userId (seatrow_cols s))) seats).
    set (theirs := filter (fun s => negb (sqlEqStr (si_userId (seatrow_cols s)) (user_id user)) &&
                                   negb (FlightRouter.isNull (si_userId (seatrow_cols s)))) seats).
    destruct (Z.eqb_spec (Z.of_nat (List.length mine)) 1) as [E1|]; [|reflexivity].
    destruct (Z.eqb_spec (Z.of_nat (List.length guests)) (Z.of_nat (List.length seats) - 1))
      as [E2|]; [|reflexivity].
    exfalso.
    assert (Hsplit : (List.length mine + List.length guests + List.length theirs
                      <= List.length seats)%nat).
    { unfold mine, guests, theirs. clear. induction seats as [|x l IH]; simpl; [lia|].
      destruct (si_userId (seatrow_cols x)) as [u|]; simpl.
      - destruct (String.eqb u (user_id user)); simpl; lia.
      - lia. }
    assert (Hin : In s theirs).
    { apply filter_In. split; auto. rewrite Hu. simpl.
      destruct (String.eqb_spec other (user_id user)); [contradiction|reflexivity]. }
    destruct theirs; [destruct Hin|]. simpl in Hsplit. lia.
  - intros id s1 s2 H1 H2 Hne U1 U2. unfold FlightRouter.onlyTraveller.
    set (seats := FlightRouter.groupSeats db id) in *.
    set (mine := filter (fun s => sqlEqStr (si_userId (seatrow_cols s)) (user_id user)) seats).
    assert (Hlen : (2 <= List.length mine)%nat).
    { apply (two_in_length s1 s2); auto; apply filter_In; split; auto.
      - rewrite U1. simpl. apply String.eqb_refl.
      - rewrite U2. simpl. apply String.eqb_refl. }
    destruct (Z.eqb_spec (Z.of_nat (List.length mine)) 1) as [E1|]; [lia|reflexivity].
  - intros id Hno. unfold FlightRouter.onlyTraveller.
    set (seats := FlightRouter.groupSeats db id) in *.
    destruct (filter (fun s => sqlEqStr (si_userId (seatrow_cols s)) (user_id user)) seats)
      as [|s rest] eqn:Ef; [reflexivity|].
    exfalso. apply Hno.
    assert (Hs : In s (s :: rest)) by (left; reflexivity).
    rewrite <- Ef in Hs. apply filter_In in Hs as [Hs Hu].
    apply groupSeats_In in Hs as (fr & l & _ & _ & Hl & El & Hs & Es).
    exists l, s. repeat split; auto.
    destruct (si_userId (seatrow_cols s)) as [u|]; [|discriminate].
    simpl in Hu. apply String.eqb_eq in Hu. now subst.
Qed.

(** ** Writing a flight and reading it back *)

Lemma insertSeats_counters (rows : list SeatInsert) (db : DB) :
  db_aircraft (seatsAdded db rows) = db_aircraft db /\
  db_airline (seatsAdded db rows) = db_airline db.
Proof.
  revert db. induction rows as [|r rows IH]; intros db; simpl; auto.
  match goal with |- context [seatsAdded ?d rows] => destruct (IH d) as (E1 & E2) end.
  auto.
Qed.

(** The tables after the leg loop: the leg rows and the seat rows of the
    new legs are appended, nothing else moves. *)
Lemma insertLegsFrom_exact (legs : list CreateLeg) (db : DB) (flightId i : Z) :
  let db' := legsAdded db flightId i legs in
  db_airport db' = db_airport db /\
  db_aircraft db' = db_aircraft db /\
  db_airline db' = db_airline db /\
  db_flight db' = db_flight db /\
  db_nextFlightId db' = db_nextFlightId db /\
  db_nextLegId db' = db_nextLegId db + Z.of_nat (List.length legs) /\
  db_leg db' = db_leg db ++ legRowsFrom (db_nextLegId db) flightId i legs /\
  exists extra, db_seat db' = db_seat db ++ extra /\
                map seatrow_cols extra = seatColsFrom (db_nextLegId db) legs.
Proof.
  revert db i. induction legs as [|leg legs IH]; intros db i; cbv zeta.
  - simpl. rewrite app_nil_r, Z.add_0_r. repeat split; auto.
    exists []. now rewrite app_nil_r.
  - simpl legsAdded.
    destruct (IH (legAdded db flightId i leg) (i + 1))
      as (A1 & A2 & A3 & A4 & A5 & A6 & A7 & extra & A8 & A9).
    destruct (insertLegAt_rows db flightId i leg) as (B1 & B2 & B3 & e1 & B4 & B5).
    destruct (insertLegAt_tables db flightId i leg) as (C1 & C2 & _).
    assert (D : db_aircraft (legAdded db flightId i leg) = db_aircraft db /\
                db_airline (legAdded db flightId i leg) = db_airline db).
    { unfold legAdded. destruct (cl_seats leg); [simpl; auto|].
      match goal with |- context [seatsAdded ?d ?r] =>
        destruct (insertSeats_counters r d) as (E1 & E2) end.
      rewrite E1, E2. simpl. auto. }
    destruct D as (D1 & D2).
    rewrite A1, A2, A3, A4, A5, A6, A7, B1, B2, B3, C1, C2, D1, D2.
    repeat split; auto.
    + simpl List.length. lia.
    + rewrite <- app_assoc. reflexivity.
    + exists (e1 ++ extra). rewrite A8, B4, <- app_assoc. split; auto.
      rewrite map_app, B5, A9, B2. reflexivity.
Qed.

Lemma legRowsFrom_ids (legs : list CreateLeg) (n flightId i : Z) (l : LegRow) :
  In l (legRowsFrom n flightId i legs) ->
  n <= leg_id l < n + Z.of_nat (List.length legs) /\ leg_flightId l = flightId.
Proof.
  revert n i. induction legs as [|leg legs IH]; intros n i; simpl.
  - intros [].
  - intros [<-|Hin]; simpl; [split; auto; lia|].
    apply IH in Hin as [Hid Hfl]. split; auto. lia.
Qed.

Lemma legRowsFrom_NoDup (legs : list CreateLeg) (n flightId i : Z) :
  NoDup (map leg_id (legRowsFrom n flightId i legs)).
Proof.
  revert n i. induction legs as [|leg legs IH]; intros n i; simpl; constructor; auto.
  intros Hin. apply in_map_iff in Hin as (l & E & Hl).
  apply legRowsFrom_ids in Hl as [Hid _]. lia.
Qed.

Lemma seatColsFrom_legIds (legs : list CreateLeg) (n : Z) (c : SeatInsert) :
  In c (seatColsFrom n legs) -> n <= si_legId c < n + Z.of_nat (List.length legs).
Proof.
  revert n. induction legs as [|leg legs IH]; intros n; simpl.
  - intros [].
  - intros Hin. apply in_app_or in Hin as [Hin|Hin].
    + apply in_map_iff in Hin as (s & <- & _). simpl. lia.
    + apply IH in Hin. lia.
Qed.

Lemma seatOfCols_seatInsertOf (n : Z) (s : Seat) : seatOfCols (seatInsertOf n s) = s.
Proof. destruct s; reflexivity. Qed.

Lemma filter_map_cols (p : SeatInsert -> bool) (rows : list SeatRow) :
  map seatrow_cols (filter (fun s => p (seatrow_cols s)) rows) =
  filter p (map seatrow_cols rows).
Proof.
  induction rows as [|r rows IH]; simpl; auto.
  destruct (p (seatrow_cols r)); simpl; congruence.
Qed.

(** The seats of the new legs, read leg by leg, are the incoming seats. *)
Lemma new_legs_seats (legs : list CreateLeg) (n flightId i : Z) (old : list SeatInsert) :
  (forall c, In c old -> si_legId c < n) ->
  map (fun row => map seatOfCols
                      (filter (fun c => Z.eqb (si_legId c) (leg_id row))
                              (old ++ seatColsFrom n legs)))
      (legRowsFrom n flightId i legs) =
  map cl_seats legs.
Proof.
  revert n i old. induction legs as [|leg legs IH]; intros n i old Hold; simpl; auto.
  f_equal.
  - rewrite !filter_app.
    rewrite (filter_none _ old), (filter_all _ (map (seatInsertOf n) (cl_seats leg))),
            (filter_none _ (seatColsFrom (n + 1) legs)).
    + simpl. rewrite app_nil_r, map_map.
      rewrite (map_ext _ (fun s => s)) by apply seatOfCols_seatInsertOf.
      apply map_id.
    + intros c Hc. apply seatColsFrom_legIds in Hc. apply Z.eqb_neq. lia.
    + intros c Hc. apply in_map_iff in Hc as (s & <- & _). simpl. apply Z.eqb_refl.
    + intros c Hc. apply Hold in Hc. apply Z.eqb_neq. lia.
  - rewrite app_assoc. apply IH.
    intros c Hc. apply in_app_or in Hc as [Hc|Hc].
    + apply Hold in Hc. lia.
    + apply in_map_iff in Hc as (s & <- & _). simpl. lia.
Qed.

Lemma filter_fresh_legs (old : list LegRow) (legs : list CreateLeg) (n flightId i : Z) :
  (forall l, In l old -> leg_flightId l <> flightId) ->
  filter (fun l => Z.eqb (leg_flightId l) flightId) (old ++ legRowsFrom n flightId i legs) =
  legRowsFrom n flightId i legs.
Proof.
  intros Hold. rewrite filter_app, filter_none, filter_all; auto.
  - intros l Hl. apply legRowsFrom_flightId in Hl as [-> _]. apply Z.eqb_refl.
  - intros l Hl. apply Z.eqb_neq. auto.
Qed.

(** The flight [id] as the queries read it once its legs were inserted
    into a database that held no leg of it. *)
Lemma flight_view_after_insert (db : DB) (id : Z) (legs : list CreateLeg) (fr : FlightRow) :
  flight_id fr = id ->
  (forall l, In l (db_leg db) -> leg_flightId l <> id) ->
  (forall s, In s (db_seat db) -> si_legId (seatrow_cols s) < db_nextLegId db) ->
  let fl := flightWithLegs (legsAdded db id 0 legs) fr in
  map l_row (fl_legs fl) = legRowsFrom (db_nextLegId db) id 0 legs /\
  map (fun l => map seatOfRow (l_seats l)) (fl_legs fl) = map cl_seats legs.
Proof.
  intros Eid Hlegs Hseats. cbv zeta.
  destruct (insertLegsFrom_exact legs db id 0)
    as (_ & _ & _ & _ & _ & _ & El & extra & Es & Ec).
  cbv zeta in El, Es.
  unfold flightWithLegs. cbn [fl_legs]. rewrite El, Eid.
  rewrite filter_fresh_legs by exact Hlegs.
  unfold orderByLegOrder. rewrite orderByLegOrder_rows by (intros x []).
  cbn [app]. rewrite !map_map. split.
  - cbn [legWithRefs l_row]. apply map_id.
  - cbn [legWithRefs l_seats]. rewrite Es.
    rewrite <- (new_legs_seats legs (db_nextLegId db) id 0 (map seatrow_cols (db_seat db))).
    + apply map_ext. intros row.
      change seatOfRow with (fun s => seatOfCols (seatrow_cols s)).
      rewrite <- (map_map seatrow_cols seatOfCols).
      rewrite (filter_map_cols (fun c => Z.eqb (si_legId c) (leg_id row))).
      rewrite map_app, Ec. reflexivity.
    + intros c Hc. apply in_map_iff in Hc as (s & <- & Hs). auto.
Qed.

(** [orderBy('leg.legOrder', 'asc')] keeps the rows it is given. *)
Lemma insertLeg_In (x l : LegRow) (sorted : list LegRow) :
  In l (insertLeg x sorted) <-> l = x \/ In l sorted.
Proof.
  induction sorted as [|y sorted IH]; simpl.
  - intuition.
  - destruct (Z.ltb (leg_legOrder x) (leg_legOrder y)); simpl; [intuition|].
    rewrite IH. intuition.
Qed.

Lemma orderByLegOrder_In (l : LegRow) (ls : list LegRow) :
  In l (orderByLegOrder ls) <-> In l ls.
Proof.
  unfold orderByLegOrder.
  assert (G : forall ls acc,
             In l (fold_left (fun acc l => insertLeg l acc) ls acc) <-> In l ls \/ In l acc).
  { clear. induction ls as [|x ls IH]; simpl; intros acc; [intuition|].
    rewrite IH, insertLeg_In. intuition. }
  rewrite G. simpl. intuition.
Qed.

(** A flight other than [id] reads the same before and after. *)
Lemma other_flight_view_after_insert (db : DB) (id : Z) (legs : list CreateLeg)
      (fr : FlightRow) :
  flight_id fr <> id ->
  (forall l, In l (db_leg db) -> leg_id l < db_nextLegId db) ->
  flightWithLegs (legsAdded db id 0 legs) fr = flightWithLegs db fr.
Proof.
  intros Hne Hlegs.
  destruct (insertLegsFrom_exact legs db id 0)
    as (Ea & Eb & Ec & _ & _ & _ & El & extra & Es & Ecols).
  cbv zeta in *.
  unfold flightWithLegs. f_equal. rewrite El, filter_app.
  rewrite (filter_none _ (legRowsFrom _ _ _ _)).
  - rewrite app_nil_r. apply map_ext_in. intros l Hl.
    assert (Hold : In l (db_leg db)).
    { apply (proj1 (orderByLegOrder_In _ _)) in Hl. now apply filter_In in Hl as [Hl _]. }
    unfold legWithRefs. rewrite Ea, Eb, Ec, Es, filter_app.
    rewrite (filter_none _ extra); [now rewrite app_nil_r|].
    intros s Hs. apply Z.eqb_neq.
    assert (Hc : In (seatrow_cols s) (seatColsFrom (db_nextLegId db) legs)).
    { rewrite <- Ecols. now apply in_map. }
    apply seatColsFrom_legIds in Hc. specialize (Hlegs l Hold). lia.
  - intros l Hl. apply legRowsFrom_flightId in Hl as [-> _]. apply Z.eqb_neq. auto.
Qed.

(** ** The schema constraints under the writes *)

Lemma kept_rows_distinct {R K} (ident : R -> K) (keep : R -> bool) (rows : list R) :
  NoDup (map ident rows) -> NoDup (map ident (filter keep rows)).
Proof.
  induction rows as [|r rows IH]; simpl; intros Hnd; auto.
  inversion Hnd as [|? ? Hnotin Hrest]; subst.
  destruct (keep r); simpl; auto. constructor; auto.
  intros Hin. apply Hnotin. apply in_map_iff in Hin as (x & E & Hx).
  apply filter_In in Hx as [Hx _]. rewrite <- E. now apply in_map.
Qed.

Lemma legRowsFrom_id_range (legs : list CreateLeg) (n flightId i x : Z) :
  In x (map leg_id (legRowsFrom n flightId i legs)) <->
  n <= x < n + Z.of_nat (List.length legs).
Proof.
  revert n i. induction legs as [|leg legs IH]; intros n i.
  - simpl. split; [intros []|lia].
  - cbn [legRowsFrom map leg_id In List.length]. rewrite IH. lia.
Qed.

Lemma consistent_seat_leg (db : DB) (s : SeatRow) :
  consistent db -> In s (db_seat db) -> si_legId (seatrow_cols s) < db_nextLegId db.
Proof.
  intros (_ & _ & _ & Hl & _ & Hs & _) Hin. apply Hs in Hin.
  apply in_map_iff in Hin as (l & <- & Hin). auto.
Qed.

Lemma consistent_leg_flight (db : DB) (l : LegRow) :
  consistent db -> In l (db_leg db) -> leg_flightId l < db_nextFlightId db.
Proof.
  intros (_ & _ & Hf & _ & Hl & _ & _) Hin. apply Hl in Hin.
  apply in_map_iff in Hin as (fr & <- & Hin). auto.
Qed.

Lemma consistent_insertFlightRow (db : DB) (data : CreateFlight) :
  consistent db -> consistent (fst (insertFlightRow db data)).
Proof.
  intros (H1 & H2 & H3 & H4 & H5 & H6 & H7). unfold insertFlightRow, consistent. cbn.
  repeat split; auto.
  - rewrite map_app. apply NoDup_app; auto.
    + cbn. constructor; auto. constructor.
    + intros a Ha [<-|[]]. apply in_map_iff in Ha as (fr & E & Hfr).
      apply H3 in Hfr. cbn in E. lia.
  - intros fr Hin. apply in_app_or in Hin as [Hin|[<-|[]]]; cbn.
    + apply H3 in Hin. lia.
    + lia.
  - intros l Hin. rewrite map_app. apply in_or_app. left. auto.
Qed.

Lemma legRowsFrom_orders (legs : list CreateLeg) (n flightId i : Z) :
  NoDup (map (fun l => (leg_flightId l, leg_legOrder l)) (legRowsFrom n flightId i legs)).
Proof.
  revert n i. induction legs as [|leg legs IH]; intros n i; simpl; constructor; auto.
  intros Hin. apply in_map_iff in Hin as (l & E & Hl).
  apply legRowsFrom_flightId in Hl as [_ Hle]. injection E as _ E. lia.
Qed.

Lemma consistent_insertLegsFrom (db : DB) (id i : Z) (legs : list CreateLeg) :
  consistent db -> In id (map flight_id (db_flight db)) ->
  (forall l, In l (db_leg db) -> leg_flightId l <> id) ->
  consistent (legsAdded db id i legs).
Proof.
  intros (H1 & H2 & H3 & H4 & H5 & H6 & H7) Hid Hnone.
  destruct (insertLegsFrom_exact legs db id i)
    as (_ & _ & _ & Ef & Enf & Enl & El & extra & Es & Ec).
  cbv zeta in *. unfold consistent. rewrite Ef, Enf, Enl, El, Es.
  repeat split; auto.
  - rewrite map_app. apply NoDup_app; auto using legRowsFrom_NoDup.
    intros a Ha Hn. apply legRowsFrom_id_range in Hn.
    apply in_map_iff in Ha as (l & E & Hl). apply H4 in Hl. lia.
  - intros l Hin. apply in_app_or in Hin as [Hin|Hin].
    + apply H4 in Hin. lia.
    + apply legRowsFrom_ids in Hin. lia.
  - intros l Hin. apply in_app_or in Hin as [Hin|Hin]; auto.
    apply legRowsFrom_ids in Hin as [_ ->]. exact Hid.
  - intros s Hin. rewrite map_app. apply in_or_app.
    apply in_app_or in Hin as [Hin|Hin]; auto.
    right. apply (legRowsFrom_id_range legs (db_nextLegId db) id i).
    apply seatColsFrom_legIds. rewrite <- Ec. now apply in_map.
  - rewrite map_app. apply NoDup_app; auto using legRowsFrom_orders.
    intros a Ha Hn. apply in_map_iff in Ha as (l & E & Hl).
    apply in_map_iff in Hn as (l' & E' & Hl'). apply legRowsFrom_ids in Hl' as [_ Hfl].
    apply (Hnone l Hl). rewrite <- E' in E. injection E as E _. congruence.
Qed.

Lemma consistent_createFlight (db : DB) (data : CreateFlight) :
  consistent db ->
  consistent (legsAdded (fst (insertFlightRow db data)) (db_nextFlightId db) 0
                             (cf_legs data)).
Proof.
  intros Hc. apply consistent_insertLegsFrom.
  - now apply consistent_insertFlightRow.
  - cbn. rewrite map_app. apply in_or_app. right. cbn. auto.
  - intros l Hl. apply (consistent_leg_flight db l Hc) in Hl. lia.
Qed.

Lemma consistent_createMany (batch : list CreateFlight) (db : DB) :
  consistent db -> consistent (flightsAdded db batch).
Proof.
  revert db. induction batch as [|f batch IH]; intros db Hc; simpl; auto.
  apply IH. now apply (consistent_createFlight db f).
Qed.

Lemma consistent_delete (db : DB) (doomed : FlightRow -> bool) :
  consistent db -> consistent (fst (deleteFlightsWhere db doomed)).
Proof.
  intros (H1 & H2 & H3 & H4 & H5 & H6 & H7). unfold deleteFlightsWhere, consistent. cbn.
  repeat split.
  - now apply kept_rows_distinct.
  - now apply kept_rows_distinct.
  - intros fr Hin. apply filter_In in Hin as [Hin _]. auto.
  - intros l Hin. apply filter_In in Hin as [Hin _]. auto.
  - intros l Hin. apply filter_In in Hin as [Hin Hkeep].
    apply H5 in Hin. apply in_map_iff in Hin as (fr & E & Hfr).
    rewrite <- E. apply in_map. apply filter_In. split; auto.
    destruct (doomed fr) eqn:Ed; auto.
    apply negb_true_iff, hasNum_false in Hkeep. exfalso. apply Hkeep.
    rewrite <- E. apply in_map. apply filter_In. auto.
  - intros s Hin. apply filter_In in Hin as [Hin Hkeep].
    apply H6 in Hin. apply in_map_iff in Hin as (l & E & Hl).
    rewrite <- E. apply in_map. apply filter_In. split; auto.
    destruct (Js.hasNum _ (leg_flightId l)) eqn:Eg; auto.
    apply negb_true_iff, hasNum_false in Hkeep. exfalso. apply Hkeep.
    rewrite <- E. apply in_map. apply filter_In. auto.
  - now apply kept_rows_distinct.
Qed.

(** The database of [updateFlightPrimitive] before its leg loop. *)
Lemma update_split (db : DB) (id : Z) (data : CreateFlight) :
  exists db1,
    updateFlightPrimitive db id data = insertLegsFrom db1 id 0 (cf_legs data) /\
    flightReplaced db id data = legsAdded db1 id 0 (cf_legs data) /\
    db_airport db1 = db_airport db /\
    db_aircraft db1 = db_aircraft db /\
    db_airline db1 = db_airline db /\
    db_flight db1 =
      map (fun fr => if Z.eqb (flight_id fr) id then flightRowOf (flight_id fr) data else fr)
          (db_flight db) /\
    db_leg db1 = filter (fun l => negb (Z.eqb (leg_flightId l) id)) (db_leg db) /\
    db_seat db1 =
      filter (fun s => negb (Js.hasNum
                               (map leg_id
                                    (filter (fun l => Z.eqb (leg_flightId l) id) (db_leg db)))
                               (si_legId (seatrow_cols s))))
             (db_seat db) /\
    db_nextFlightId db1 = db_nextFlightId db /\
    db_nextLegId db1 = db_nextLegId db.
Proof.
  eexists. split; [reflexivity|]. split; [reflexivity|]. cbn. repeat split; reflexivity.
Qed.

Lemma updated_flight_ids (id : Z) (data : CreateFlight) (rows : list FlightRow) :
  map flight_id
      (map (fun fr => if Z.eqb (flight_id fr) id then flightRowOf (flight_id fr) data else fr)
           rows) =
  map flight_id rows.
Proof.
  rewrite map_map. apply map_ext. intros fr.
  destruct (Z.eqb (flight_id fr) id); reflexivity.
Qed.

Lemma consistent_update_cleared (db db1 : DB) (id : Z) (data : CreateFlight) :
  consistent db ->
  db_flight db1 =
    map (fun fr => if Z.eqb (flight_id fr) id then flightRowOf (flight_id fr) data else fr)
        (db_flight db) ->
  db_leg db1 = filter (fun l => negb (Z.eqb (leg_flightId l) id)) (db_leg db) ->
  db_seat db1 =
    filter (fun s => negb (Js.hasNum
                             (map leg_id
                                  (filter (fun l => Z.eqb (leg_flightId l) id) (db_leg db)))
                             (si_legId (seatrow_cols s))))
           (db_seat db) ->
  db_nextFlightId db1 = db_nextFlightId db ->
  db_nextLegId db1 = db_nextLegId db ->
  consistent db1.
Proof.
  intros (H1 & H2 & H3 & H4 & H5 & H6 & H7) Ef El Es Enf Enl.
  unfold consistent. rewrite Ef, El, Es, Enf, Enl, updated_flight_ids.
  repeat split; auto.
  - now apply kept_rows_distinct.
  - intros fr Hin. apply in_map_iff in Hin as (fr0 & <- & Hin).
    apply H3 in Hin. destruct (Z.eqb (flight_id fr0) id); auto.
  - intros l Hin. apply filter_In in Hin as [Hin _]. auto.
  - intros l Hin. apply filter_In in Hin as [Hin _]. auto.
  - intros s Hin. apply filter_In in Hin as [Hin Hkeep].
    apply H6 in Hin. apply in_map_iff in Hin as (l & E & Hl).
    rewrite <- E. apply in_map. apply filter_In. split; auto.
    destruct (Z.eqb (leg_flightId l) id) eqn:Eg; auto.
    apply negb_true_iff, hasNum_false in Hkeep. exfalso. apply Hkeep.
    rewrite <- E. apply in_map. apply filter_In. auto.
  - now apply kept_rows_distinct.
Qed.

(** ** What the engine accepts *)

Lemma existsb_none {A} (p : A -> bool) (l : list A) :
  (forall x, In x l -> p x = false) -> existsb p l = false.
Proof.
  induction l as [|x l IH]; simpl; intros Hall; auto.
  rewrite (Hall x (or_introl eq_refl)), IH; auto.
Qed.

Lemma existsb_id_In {A} (key : A -> Z) (rows : list A) (z : Z) :
  existsb (fun a => Z.eqb (key a) z) rows = true <-> In z (map key rows).
Proof.
  rewrite existsb_exists, in_map_iff. split.
  - intros (a & Ha & E). apply Z.eqb_eq in E. eauto.
  - intros (a & E & Ha). exists a. split; auto. now apply Z.eqb_eq.
Qed.

Lemma sqlSameStr_sym (a b : option string) : sqlSameStr a b = sqlSameStr b a.
Proof. destruct a, b; simpl; auto using String.eqb_sym. Qed.

Lemma seatsCollide_same_leg (legId : Z) (a b : Seat) :
  seatsCollide (seatInsertOf legId a) (seatInsertOf legId b) = seatsShare a b.
Proof. unfold seatsCollide, seatsShare. cbn. now rewrite Z.eqb_refl. Qed.

(** The seat rows of one leg.  A row is refused for a user or a guest
    name that the leg has already. *)
Lemma insertSeats_accepts (seats : list Seat) (legId : Z) (db : DB) :
  In legId (map leg_id (db_leg db)) ->
  insertSeats db (map (seatInsertOf legId) seats) =
  if seatsDistinct seats &&
     forallb (fun s => negb (existsb (fun r => seatsCollide (seatrow_cols r)
                                                            (seatInsertOf legId s))
                                     (db_seat db)))
             seats
  then Some (seatsAdded db (map (seatInsertOf legId) seats))
  else None.
Proof.
  revert db. induction seats as [|s seats IH]; intros db Hleg; [reflexivity|].
  cbn [map insertSeats seatsAdded seatsDistinct forallb].
  unfold seatRowAccepted.
  rewrite (proj2 (existsb_id_In leg_id (db_leg db) (si_legId (seatInsertOf legId s))))
    by exact Hleg.
  cbn [andb].
  destruct (existsb (fun r => seatsCollide (seatrow_cols r) (seatInsertOf legId s))
                    (db_seat db)) eqn:Eold; cbn [negb].
  - now rewrite andb_false_r.
  - rewrite IH by exact Hleg. cbn [db_seat]. rewrite andb_true_l.
    assert (E : forallb
                  (fun s0 => negb (existsb (fun r => seatsCollide (seatrow_cols r)
                                                                  (seatInsertOf legId s0))
                                           (db_seat db ++
                                            [ {| seatrow_id := db_nextSeatId db;
                                                 seatrow_cols := seatInsertOf legId s |} ])))
                  seats =
                negb (existsb (seatsShare s) seats) &&
                forallb (fun s0 => negb (existsb (fun r => seatsCollide (seatrow_cols r)
                                                                        (seatInsertOf legId s0))
                                                 (db_seat db)))
                        seats).
    { clear. induction seats as [|t seats IH]; [reflexivity|].
      cbn [forallb existsb]. rewrite IH, existsb_app. cbn [existsb seatrow_cols].
      rewrite seatsCollide_same_leg, orb_false_r.
      destruct (existsb _ (db_seat db)), (seatsShare s t), (existsb (seatsShare s) seats);
        reflexivity. }
    rewrite E.
    destruct (seatsDistinct seats), (negb (existsb (seatsShare s) seats)),
             (forallb _ seats); reflexivity.
Qed.

Lemma insertSeats_fresh_leg (seats : list Seat) (legId : Z) (db : DB) :
  In legId (map leg_id (db_leg db)) ->
  (forall r, In r (db_seat db) -> si_legId (seatrow_cols r) <> legId) ->
  insertSeats db (map (seatInsertOf legId) seats) =
  if seatsDistinct seats
  then Some (seatsAdded db (map (seatInsertOf legId) seats))
  else None.
Proof.
  intros Hleg Hfresh. rewrite insertSeats_accepts by exact Hleg.
  replace (forallb _ seats) with true; [now rewrite andb_true_r|].
  symmetry. apply forallb_forall. intros s _. apply negb_true_iff.
  apply existsb_none. intros r Hr. unfold seatsCollide.
  apply andb_false_intro1. apply Z.eqb_neq. cbn. now apply Hfresh.
Qed.

(** One leg of the loop: the flight is there, its position [i] is free,
    and the seats in store are on earlier legs. *)
Lemma insertLegAt_accepts (db : DB) (flightId i : Z) (leg : CreateLeg) :
  In flightId (map flight_id (db_flight db)) ->
  (forall l, In l (db_leg db) -> leg_flightId l = flightId -> leg_legOrder l < i) ->
  (forall s, In s (db_seat db) -> si_legId (seatrow_cols s) < db_nextLegId db) ->
  insertLegAt db flightId i leg =
  if legAcceptable db leg then Some (legAdded db flightId i leg) else None.
Proof.
  intros Hflight Horder Hseats. unfold insertLegAt, legAdded, legAcceptable, legRowAccepted.
  cbv zeta. cbn [leg_flightId leg_legOrder leg_fromId leg_toId leg_aircraftId leg_airlineId
                 leg_id].
  rewrite (proj2 (existsb_id_In flight_id (db_flight db) flightId)) by exact Hflight.
  rewrite existsb_none.
  2:{ intros l Hl. destruct (Z.eqb (leg_flightId l) flightId) eqn:E; [|reflexivity].
      apply Z.eqb_eq in E. specialize (Horder l Hl E). cbn. apply Z.eqb_neq. lia. }
  cbn [negb andb].
  destruct (refAccepted airport_id (db_airport db) _); [|reflexivity].
  destruct (refAccepted airport_id (db_airport db) _); [|reflexivity].
  destruct (refAccepted aircraft_id (db_aircraft db) _); [|reflexivity].
  destruct (refAccepted airline_id (db_airline db) _); [|reflexivity].
  cbn [andb].
  destruct (cl_seats leg) as [|s seats] eqn:Es; [reflexivity|].
  rewrite <- Es. apply insertSeats_fresh_leg.
  - cbn [db_leg]. rewrite map_app. apply in_or_app. right. left. reflexivity.
  - cbn [db_seat]. intros r Hr. specialize (Hseats r Hr). lia.
Qed.

Lemma forallb_same {A} (p q : A -> bool) (l : list A) :
  (forall x, p x = q x) -> forallb p l = forallb q l.
Proof. intros E. induction l as [|x l IH]; simpl; [reflexivity|]. now rewrite E, IH. Qed.

Lemma legAcceptable_tables (db db' : DB) (leg : CreateLeg) :
  db_airport db' = db_airport db -> db_aircraft db' = db_aircraft db ->
  db_airline db' = db_airline db ->
  legAcceptable db' leg = legAcceptable db leg.
Proof. intros Ea Eb Ec. unfold legAcceptable. now rewrite Ea, Eb, Ec. Qed.

(** The leg loop. *)
Lemma insertLegsFrom_accepts (legs : list CreateLeg) (db : DB) (flightId i : Z) :
  In flightId (map flight_id (db_flight db)) ->
  (forall l, In l (db_leg db) -> leg_flightId l = flightId -> leg_legOrder l < i) ->
  (forall s, In s (db_seat db) -> si_legId (seatrow_cols s) < db_nextLegId db) ->
  insertLegsFrom db flightId i legs =
  if forallb (legAcceptable db) legs then Some (legsAdded db flightId i legs) else None.
Proof.
  revert db i. induction legs as [|leg legs IH]; intros db i Hflight Horder Hseats;
    [reflexivity|].
  cbn [insertLegsFrom legsAdded forallb].
  rewrite insertLegAt_accepts by assumption.
  destruct (legAcceptable db leg); [|reflexivity]. cbn [andb].
  destruct (insertLegsFrom_exact [leg] db flightId i)
    as (Ea & Eb & Ec & Ef & _ & En & El & extra & Es & Ecols).
  cbv zeta in *. cbn [legsAdded] in *.
  rewrite IH.
  - rewrite (forallb_same (legAcceptable (legAdded db flightId i leg)) (legAcceptable db));
      [reflexivity|].
    intros x. now apply legAcceptable_tables.
  - now rewrite Ef.
  - intros l Hl E. rewrite El in Hl. apply in_app_or in Hl as [Hl|Hl].
    + specialize (Horder l Hl E). lia.
    + cbn in Hl. destruct Hl as [<-|[]]. cbn. lia.
  - intros s Hs. rewrite Es in Hs. rewrite En. apply in_app_or in Hs as [Hs|Hs].
    + specialize (Hseats s Hs). cbn [List.length]. lia.
    + assert (Hc : In (seatrow_cols s) (seatColsFrom (db_nextLegId db) [leg])).
      { rewrite <- Ecols. now apply in_map. }
      apply seatColsFrom_legIds in Hc. cbn [List.length] in *. lia.
Qed.

Lemma flightAcceptable_tables (db db' : DB) (f : CreateFlight) :
  db_airport db' = db_airport db -> db_aircraft db' = db_aircraft db ->
  db_airline db' = db_airline db ->
  flightAcceptable db' f = flightAcceptable db f.
Proof.
  intros Ea Eb Ec. unfold flightAcceptable. apply forallb_same.
  intros x. now apply legAcceptable_tables.
Qed.

(** The legs of a new flight, in a store that keeps its constraints. *)
Lemma new_flight_accepts (db : DB) (data : CreateFlight) :
  consistent db ->
  insertLegsFrom (fst (insertFlightRow db data)) (db_nextFlightId db) 0 (cf_legs data) =
  if flightAcceptable db data
  then Some (flightsAdded db [data])
  else None.
Proof.
  intros Hc. rewrite insertLegsFrom_accepts.
  - reflexivity.
  - cbn. rewrite map_app. apply in_or_app. right. left. reflexivity.
  - cbn [insertFlightRow fst db_leg]. intros l Hl E.
    apply (consistent_leg_flight db l Hc) in Hl. lia.
  - cbn [insertFlightRow fst db_seat db_nextLegId]. intros s Hs.
    now apply (consistent_seat_leg db s Hc).
Qed.

(** [createFlightPrimitive] commits exactly the flights that the engine
    accepts. *)
Lemma createFlightPrimitive_accepts (db : DB) (data : CreateFlight) :
  consistent db ->
  createFlightPrimitive db data =
  if flightAcceptable db data
  then Some (flightsAdded db [data], db_nextFlightId db)
  else None.
Proof.
  intros Hc. unfold createFlightPrimitive.
  change (insertFlightRow db data)
    with (fst (insertFlightRow db data), db_nextFlightId db).
  cbv iota beta. rewrite new_flight_accepts by exact Hc.
  destruct (flightAcceptable db data); reflexivity.
Qed.

Lemma flightsAdded_refs (data : list CreateFlight) (db : DB) :
  db_airport (flightsAdded db data) = db_airport db /\
  db_aircraft (flightsAdded db data) = db_aircraft db /\
  db_airline (flightsAdded db data) = db_airline db.
Proof.
  revert db. induction data as [|f data IH]; intros db; [auto|].
  cbn [flightsAdded insertFlightRow].
  match goal with |- context [legsAdded ?d ?fid ?i ?ls] =>
    destruct (IH (legsAdded d fid i ls)) as (-> & -> & ->);
    destruct (insertLegsFrom_exact ls d fid i) as (-> & -> & -> & _) end.
  auto.
Qed.

(** [createManyFlightsPrimitive] commits exactly the batches of which
    the engine accepts every flight. *)
Lemma createManyFlightsPrimitive_accepts (data : list CreateFlight) (db : DB) :
  consistent db ->
  createManyFlightsPrimitive db data =
  if forallb (flightAcceptable db) data then Some (flightsAdded db data) else None.
Proof.
  revert db. induction data as [|f data IH]; intros db Hc; [reflexivity|].
  cbn [createManyFlightsPrimitive forallb].
  change (insertFlightRow db f) with (fst (insertFlightRow db f), db_nextFlightId db).
  cbv iota beta. rewrite new_flight_accepts by exact Hc.
  destruct (flightAcceptable db f); [|reflexivity]. cbn [andb].
  rewrite IH by (now apply (consistent_createFlight db f)).
  destruct (flightsAdded_refs [f] db) as (Ea & Eb & Ec).
  rewrite (forallb_same (flightAcceptable (flightsAdded db [f])) (flightAcceptable db)).
  - reflexivity.
  - intros x. now apply flightAcceptable_tables.
Qed.

(** [updateFlightPrimitive] on a flight that is there commits exactly
    the data that the engine accepts. *)
Lemma updateFlightPrimitive_accepts (db : DB) (id : Z) (data : CreateFlight) :
  consistent db -> In id (map flight_id (db_flight db)) ->
  updateFlightPrimitive db id data =
  if flightAcceptable db data then Some (flightReplaced db id data) else None.
Proof.
  intros Hc Hid.
  destruct (update_split db id data)
    as (db1 & -> & -> & Ea & Eb & Ec & Ef & El & Es & Enf & Enl).
  rewrite insertLegsFrom_accepts.
  - unfold flightAcceptable.
    rewrite (forallb_same (legAcceptable db1) (legAcceptable db)); [reflexivity|].
    intros x. now apply legAcceptable_tables.
  - now rewrite Ef, updated_flight_ids.
  - intros l Hl E. rewrite El in Hl. apply filter_In in Hl as [_ Hl].
    apply negb_true_iff, Z.eqb_neq in Hl. contradiction.
  - intros s Hs. rewrite Es in Hs. apply filter_In in Hs as [Hs _].
    rewrite Enl. now apply (consistent_seat_leg db s Hc).
Qed.

(** An update of a flight that is not there commits only without legs,
    and then changes no table. *)
Lemma updateFlightPrimitive_absent (db db' : DB) (id : Z) (data : CreateFlight) :
  ~ In id (map flight_id (db_flight db)) ->
  updateFlightPrimitive db id data = Some db' ->
  cf_legs data = [] /\ db' = flightReplaced db id data.
Proof.
  intros Hid E. split; [|now apply updateFlightPrimitive_commits].
  destruct (update_split db id data) as (db1 & E1 & _ & _ & _ & _ & Ef & _).
  rewrite E1 in E. destruct (cf_legs data) as [|leg legs]; [reflexivity|].
  exfalso. cbn [insertLegsFrom] in E. unfold insertLegAt, legRowAccepted in E.
  cbv zeta in E. cbn [leg_flightId] in E.
  replace (existsb (fun fr => Z.eqb (flight_id fr) id) (db_flight db1)) with false in E;
    [discriminate|].
  symmetry. apply existsb_none. intros fr Hfr. apply Z.eqb_neq. intros Eid.
  apply Hid. rewrite <- (updated_flight_ids id data), <- Ef, <- Eid. now apply in_map.
Qed.

Lemma consistent_flightReplaced (db : DB) (id : Z) (data : CreateFlight) :
  consistent db ->
  In id (map flight_id (db_flight db)) \/ cf_legs data = [] ->
  consistent (flightReplaced db id data).
Proof.
  intros Hc Hcase.
  destruct (update_split db id data) as (db1 & _ & -> & _ & _ & _ & Ef & El & Es & Enf & Enl).
  assert (Hc1 : consistent db1) by now apply (consistent_update_cleared db db1 id data).
  destruct Hcase as [Hid|Hnil].
  - apply consistent_insertLegsFrom; auto.
    + now rewrite Ef, updated_flight_ids.
    + intros l Hl. rewrite El in Hl. apply filter_In in Hl as [_ Hl].
      apply negb_true_iff in Hl. now apply Z.eqb_neq.
  - now rewrite Hnil.
Qed.


(** ** Reading back what was written *)

Lemma seatsReadAs_listed (legs : list Leg) (given : list (list Seat)) :
  map (fun l => map seatOfRow (l_seats l)) legs = given -> seatsReadAs legs given.
Proof.
  intros <-. unfold seatsReadAs.
  induction legs as [|l legs IH]; simpl; constructor; auto.
Qed.

Lemma sameButSeatOrder_same (f : CreateFlight) : sameButSeatOrder f f.
Proof.
  unfold sameButSeatOrder. repeat split.
  induction (cf_legs f) as [|l legs IH]; constructor; auto.
Qed.

Lemma same_values_and_seats (xs ys : list CreateLeg) :
  map cl_value xs = map cl_value ys -> map cl_seats xs = map cl_seats ys -> xs = ys.
Proof.
  revert ys. induction xs as [|x xs IH]; intros [|y ys]; simpl; try discriminate; auto.
  intros Ev Es. injection Ev as Ev1 Ev. injection Es as Es1 Es.
  f_equal; auto. destruct x, y; simpl in *; congruence.
Qed.

Lemma stored_values (db db' : DB) (legs : list CreateLeg) (n id i : Z) :
  db_airport db' = db_airport db ->
  db_aircraft db' = db_aircraft db ->
  db_airline db' = db_airline db ->
  (forall leg, In leg legs -> refsStored db leg) ->
  map (fun row => cl_value (createLegOf (legWithRefs db' row))) (legRowsFrom n id i legs) =
  map cl_value legs.
Proof.
  intros Ea Eb Ec. revert n i.
  induction legs as [|leg legs IH]; intros n i Hrefs; simpl; auto.
  f_equal.
  - destruct (Hrefs leg (or_introl eq_refl)) as (R1 & R2 & R3 & R4). cbv zeta in *.
    rewrite Ea, Eb, Ec, R1, R2, R3, R4. now destruct (cl_value leg).
  - apply IH. intros l Hl. apply Hrefs. now right.
Qed.

(** The flight [id], in the shape of a [CreateFlight], is what its leg
    loop was given, when the airports, aircraft and airlines of the legs
    are stored. *)
Lemma flight_shape_after_insert (db : DB) (id : Z) (legs : list CreateLeg) (fr : FlightRow) :
  flight_id fr = id ->
  (forall l, In l (db_leg db) -> leg_flightId l <> id) ->
  (forall s, In s (db_seat db) -> si_legId (seatrow_cols s) < db_nextLegId db) ->
  (forall leg, In leg legs -> refsStored db leg) ->
  map createLegOf (fl_legs (flightWithLegs (legsAdded db id 0 legs) fr)) = legs.
Proof.
  intros Eid Hlegs Hseats Hrefs.
  destruct (flight_view_after_insert db id legs fr Eid Hlegs Hseats) as (Hrows & Hs).
  cbv zeta in Hrows, Hs.
  apply same_values_and_seats.
  - destruct (insertLegsFrom_exact legs db id 0) as (Ea & Eb & Ec & _).
    cbv zeta in Ea, Eb, Ec.
    unfold flightWithLegs in Hrows |- *. cbn [fl_legs] in Hrows |- *.
    rewrite map_map in Hrows. cbn [legWithRefs l_row] in Hrows. rewrite map_id in Hrows.
    rewrite Hrows, !map_map.
    exact (stored_values db (legsAdded db id 0 legs) legs (db_nextLegId db) id 0
                         Ea Eb Ec Hrefs).
  - rewrite map_map. exact Hs.
Qed.

Lemma find_app_miss {A} (p : A -> bool) (rows : list A) (x : A) :
  p x = false -> find p (rows ++ [x]) = find p rows.
Proof.
  intros Hx. induction rows as [|r rows IH]; simpl.
  - now rewrite Hx.
  - destruct (p r); auto.
Qed.

Lemma find_app_last {A} (p : A -> bool) (rows : list A) (x : A) :
  (forall r, In r rows -> p r = false) -> p x = true -> find p (rows ++ [x]) = Some x.
Proof.
  intros Hrows Hx. induction rows as [|r rows IH]; simpl.
  - now rewrite Hx.
  - rewrite (Hrows r) by now left. apply IH. intros r' Hr'. apply Hrows. now right.
Qed.

(** The flight row is in: no leg is of the new flight yet, and every
    seat is of a leg numbered before. *)
Lemma fresh_after_row (db : DB) (data : CreateFlight) :
  consistent db ->
  (forall l, In l (db_leg (fst (insertFlightRow db data))) ->
             leg_flightId l <> db_nextFlightId db) /\
  (forall s, In s (db_seat (fst (insertFlightRow db data))) ->
             si_legId (seatrow_cols s) < db_nextLegId (fst (insertFlightRow db data))).
Proof.
  intros Hc. pose proof (consistent_insertFlightRow db data Hc) as Hc0. split.
  - intros l Hl. apply (consistent_leg_flight db l Hc) in Hl. lia.
  - intros s Hs. now apply consistent_seat_leg.
Qed.

(** The database and the flight after a flight went in. *)
Lemma createFlightPrimitive_read_back (db : DB) (data : CreateFlight) :
  consistent db ->
  exists db' fl,
    db' = flightsAdded db [data] /\
    getFlightPrimitive db' (db_nextFlightId db) = Some fl /\
    fl_row fl = flightRowOf (db_nextFlightId db) data /\
    map l_row (fl_legs fl) =
      legRowsFrom (db_nextLegId db) (db_nextFlightId db) 0 (cf_legs data) /\
    map (fun l => map seatOfRow (l_seats l)) (fl_legs fl) = map cl_seats (cf_legs data) /\
    (db' = legsAdded (fst (insertFlightRow db data)) (db_nextFlightId db) 0
                          (cf_legs data) /\
     fl = flightWithLegs db' (flightRowOf (db_nextFlightId db) data)) /\
    (forall id, id <> db_nextFlightId db ->
                getFlightPrimitive db' id = getFlightPrimitive db id).
Proof.
  intros Hc.
  pose proof (consistent_insertFlightRow db data Hc) as Hc0.
  destruct (fresh_after_row db data Hc) as (Hfresh & Hseats).
  destruct Hc as (H1 & H2 & H3 & H4 & H5 & H6 & H7).
  set (id := db_nextFlightId db) in *.
  set (db0 := fst (insertFlightRow db data)) in *.
  set (db' := legsAdded db0 id 0 (cf_legs data)).
  assert (Ef : db_flight db' = db_flight db ++ [flightRowOf id data]).
  { destruct (insertLegsFrom_exact (cf_legs data) db0 id 0) as (_ & _ & _ & Ef & _).
    exact Ef. }
  assert (Eget : getFlightPrimitive db' id = Some (flightWithLegs db' (flightRowOf id data))).
  { unfold getFlightPrimitive. rewrite Ef, find_app_last; auto.
    - intros r Hr. apply H3 in Hr. apply Z.eqb_neq. unfold id. lia.
    - apply Z.eqb_refl. }
  destruct (flight_view_after_insert db0 id (cf_legs data) (flightRowOf id data)
                                     eq_refl Hfresh Hseats) as (Hrows & Hs).
  exists db', (flightWithLegs db' (flightRowOf id data)).
  split; [reflexivity|]. split; [exact Eget|]. split; [reflexivity|].
  split; [exact Hrows|]. split; [exact Hs|]. split.
  - split; reflexivity.
  - intros id' Hne. unfold getFlightPrimitive. rewrite Ef, find_app_miss.
    + destruct (find _ (db_flight db)) as [fr|] eqn:Efind; simpl; auto.
      f_equal. apply find_some in Efind as [_ Eid]. apply Z.eqb_eq in Eid.
      unfold db'. rewrite other_flight_view_after_insert.
      * reflexivity.
      * congruence.
      * exact (proj1 (proj2 (proj2 (proj2 Hc0)))).
    + apply Z.eqb_neq. cbn. auto.
Qed.

Lemma filter_narrow {A} (p q : A -> bool) (rows : list A) :
  (forall x, In x rows -> p x = true -> q x = true) ->
  filter p (filter q rows) = filter p rows.
Proof.
  induction rows as [|r rows IH]; simpl; intros Hpq; auto.
  destruct (p r) eqn:Ep.
  - rewrite (Hpq r) by auto. simpl. rewrite Ep. f_equal. auto.
  - destruct (q r); simpl; [rewrite Ep|]; auto.
Qed.

Lemma same_leg_id (legs : list LegRow) (a b : LegRow) :
  NoDup (map leg_id legs) -> In a legs -> In b legs -> leg_id a = leg_id b -> a = b.
Proof.
  induction legs as [|l legs IH]; simpl; intros Hnd Ha Hb E; [destruct Ha|].
  inversion Hnd as [|? ? Hnotin Hrest]; subst.
  destruct Ha as [->|Ha], Hb as [->|Hb]; auto.
  - exfalso. apply Hnotin. rewrite E. now apply in_map.
  - exfalso. apply Hnotin. rewrite <- E. now apply in_map.
Qed.

Lemma find_updated (id id' : Z) (data : CreateFlight) (rows : list FlightRow) :
  find (fun fr => Z.eqb (flight_id fr) id')
       (map (fun fr => if Z.eqb (flight_id fr) id then flightRowOf (flight_id fr) data else fr)
            rows) =
  option_map (fun fr => if Z.eqb (flight_id fr) id then flightRowOf (flight_id fr) data else fr)
             (find (fun fr => Z.eqb (flight_id fr) id') rows).
Proof.
  induction rows as [|r rows IH]; simpl; auto.
  assert (E : flight_id (if Z.eqb (flight_id r) id
                         then flightRowOf (flight_id r) data else r) = flight_id r)
    by (destruct (Z.eqb (flight_id r) id); reflexivity).
  rewrite E. destruct (Z.eqb (flight_id r) id'); auto.
Qed.

Lemma updateFlightPrimitive_read_back (db : DB) (id : Z) (data : CreateFlight) :
  consistent db ->
  In id (map flight_id (db_flight db)) ->
  exists db' fl,
    db' = flightReplaced db id data /\
    getFlightPrimitive db' id = Some fl /\
    fl_row fl = flightRowOf id data /\
    map l_row (fl_legs fl) = legRowsFrom (db_nextLegId db) id 0 (cf_legs data) /\
    map (fun l => map seatOfRow (l_seats l)) (fl_legs fl) = map cl_seats (cf_legs data) /\
    (exists db1,
       db' = legsAdded db1 id 0 (cf_legs data) /\
       fl = flightWithLegs db' (flightRowOf id data) /\
       (forall leg, refsStored db leg -> refsStored db1 leg) /\
       (forall l, In l (db_leg db1) -> leg_flightId l <> id) /\
       (forall s, In s (db_seat db1) -> si_legId (seatrow_cols s) < db_nextLegId db1)) /\
    map flight_id (db_flight db') = map flight_id (db_flight db) /\
    (forall id', id' <> id -> getFlightPrimitive db' id' = getFlightPrimitive db id').
Proof.
  intros Hc Hid.
  destruct (update_split db id data)
    as (db1 & _ & -> & Ea & Eb & Ecc & Ef & El & Es & Enf & Enl).
  pose proof (consistent_update_cleared db db1 id data Hc Ef El Es Enf Enl) as Hc1.
  destruct Hc as (H1 & H2 & H3 & H4 & H5 & H6 & H7).
  set (db' := legsAdded db1 id 0 (cf_legs data)).
  assert (Ef' : db_flight db' = db_flight db1).
  { destruct (insertLegsFrom_exact (cf_legs data) db1 id 0) as (_ & _ & _ & Ef' & _).
    exact Ef'. }
  assert (Hfresh : forall l, In l (db_leg db1) -> leg_flightId l <> id).
  { intros l Hl. rewrite El in Hl. apply filter_In in Hl as [_ Hl].
    apply negb_true_iff in Hl. now apply Z.eqb_neq. }
  assert (Hseats : forall s, In s (db_seat db1) ->
                             si_legId (seatrow_cols s) < db_nextLegId db1).
  { intros s Hs. now apply consistent_seat_leg. }
  assert (Hfind : exists fr0, find (fun fr => Z.eqb (flight_id fr) id) (db_flight db) = Some fr0
                              /\ flight_id fr0 = id).
  { destruct (find (fun fr => Z.eqb (flight_id fr) id) (db_flight db)) as [fr0|] eqn:Efind.
    - exists fr0. split; auto. apply find_some in Efind as [_ E]. now apply Z.eqb_eq.
    - exfalso. apply in_map_iff in Hid as (fr & E & Hfr).
      apply (find_none _ _ Efind) in Hfr. apply Z.eqb_neq in Hfr. auto. }
  destruct Hfind as (fr0 & Efind & Eid0).
  assert (Eget : getFlightPrimitive db' id = Some (flightWithLegs db' (flightRowOf id data))).
  { unfold getFlightPrimitive. rewrite Ef', Ef, find_updated, Efind. simpl.
    rewrite Eid0, Z.eqb_refl. reflexivity. }
  destruct (flight_view_after_insert db1 id (cf_legs data) (flightRowOf id data)
                                     eq_refl Hfresh Hseats) as (Hrows & Hs).
  cbv zeta in Hrows, Hs. rewrite Enl in Hrows.
  exists db', (flightWithLegs db' (flightRowOf id data)).
  split; [reflexivity|]. split; [exact Eget|]. split; [reflexivity|].
  split; [exact Hrows|]. split; [exact Hs|]. split; [|split].
  - exists db1. split; [reflexivity|]. split; [reflexivity|]. split; [|split; auto].
    intros leg (R1 & R2 & R3 & R4). unfold refsStored. cbv zeta in *.
    rewrite Ea, Eb, Ecc. auto.
  - now rewrite Ef', Ef, updated_flight_ids.
  - intros id' Hne. unfold getFlightPrimitive. rewrite Ef', Ef, find_updated.
    destruct (find (fun fr => Z.eqb (flight_id fr) id') (db_flight db)) as [fr|] eqn:Efr;
      simpl; auto.
    f_equal. apply find_some in Efr as [_ Eid]. apply Z.eqb_eq in Eid.
    assert (Hne' : Z.eqb (flight_id fr) id = false) by (apply Z.eqb_neq; congruence).
    rewrite Hne'. unfold db'. rewrite other_flight_view_after_insert.
    + unfold flightWithLegs. f_equal. rewrite El.
      rewrite filter_narrow.
      * apply map_ext_in. intros l Hl. apply (proj1 (orderByLegOrder_In _ _)) in Hl.
        apply filter_In in Hl as [Hl Hfl].
        apply Z.eqb_eq in Hfl.
        unfold legWithRefs. rewrite Ea, Eb, Ecc, Es. f_equal.
        apply filter_narrow. intros s Hs' E. apply Z.eqb_eq in E.
        apply negb_true_iff, hasNum_false. rewrite E. intros Hin.
        apply in_map_iff in Hin as (l2 & E2 & Hl2).
        apply filter_In in Hl2 as [Hl2 Hfl2]. apply Z.eqb_eq in Hfl2.
        assert (l2 = l) by (apply (same_leg_id (db_leg db)); auto).
        subst l2. congruence.
      * intros l _ Hfl. apply Z.eqb_eq in Hfl. apply negb_true_iff, Z.eqb_neq. congruence.
    + congruence.
    + exact (proj1 (proj2 (proj2 (proj2 Hc1)))).
Qed.



(** ** One notion of holding a seat *)

Lemma sqlEqStr_true (col : option string) (v : string) :
  sqlEqStr col v = true <-> col = Some v.
Proof.
  destruct col as [s|]; simpl.
  - rewrite String.eqb_eq. split; congruence.
  - split; discriminate.
Qed.

Lemma userHasSeatOn_seat (db : DB) (user : User) (fr : FlightRow) :
  userHasSeatOn db (user_id user) fr = true <-> seatOnFlight db user (flight_id fr).
Proof.
  unfold userHasSeatOn, seatOnFlight. rewrite existsb_exists. split.
  - intros (l & Hl & Hb). apply andb_prop in Hb as [Ef Hb].
    apply existsb_exists in Hb as (s & Hs & Hb). apply andb_prop in Hb as [El Eu].
    apply Z.eqb_eq in Ef, El. apply sqlEqStr_true in Eu.
    exists l, s. auto.
  - intros (l & s & Hl & Ef & Hs & El & Eu). exists l. split; auto.
    apply andb_true_intro. split; [now apply Z.eqb_eq|].
    apply existsb_exists. exists s. split; auto.
    apply andb_true_intro. split; [now apply Z.eqb_eq|now apply sqlEqStr_true].
Qed.

Lemma holdsSeat_seat (db : DB) (user : User) (fr : FlightRow) :
  holdsSeat user (Some (flightWithLegs db fr)) = true <->
  seatOnFlight db user (flight_id fr).
Proof.
  unfold holdsSeat, flightWithLegs, seatOnFlight. cbn [fl_legs].
  rewrite existsb_exists. split.
  - intros (leg & Hleg & Hb). apply in_map_iff in Hleg as (l & <- & Hl).
    apply (proj1 (orderByLegOrder_In _ _)) in Hl. apply filter_In in Hl as [Hl Ef].
    apply existsb_exists in Hb as (s & Hs & Eu). cbn [legWithRefs l_seats] in Hs.
    apply filter_In in Hs as [Hs El].
    apply Z.eqb_eq in Ef, El. apply sqlEqStr_true in Eu.
    exists l, s. auto.
  - intros (l & s & Hl & Ef & Hs & El & Eu). exists (legWithRefs db l). split.
    + apply in_map. apply orderByLegOrder_In. apply filter_In. split; auto.
      now apply Z.eqb_eq.
    + apply existsb_exists. exists s. split; [|now apply sqlEqStr_true].
      cbn [legWithRefs l_seats]. apply filter_In. split; auto. now apply Z.eqb_eq.
Qed.

(** X7.  The list query, the check before an update and the check before
    a delete go by the same seats.  The flights listed for a user are the
    stored flights on which the check of [validateAndSaveFlight] passes,
    and [delete] returns for an id exactly when that check passes on the
    flight fetched under the id. *)
Theorem listed_flights_are_the_ones_to_edit (db : DB) (user : User) :
  (forall fl, In fl (FlightRouter.list db user) <->
              exists fr, In fr (db_flight db) /\ fl = flightWithLegs db fr /\
                         holdsSeat user (Some fl) = true) /\
  (forall id, fst (FlightRouter.delete db user id) = Returned tt <->
              holdsSeat user (getFlight db id) = true).
Proof.
  split.
  - intros fl. unfold FlightRouter.list, listFlights, listFlightPrimitive, listFlightBaseQuery.
    rewrite in_map_iff. split.
    + intros (fr & <- & Hfr). apply filter_In in Hfr as [Hfr Hseat].
      exists fr. repeat split; auto.
      apply holdsSeat_seat. now apply userHasSeatOn_seat.
    + intros (fr & Hfr & -> & Hseat). exists fr. split; auto.
      apply filter_In. split; auto.
      apply userHasSeatOn_seat. now apply holdsSeat_seat in Hseat.
  - intros id. unfold getFlight, getFlightPrimitive, FlightRouter.delete.
    pose proof (seatsOfFlight_user db user id) as Hseat.
    destruct (find (fun fr => Z.eqb (flight_id fr) id) (db_flight db)) as [fr|] eqn:Efind.
    + apply find_some in Efind as [Hfr Eid]. apply Z.eqb_eq in Eid.
      cbn [option_map]. rewrite holdsSeat_seat, Eid, <- Hseat.
      destruct (existsb _ (FlightRouter.seatsOfFlight db id)); cbn [negb fst].
      * unfold deleteFlight, deleteFlightsWhere.
        destruct (filter (fun fr0 => Z.eqb (flight_id fr0) id) (db_flight db)) eqn:Ef.
        -- exfalso. assert (Hin : In fr (filter (fun fr0 => Z.eqb (flight_id fr0) id)
                                                (db_flight db))).
           { apply filter_In. split; auto. now apply Z.eqb_eq. }
           rewrite Ef in Hin. destruct Hin.
        -- cbn. intuition.
      * split; discriminate.
    + cbn [option_map holdsSeat].
      destruct (existsb _ (FlightRouter.seatsOfFlight db id)); cbn [negb fst].
      * unfold deleteFlight, deleteFlightsWhere.
        rewrite (filter_none (fun fr => Z.eqb (flight_id fr) id)).
        -- cbn. split; discriminate.
        -- exact (find_none _ _ Efind).
      * split; discriminate.
Qed.

(** ** Saving a valid flight *)

Section SavedFacts.

Context {H : Helpers}.

Lemma processLegsFrom_seats (legs : list LegInput) (i : nat) (processedLegs : list CreateLeg) :
  processLegsFrom i legs = inr processedLegs ->
  map cl_seats processedLegs = map li_seats legs.
Proof.
  revert i processedLegs. induction legs as [|leg legs IH]; intros i ps E; simpl in E.
  - now injection E as <-.
  - destruct (validateAndProcessLeg leg i) as [e|v]; simpl in E; [discriminate|].
    destruct (processLegsFrom (S i) legs) as [e|rest] eqn:Er; simpl in E; [discriminate|].
    injection E as <-. simpl. f_equal. eauto.
Qed.


End SavedFacts.

(** ** What the matcher drops *)

Lemma matched_listed (db : DB) (userId : string) (uniqueFlights : list CreateFlight)
      (g : CreateFlight) :
  matched (existingBySigOf (existingFlightsOf db userId uniqueFlights)) g = true ->
  exists ef, In ef (listFlightsQuery db userId) /\ fl_id ef <> 0 /\
             signature (createFlightOf ef) = signature g.
Proof.
  unfold matched. intros Hm. apply truthyNum_Some in Hm as (eid & Eget & Hnz).
  apply existingBySigOf_ids in Eget as (ef & Hef & Eid & Esig).
  exists ef. repeat split; auto.
  - eapply existingFlightsOf_listed; eauto.
  - congruence.
Qed.

(** X9.  An import with dedupe drops a flight only for a duplicate.  The
    flights it hands to the bulk insert are flights of the batch with
    pairwise distinct signatures; when the engine accepts them each gets
    one new flight row and the count returned is their number, and when
    it refuses one the call fails and the rows are as before; every
    flight of the batch has the signature of a flight handed to the
    insert or of a flight already listed for the user. *)
Theorem dedupe_drops_only_duplicates (db : DB) (data : list CreateFlight) (userId : string) :
  exists ins,
    (forall db', createManyFlightsPrimitive db ins = Some db' ->
       createManyFlights db data userId true =
         (Some {| insertedFlights := List.length ins; attachedSeats := 0 |}, db') /\
       db_flight db' = db_flight db ++ flightRowsFrom (db_nextFlightId db) ins) /\
    (createManyFlightsPrimitive db ins = None ->
       fst (createManyFlights db data userId true) = None /\
       sameRows db (snd (createManyFlights db data userId true))) /\
    (forall g, In g ins -> In g data) /\
    NoDup (map signature ins) /\
    (List.length ins <= List.length data)%nat /\
    (forall f, In f data ->
       (exists g, In g ins /\ signature g = signature f) \/
       (exists ef, In ef (listFlightsQuery db userId) /\ fl_id ef <> 0 /\
                   signature (createFlightOf ef) = signature f)).
Proof.
  set (m := existingBySigOf (existingFlightsOf db userId (uniqueFlightsOf data))).
  exists (filter (fun f => negb (matched m f)) (uniqueFlightsOf data)).
  assert (Hincl : forall g, In g (filter (fun f => negb (matched m f)) (uniqueFlightsOf data)) ->
                            In g data).
  { intros g Hg. apply filter_In in Hg as [Hg _]. now apply uniqueFlightsOf_incl. }
  assert (Hnd : NoDup (map signature
                           (filter (fun f => negb (matched m f)) (uniqueFlightsOf data)))).
  { apply distinct_keys_filter, uniqueFlightsOf_NoDup. }
  assert (Ecall : createManyFlights db data userId true =
                  match createManyFlightsPrimitive db
                          (filter (fun f => negb (matched m f)) (uniqueFlightsOf data)) with
                  | Some db' =>
                      (Some {| insertedFlights :=
                                 List.length (filter (fun f => negb (matched m f))
                                                     (uniqueFlightsOf data));
                               attachedSeats := 0 |}, db')
                  | None => (None, db)
                  end).
  { rewrite createManyFlights_dedupe, partitionFlights_spec. reflexivity. }
  split; [|split; [|split; [|split; [|split]]]]; auto.
  - intros db' E. rewrite Ecall, E. split; [reflexivity|].
    apply createManyFlightsPrimitive_commits in E as ->.
    apply flightsAdded_tables.
  - intros E. rewrite Ecall, E. cbn. unfold sameRows. auto 7.
  - apply NoDup_incl_length; [|exact Hincl]. eapply NoDup_map_inv; eauto.
  - intros f Hf. destruct (uniqueFlightsOf_represents data f Hf) as (g & Hg & Esig).
    destruct (matched m g) eqn:Em.
    + right. apply matched_listed in Em as (ef & Hef & Hnz & E).
      exists ef. repeat split; auto. congruence.
    + left. exists g. split; auto. apply filter_In. now rewrite Em.
Qed.

(** ** What the signature tells apart *)

Lemma idComponent_ids (o o' : option Airport) :
  option_map airport_id o = option_map airport_id o' -> idComponent o = idComponent o'.
Proof.
  destruct o as [a|], o' as [a'|]; simpl; try discriminate; auto.
  intros E. injection E as ->. reflexivity.
Qed.

(** X10.  Two flights with a first leg have the same signature when they
    agree on the date, on the ids of the first leg's airports, on its
    flight number, registration, departure and arrival (null counting as
    the empty string) and on the number of legs, whatever their later
    legs, seats, notes, aircraft or airlines; and when no component holds
    a bar, they have the same signature only then. *)
Theorem signature_compares_the_first_leg (f g : CreateFlight) (lf lg : CreateLeg)
        (rf rg : list CreateLeg) :
  cf_legs f = lf :: rf -> cf_legs g = lg :: rg ->
  (sameKey f g lf lg -> signature f = signature g) /\
  (barFree f lf -> barFree g lg -> signature f = signature g -> sameKey f g lf lg).
Proof.
  intros Ef Eg.
  rewrite (signature_specSignature _ _ _ Ef), (signature_specSignature _ _ _ Eg).
  unfold specSignature, sameKey, barFree. cbv zeta. split.
  - intros (E1 & E2 & E3 & E4 & E5 & E6 & E7 & E8).
    rewrite E1, (idComponent_ids _ _ E2), (idComponent_ids _ _ E3), E4, E5, E6, E7, E8.
    reflexivity.
  - intros (F1 & F2 & F3 & F4 & F5) (G1 & G2 & G3 & G4 & G5) E.
    apply append_bar_split in E as [E1 E]; auto.
    apply append_bar_split in E as [E2 E]; auto using idComponent_noBar.
    apply append_bar_split in E as [E3 E]; auto using idComponent_noBar.
    apply append_bar_split in E as [E4 E]; auto.
    apply append_bar_split in E as [E5 E]; auto.
    apply append_bar_split in E as [E6 E]; auto.
    apply append_bar_split in E as [E7 E]; auto.
    apply numToString_inj, Nat2Z.inj in E.
    repeat split; auto using idComponent_inj.
Qed.

(** ** The legs are validated one by one *)

Section LegByLeg.

Context {H : Helpers}.

Lemma sameAt_error {A} (i j : nat) (path message : string) :
  @sameAt A i j (inl (pathError i path message)) (inl (pathError j path message)).
Proof. simpl. eauto. Qed.

Lemma sameAt_bind {A B} (i j : nat) (m m' : ActionResult + A)
      (k k' : A -> ActionResult + B) :
  sameAt i j m m' -> (forall a, sameAt i j (k a) (k' a)) ->
  sameAt i j (bindE m k) (bindE m' k').
Proof.
  destruct m as [e|a], m' as [e'|a']; simpl; intros Hm Hk; auto; try contradiction.
  subst a'. apply Hk.
Qed.

Lemma parseDateTimeField_index (i j : nat) (date time : option string) (tzId path : string) :
  sameAt i j (parseDateTimeField i date time tzId path)
             (parseDateTimeField j date time tzId path).
Proof.
  unfold parseDateTimeField. destruct date as [d|], time as [t|]; try reflexivity.
  destruct (_ || _); try reflexivity.
  destruct (mergeTimeWithDate d t tzId); [reflexivity|apply sameAt_error].
Qed.

Lemma departureInstant_index (i j : nat) (leg : LegInput) :
  sameAt i j (departureInstant i leg) (departureInstant j leg).
Proof.
  unfold departureInstant.
  destruct (li_departure leg) as [d|], (li_departureTime leg) as [t|]; try reflexivity.
  destruct (_ && _); try reflexivity.
  destruct (mergeTimeWithDate _ _ _); [reflexivity|apply sameAt_error].
Qed.

Lemma arrivalInstant_index (i j : nat) (leg : LegInput) :
  sameAt i j (arrivalInstant i leg) (arrivalInstant j leg).
Proof.
  unfold arrivalInstant.
  destruct (defaultedArrival leg) as [d|], (li_arrivalTime leg) as [t|]; try reflexivity.
  destruct (_ && _); try reflexivity.
  destruct (mergeTimeWithDate _ _ _); [reflexivity|apply sameAt_error].
Qed.

Lemma checkArrivalDate_index (i j : nat) (leg : LegInput) :
  sameAt i j (checkArrivalDate i leg) (checkArrivalDate j leg).
Proof.
  unfold checkArrivalDate. destruct (li_arrival leg) as [a|]; try reflexivity.
  destruct (Js.truthy (Some a)); try reflexivity.
  destruct (isBeforeEpoch _); [apply sameAt_error|].
  destruct (negb _); [apply sameAt_error|reflexivity].
Qed.

Lemma resolveInstants_index (i j : nat) (leg : LegInput) :
  sameAt i j (resolveInstants leg i) (resolveInstants leg j).
Proof.
  unfold resolveInstants. cbv zeta.
  destruct (negb _ && negb _); [apply sameAt_error|].
  destruct (isBeforeEpoch _); [apply sameAt_error|].
  apply sameAt_bind; [apply departureInstant_index|intros ?].
  do 3 (apply sameAt_bind; [apply parseDateTimeField_index|intros ?]).
  apply sameAt_bind; [apply checkArrivalDate_index|intros ?].
  apply sameAt_bind; [apply arrivalInstant_index|intros ?].
  do 3 (apply sameAt_bind; [apply parseDateTimeField_index|intros ?]).
  reflexivity.
Qed.

Lemma validateAndProcessLeg_index (i j : nat) (leg : LegInput) :
  sameAt i j (validateAndProcessLeg leg i) (validateAndProcessLeg leg j).
Proof.
  unfold validateAndProcessLeg.
  apply sameAt_bind; [apply resolveInstants_index|intros r].
  destruct (arrivalPrecedes r); [apply sameAt_error|reflexivity].
Qed.

Lemma validate_any_index (i j : nat) (leg : LegInput) (v : LegValue) :
  validateAndProcessLeg leg i = inr v -> validateAndProcessLeg leg j = inr v.
Proof.
  intros E. pose proof (validateAndProcessLeg_index i j leg) as Hs.
  rewrite E in Hs. destruct (validateAndProcessLeg leg j); simpl in Hs; [contradiction|].
  now subst.
Qed.

(** X11.  The assembler checks each leg on its own.  The leg loop succeeds
    exactly when every leg validates, at whatever index, and its result is
    then the validated value of each leg with the seats of that leg, in
    order; the index of a leg only enters the path of its error; and no
    leg is checked against another: legs taken from a list that validates
    validate in any order and number. *)
Theorem legs_are_validated_one_by_one (legs : list LegInput) (i j : nat) :
  (forall processedLegs,
     processLegsFrom i legs = inr processedLegs <->
     Forall2 (fun leg p => validateAndProcessLeg leg j = inr (cl_value p) /\
                           cl_seats p = li_seats leg)
             legs processedLegs) /\
  (forall leg e, validateAndProcessLeg leg i = inl e ->
                 exists path message,
                   e = pathError i path message /\
                   validateAndProcessLeg leg j = inl (pathError j path message)) /\
  (forall processedLegs legs',
     processLegsFrom i legs = inr processedLegs ->
     (forall leg, In leg legs' -> In leg legs) ->
     exists processedLegs', processLegsFrom j legs' = inr processedLegs').
Proof.
  split; [|split].
  - revert i. induction legs as [|leg legs IH]; intros i ps; simpl.
    + split.
      * intros [= <-]. constructor.
      * intros Hf. inversion Hf. reflexivity.
    + split.
      * intros E.
        destruct (validateAndProcessLeg leg i) as [e|v] eqn:Ev; simpl in E; [discriminate|].
        destruct (processLegsFrom (S i) legs) as [e|rest] eqn:Er; simpl in E; [discriminate|].
        injection E as <-. constructor.
        -- simpl. split; auto. eapply validate_any_index; eauto.
        -- now apply (IH (S i)).
      * intros Hf. inversion Hf as [|? p ? rest [Ev Es] Hrest]; subst.
        rewrite (validate_any_index j i leg _ Ev). simpl.
        apply (IH (S i)) in Hrest. rewrite Hrest. simpl.
        destruct p as [v s]. simpl in *. now subst.
  - intros leg e E. pose proof (validateAndProcessLeg_index i j leg) as Hs.
    rewrite E in Hs. destruct (validateAndProcessLeg leg j) as [e'|v]; simpl in Hs;
      [|contradiction].
    destruct Hs as (path & message & -> & ->). eauto.
  - intros ps legs' E Hincl.
    apply processLegsFrom_all. intros k leg Hk.
    apply nth_error_In, Hincl, In_nth_error in Hk as [k' Hk'].
    apply processLegsFrom_success in E as [_ Hall].
    destruct (Hall k' leg Hk') as [v Ev]. exists v.
    eapply validate_any_index; eauto.
Qed.

End LegByLeg.

(** ** The seats of an imported file *)

Lemma get_set {V} (m : Js.Map V) (k k' : string) (v : V) :
  Js.get (Js.set m k v) k' = if String.eqb k k' then Some v else Js.get m k'.
Proof.
  unfold Js.get. induction m as [|[k0 v0] m IH]; simpl.
  - destruct (String.eqb k k'); reflexivity.
  - destruct (String.eqb_spec k0 k) as [->|Hne]; simpl.
    + destruct (String.eqb k k'); reflexivity.
    + destruct (String.eqb_spec k0 k') as [->|Hne'].
      * destruct (String.eqb_spec k k'); [congruence|reflexivity].
      * exact IH.
Qed.

Lemma indicesOf_noteUnknown (unknown : AirTrail.Unknowns) (key key' : string) (i : nat) :
  indicesOf (AirTrail.noteUnknown unknown key i) key' =
  indicesOf unknown key' ++ (if String.eqb key key' then [i] else []).
Proof.
  unfold indicesOf, AirTrail.noteUnknown.
  destruct (Js.get unknown key) as [l|] eqn:E; rewrite get_set;
    destruct (String.eqb_spec key key') as [<-|Hne]; try rewrite E; auto using app_nil_r.
Qed.

Section Seats.

Import AirTrail.

Variables (dataUsers : DataUsers) (exportedUsers : list ExportedUser)
          (users : list AppUser) (currentUser : AppUser) (flightIndex : nat).

Lemma userOf_listed (seat : Seat) (u : AppUser) :
  userOf dataUsers exportedUsers users seat = Some u -> In u users.
Proof.
  unfold userOf. destruct (dataUserOf dataUsers seat) as [[du|]|]; try discriminate.
  destruct (find _ exportedUsers) as [eu|]; [|discriminate].
  destruct (eu_mappedUserId eu) as [m|]; [|discriminate].
  destruct (Js.truthy (Some m)); [|discriminate].
  intros E. now apply find_some in E as [Hin _].
Qed.

Lemma resolveSeat_seat (unknownUsers : Unknowns) (seat : Seat) :
  let s := fst (resolveSeat dataUsers exportedUsers users flightIndex unknownUsers seat) in
  seatPlace s = seatPlace seat /\
  forall id, seat_userId s = Some id ->
             seat_guestName s = None /\ exists u, In u users /\ au_id u = id.
Proof.
  unfold resolveSeat. cbn [fst]. split; [reflexivity|].
  cbn [seat_userId seat_guestName].
  destruct (userOf dataUsers exportedUsers users seat) as [u|] eqn:Eu; [|discriminate].
  intros id [= <-]. split; auto. exists u. split; auto. eapply userOf_listed; eauto.
Qed.

Lemma resolveSeatsFrom_seats (rawSeats : list Seat) (unknownUsers : Unknowns) :
  let seats := fst (resolveSeatsFrom dataUsers exportedUsers users flightIndex
                                     unknownUsers rawSeats) in
  map seatPlace seats = map seatPlace rawSeats /\
  forall s id, In s seats -> seat_userId s = Some id ->
               seat_guestName s = None /\ exists u, In u users /\ au_id u = id.
Proof.
  revert unknownUsers. induction rawSeats as [|seat rest IH]; intros unk; cbn zeta.
  - simpl. split; auto. intros s id [].
  - cbn [resolveSeatsFrom].
    pose proof (resolveSeat_seat unk seat) as Hs. cbv zeta in Hs.
    destruct (resolveSeat dataUsers exportedUsers users flightIndex unk seat) as [s unk1].
    specialize (IH unk1). cbv zeta in IH.
    destruct (resolveSeatsFrom dataUsers exportedUsers users flightIndex unk1 rest)
      as [ss unk2].
    cbn [fst] in *. destruct Hs as [Hp Hu], IH as [IHp IHu]. split.
    + simpl. now rewrite Hp, IHp.
    + intros s' id [<-|Hin]; eauto.
Qed.

End Seats.

Lemma resolveSeats_own_seat (rawSeats : list Seat)
        (dataUsers : AirTrail.DataUsers) (exportedUsers : list AirTrail.ExportedUser)
        (users : list AirTrail.AppUser) (currentUser : AirTrail.AppUser)
        (flightIndex : nat) (unknownUsers : AirTrail.Unknowns) :
  ownName users currentUser ->
  exists s,
    In s (fst (AirTrail.resolveSeats rawSeats dataUsers exportedUsers users
                                     currentUser flightIndex unknownUsers)) /\
    seat_userId s = Some (AirTrail.au_id currentUser).
Proof.
  intros Hown. unfold AirTrail.resolveSeats.
  destruct (AirTrail.resolveSeatsFrom dataUsers exportedUsers users flightIndex
                                      unknownUsers rawSeats) as [seats unk].
  destruct (existsb (AirTrail.isCurrentUsers users currentUser) seats) eqn:Ex; cbn [negb fst].
  - apply existsb_exists in Ex as (s & Hin & Hs). exists s. split; auto.
    unfold AirTrail.isCurrentUsers in Hs.
    destruct (seat_userId s) as [id|]; [|discriminate].
    destruct (find _ users) as [usr|] eqn:Ef; [|discriminate].
    apply find_some in Ef as [Husr Eid]. apply String.eqb_eq in Eid, Hs.
    f_equal. rewrite <- Eid. now apply Hown.
  - eexists. split; [apply in_or_app; right; left; reflexivity|reflexivity].
Qed.

(** X12.  [resolveSeats] gives back the seats of the file in their order,
    each with its seat type, number and class, and at most one more seat
    at the end, which is the importing user's own and has no guest name.
    A seat of the result with a user has no guest name, and its user is a
    user of the application or the importing user.  When the importing
    user's name is no other user's, the result holds a seat of the
    importing user. *)
Theorem resolved_seats_keep_the_file_seats (rawSeats : list Seat)
        (dataUsers : AirTrail.DataUsers) (exportedUsers : list AirTrail.ExportedUser)
        (users : list AirTrail.AppUser) (currentUser : AirTrail.AppUser)
        (flightIndex : nat) (unknownUsers : AirTrail.Unknowns) :
  let seats := fst (AirTrail.resolveSeats rawSeats dataUsers exportedUsers users
                                          currentUser flightIndex unknownUsers) in
  (exists own, seats = firstn (List.length rawSeats) seats ++ own /\
               (own = [] \/
                own = [mkSeat (Some (AirTrail.au_id currentUser)) None None None None])) /\
  map seatPlace (firstn (List.length rawSeats) seats) = map seatPlace rawSeats /\
  (forall s id, In s seats -> seat_userId s = Some id ->
     seat_guestName s = None /\
     (id = AirTrail.au_id currentUser \/
      exists u, In u users /\ AirTrail.au_id u = id)) /\
  (ownName users currentUser ->
   exists s, In s seats /\ seat_userId s = Some (AirTrail.au_id currentUser)).
Proof.
  cbv zeta.
  refine ((fun H3 => conj (proj1 H3)
                          (conj (proj1 (proj2 H3))
                                (conj (proj2 (proj2 H3))
                                      (resolveSeats_own_seat _ _ _ _ _ _ _)))) _).
  unfold AirTrail.resolveSeats.
  pose proof (resolveSeatsFrom_seats dataUsers exportedUsers users flightIndex
                                     rawSeats unknownUsers) as Hs.
  cbv zeta in Hs.
  destruct (AirTrail.resolveSeatsFrom dataUsers exportedUsers users flightIndex
                                      unknownUsers rawSeats) as [seats unk].
  cbn [fst] in Hs. destruct Hs as [Hp Hu].
  assert (Hlen : List.length seats = List.length rawSeats).
  { rewrite <- (length_map seatPlace seats), Hp. apply length_map. }
  destruct (negb _); cbn [fst].
  - rewrite <- Hlen, firstn_app, Nat.sub_diag, firstn_all. cbn [firstn]. rewrite app_nil_r.
    split; [eauto|]. split; [exact Hp|].
    intros s id Hin E. apply in_app_or in Hin as [Hin|[<-|[]]].
    + destruct (Hu s id Hin E) as [Hg Hex]. auto.
    + simpl in E. injection E as <-. auto.
  - rewrite <- Hlen, firstn_all. split.
    + exists []. rewrite app_nil_r. auto.
    + split; [exact Hp|]. intros s id Hin E. destruct (Hu s id Hin E). auto.
Qed.

Lemma resolveSeatsFrom_fst (dataUsers : AirTrail.DataUsers)
      (exportedUsers : list AirTrail.ExportedUser) (users : list AirTrail.AppUser)
      (i j : nat) (rawSeats : list Seat) (unk unk' : AirTrail.Unknowns) :
  fst (AirTrail.resolveSeatsFrom dataUsers exportedUsers users i unk rawSeats) =
  fst (AirTrail.resolveSeatsFrom dataUsers exportedUsers users j unk' rawSeats).
Proof.
  revert unk unk'. induction rawSeats as [|seat rest IH]; intros unk unk'; simpl; auto.
  specialize (IH (snd (AirTrail.resolveSeat dataUsers exportedUsers users i unk seat))
                 (snd (AirTrail.resolveSeat dataUsers exportedUsers users j unk' seat))).
  unfold AirTrail.resolveSeat in *. cbn [snd] in IH.
  do 2 match goal with |- context [AirTrail.resolveSeatsFrom ?a ?b ?c ?d ?e ?f] =>
    destruct (AirTrail.resolveSeatsFrom a b c d e f) end.
  simpl in *. congruence.
Qed.

Lemma resolveSeats_fst (dataUsers : AirTrail.DataUsers)
      (exportedUsers : list AirTrail.ExportedUser) (users : list AirTrail.AppUser)
      (currentUser : AirTrail.AppUser) (i j : nat) (rawSeats : list Seat)
      (unk unk' : AirTrail.Unknowns) :
  fst (AirTrail.resolveSeats rawSeats dataUsers exportedUsers users currentUser i unk) =
  fst (AirTrail.resolveSeats rawSeats dataUsers exportedUsers users currentUser j unk').
Proof.
  unfold AirTrail.resolveSeats.
  pose proof (resolveSeatsFrom_fst dataUsers exportedUsers users i j rawSeats unk unk') as E.
  do 2 match goal with |- context [AirTrail.resolveSeatsFrom ?a ?b ?c ?d ?e ?f] =>
    destruct (AirTrail.resolveSeatsFrom a b c d e f) end.
  simpl in E. subst. destruct (negb _); reflexivity.
Qed.

Lemma resolveSeatsFrom_noted (dataUsers : AirTrail.DataUsers)
      (exportedUsers : list AirTrail.ExportedUser) (users : list AirTrail.AppUser)
      (flightIndex : nat) (key : string) (rawSeats : list Seat) (unk : AirTrail.Unknowns) :
  indicesOf (snd (AirTrail.resolveSeatsFrom dataUsers exportedUsers users flightIndex
                                            unk rawSeats)) key =
  indicesOf unk key ++
  repeat flightIndex
         (List.length (filter (unresolvedAs dataUsers exportedUsers users key) rawSeats)).
Proof.
  revert unk. induction rawSeats as [|seat rest IH]; intros unk.
  - simpl. now rewrite app_nil_r.
  - cbn [AirTrail.resolveSeatsFrom filter].
    specialize (IH (snd (AirTrail.resolveSeat dataUsers exportedUsers users flightIndex
                                              unk seat))).
    destruct (AirTrail.resolveSeat dataUsers exportedUsers users flightIndex unk seat)
      as [s unk1] eqn:Es.
    destruct (AirTrail.resolveSeatsFrom dataUsers exportedUsers users flightIndex unk1 rest)
      as [ss unk2] eqn:Er.
    cbn [snd] in *. rewrite Er in IH. cbn [snd] in IH. rewrite IH.
    unfold AirTrail.resolveSeat in Es. injection Es as _ <-.
    unfold unresolvedAs.
    destruct (AirTrail.dataUserOf dataUsers seat) as [du|];
      destruct (AirTrail.userOf dataUsers exportedUsers users seat) as [u|]; auto.
    rewrite indicesOf_noteUnknown, <- app_assoc.
    destruct (String.eqb (AirTrail.slotKey du) key); reflexivity.
Qed.

(** A seat whose user id names a property of [Object.prototype] and no
    own key of [dataUsers]: the property is truthy and reads [undefined]
    three times, so the seat is noted under that key and no other. *)
Lemma prototype_name_is_unresolved (dataUsers : AirTrail.DataUsers)
      (exportedUsers : list AirTrail.ExportedUser) (users : list AirTrail.AppUser)
      (seat : Seat) (name key : string) :
  seat_userId seat = Some name ->
  In name AirTrail.objectPrototypeKeys ->
  Js.get (AirTrail.own_users dataUsers) name = None ->
  (name = "__proto__" -> AirTrail.proto_user dataUsers = None) ->
  unresolvedAs dataUsers exportedUsers users key seat =
  String.eqb "undefined|undefined|undefined" key.
Proof.
  intros Eid Hname Hown Hproto.
  assert (Eslot : AirTrail.dataUserOf dataUsers seat = Some AirTrail.Alien).
  { unfold AirTrail.dataUserOf. rewrite Eid, Hown.
    destruct (String.eqb_spec name "__proto__") as [E|Hne].
    - now rewrite (Hproto E).
    - assert (Hnot : forall entry, AirTrail.entryProperty entry name = None).
      { intros entry. unfold AirTrail.entryProperty.
        destruct (String.eqb_spec name "id") as [->|_];
          [exfalso; cbn in Hname; intuition discriminate|].
        destruct (String.eqb_spec name "username") as [->|_];
          [exfalso; cbn in Hname; intuition discriminate|].
        destruct (String.eqb_spec name "displayName") as [->|_];
          [exfalso; cbn in Hname; intuition discriminate|].
        reflexivity. }
      assert (Hin : existsb (String.eqb name) AirTrail.objectPrototypeKeys = true).
      { apply existsb_exists. exists name. split; auto. apply String.eqb_refl. }
      destruct (AirTrail.proto_user dataUsers) as [entry|]; [rewrite Hnot|]; now rewrite Hin. }
  unfold unresolvedAs, AirTrail.userOf. rewrite Eslot. reflexivity.
Qed.

(** What [dataUsers] holds of the file: an own key is the id of an entry
    of the file, and so is the prototype. *)
Lemma dataUsersOf_absent (users : list AirTrail.DataUser) (name : string) :
  ~ In name (map AirTrail.du_id users) ->
  Js.get (AirTrail.own_users (AirTrail.dataUsersOf users)) name = None /\
  (name = "__proto__" -> AirTrail.proto_user (AirTrail.dataUsersOf users) = None).
Proof.
  unfold AirTrail.dataUsersOf.
  assert (G : forall acc,
             ~ In name (map AirTrail.du_id users) ->
             Js.get (AirTrail.own_users acc) name = None ->
             (name = "__proto__" -> AirTrail.proto_user acc = None) ->
             Js.get (AirTrail.own_users (fold_left AirTrail.assignUser users acc)) name = None /\
             (name = "__proto__" ->
              AirTrail.proto_user (fold_left AirTrail.assignUser users acc) = None)).
  { induction users as [|u users IH]; intros acc Hno Hown Hproto; [auto|].
    cbn [fold_left]. cbn [map In] in Hno. apply IH; [tauto| |].
    - unfold AirTrail.assignUser.
      destruct (String.eqb (AirTrail.du_id u) "__proto__"); cbn; auto.
      rewrite get_set. destruct (String.eqb_spec (AirTrail.du_id u) name); [tauto|auto].
    - intros E. unfold AirTrail.assignUser.
      destruct (String.eqb_spec (AirTrail.du_id u) "__proto__") as [E'|_]; cbn; auto.
      exfalso. apply Hno. left. congruence. }
  intros Hno. apply G; auto.
Qed.

(** X13.  [resolveSeats] notes the flight once for each seat of the file
    for which [dataUsers] answers and that resolves to no user of the
    application, under the key of the entry that answered, after what was
    noted before; nothing else changes in [unknownUsers], and the seats
    returned do not depend on it or on the flight index.  A property of
    [Object.prototype] answers too: a seat whose user id names one, and no
    own key of [dataUsers], is noted under
    [undefined|undefined|undefined]. *)
Theorem unknown_users_are_noted (rawSeats : list Seat)
        (dataUsers : AirTrail.DataUsers) (exportedUsers : list AirTrail.ExportedUser)
        (users : list AirTrail.AppUser) (currentUser : AirTrail.AppUser)
        (flightIndex : nat) (unknownUsers : AirTrail.Unknowns) :
  let r := AirTrail.resolveSeats rawSeats dataUsers exportedUsers users currentUser
                                 flightIndex unknownUsers in
  (forall key,
     indicesOf (snd r) key =
     indicesOf unknownUsers key ++
     repeat flightIndex
            (List.length (filter (unresolvedAs dataUsers exportedUsers users key) rawSeats))) /\
  (forall flightIndex' unknownUsers',
     fst (AirTrail.resolveSeats rawSeats dataUsers exportedUsers users currentUser
                                flightIndex' unknownUsers') = fst r) /\
  (forall seat name,
     In seat rawSeats -> seat_userId seat = Some name ->
     In name AirTrail.objectPrototypeKeys ->
     Js.get (AirTrail.own_users dataUsers) name = None ->
     (name = "__proto__" -> AirTrail.proto_user dataUsers = None) ->
     In flightIndex (indicesOf (snd r) "undefined|undefined|undefined")).
Proof.
  cbv zeta.
  assert (Hnoted : forall key,
            indicesOf (snd (AirTrail.resolveSeats rawSeats dataUsers exportedUsers users
                                                  currentUser flightIndex unknownUsers)) key =
            indicesOf unknownUsers key ++
            repeat flightIndex
                   (List.length (filter (unresolvedAs dataUsers exportedUsers users key)
                                        rawSeats))).
  { intros key. unfold AirTrail.resolveSeats.
    rewrite <- (resolveSeatsFrom_noted dataUsers exportedUsers users flightIndex key
                                       rawSeats unknownUsers).
    destruct (AirTrail.resolveSeatsFrom dataUsers exportedUsers users flightIndex
                                        unknownUsers rawSeats) as [seats unk].
    destruct (negb _); reflexivity. }
  split; [exact Hnoted|]. split.
  - intros i' unk'. apply resolveSeats_fst.
  - intros seat name Hseat Eid Hname Hown Hproto.
    rewrite Hnoted. apply in_or_app. right.
    assert (Hf : In seat (filter (unresolvedAs dataUsers exportedUsers users
                                               "undefined|undefined|undefined") rawSeats)).
    { apply filter_In. split; [exact Hseat|].
      now rewrite (prototype_name_is_unresolved dataUsers exportedUsers users seat name
                     "undefined|undefined|undefined" Eid Hname Hown Hproto). }
    destruct (filter _ rawSeats) as [|x xs]; [destruct Hf|]. cbn. auto.
Qed.


(** ** The flights and the report of a version 2 file *)

Lemma noted_iff (unknown : AirTrail.Unknowns) (noted key : string) (i j : nat) :
  In j (indicesOf (AirTrail.noteUnknown unknown noted i) key) <->
  In j (indicesOf unknown key) \/ (j = i /\ noted = key).
Proof.
  rewrite indicesOf_noteUnknown, in_app_iff.
  destruct (String.eqb_spec noted key) as [->|Hne]; simpl; intuition congruence.
Qed.

Lemma in_repeat_iff (x y : nat) (n : nat) : In y (repeat x n) <-> y = x /\ (0 < n)%nat.
Proof.
  induction n as [|n IH]; simpl.
  - split; [intros []|intros [_ Hlt]; inversion Hlt].
  - rewrite IH. split.
    + intros [->|[-> _]]; split; auto using Nat.lt_0_succ.
    + intros [-> _]. auto.
Qed.

Section ProcessFacts.

Import AirTrail.

Context {L : Lookups}.

Variables (dataUsers : DataUsers) (exportedUsers : list ExportedUser)
          (currentUser : AppUser).

Lemma noteAirport_iff (unknown : Unknowns) (icao : option string) (i j : nat) (key : string) :
  In j (indicesOf (noteAirport unknown (lookupAirport icao) icao i) key) <->
  In j (indicesOf unknown key) \/
  (j = i /\ In key match lookupAirport icao, icao with
                   | None, Some code => if Js.truthy icao then [code] else []
                   | _, _ => []
                   end).
Proof.
  unfold noteAirport.
  destruct (lookupAirport icao) as [a|]; [simpl; tauto|].
  destruct icao as [code|]; [|simpl; tauto].
  destruct (Js.truthy (Some code)); [|simpl; tauto].
  rewrite noted_iff. simpl. intuition.
Qed.

Lemma noteAirline_iff (unknown : Unknowns) (rawAirline : option RawAirline) (i j : nat)
      (key : string) :
  In j (indicesOf (noteAirline unknown (resolveAirline rawAirline) rawAirline i) key) <->
  In j (indicesOf unknown key) \/ (j = i /\ In key (missingAirline rawAirline)).
Proof.
  unfold noteAirline, missingAirline.
  destruct (resolveAirline rawAirline) as [a|]; [simpl; tauto|].
  destruct (airlineCode rawAirline) as [code|]; [|simpl; tauto].
  rewrite noted_iff. simpl. intuition.
Qed.

Lemma resolveSeats_noted_iff (rawSeats : list Seat) (users : list AppUser)
      (unknown : Unknowns) (i j : nat) (key : string) :
  In j (indicesOf (snd (resolveSeats rawSeats dataUsers exportedUsers users currentUser
                                     i unknown)) key) <->
  In j (indicesOf unknown key) \/
  (j = i /\ exists seat, In seat rawSeats /\
                         unresolvedAs dataUsers exportedUsers users key seat = true).
Proof.
  assert (E : snd (resolveSeats rawSeats dataUsers exportedUsers users currentUser i unknown) =
              snd (resolveSeatsFrom dataUsers exportedUsers users i unknown rawSeats)).
  { unfold resolveSeats.
    destruct (resolveSeatsFrom dataUsers exportedUsers users i unknown rawSeats).
    destruct (negb _); reflexivity. }
  rewrite E, resolveSeatsFrom_noted, in_app_iff, in_repeat_iff.
  assert (G : (0 < List.length (filter (unresolvedAs dataUsers exportedUsers users key)
                                       rawSeats))%nat <->
              exists seat, In seat rawSeats /\
                           unresolvedAs dataUsers exportedUsers users key seat = true).
  { destruct (filter _ rawSeats) as [|s ss] eqn:Ef; simpl.
    - split; [intros Hlt; inversion Hlt|].
      intros (seat & Hin & Hs).
      assert (Hf : In seat (filter (unresolvedAs dataUsers exportedUsers users key) rawSeats))
        by (apply filter_In; auto).
      rewrite Ef in Hf. destruct Hf.
    - split; [|auto using Nat.lt_0_succ]. intros _. exists s.
      apply filter_In. rewrite Ef. now left. }
  rewrite G. tauto.
Qed.

(** One leg of the inner loop. *)
Lemma processLegV2_spec (idx : nat) (ua ul uu : Unknowns) (rawLeg : RawLeg) :
  exists leg ua' ul' uu',
    processLegV2 dataUsers exportedUsers currentUser idx (ua, ul, uu) rawLeg =
      (leg, (ua', ul', uu')) /\
    importedLeg dataUsers exportedUsers currentUser rawLeg leg /\
    (forall key j, In j (indicesOf ua' key) <->
                   In j (indicesOf ua key) \/ (j = idx /\ In key (missingAirports rawLeg))) /\
    (forall key j, In j (indicesOf ul' key) <->
                   In j (indicesOf ul key) \/
                   (j = idx /\ In key (missingAirline (rleg_airline rawLeg)))) /\
    (forall key j, In j (indicesOf uu' key) <->
                   In j (indicesOf uu key) \/
                   (j = idx /\ exists seat, In seat (rleg_seats rawLeg) /\
                        unresolvedAs dataUsers exportedUsers userList key seat = true)).
Proof.
  unfold processLegV2.
  pose proof (resolveSeats_noted_iff (rleg_seats rawLeg) userList uu idx) as Hu.
  pose proof (resolveSeats_fst dataUsers exportedUsers userList currentUser idx 0
                               (rleg_seats rawLeg) uu []) as Hs.
  destruct (resolveSeats (rleg_seats rawLeg) dataUsers exportedUsers userList currentUser
                         idx uu) as [seats uu'].
  cbn [fst snd] in Hu, Hs.
  do 4 eexists. split; [reflexivity|]. split; [|split; [|split]].
  - unfold importedLeg. cbn. repeat split; auto.
  - intros key j. rewrite !noteAirport_iff. unfold missingAirports. rewrite in_app_iff. tauto.
  - intros key j. apply noteAirline_iff.
  - intros key j. apply Hu.
Qed.

Lemma processLegsV2_spec (idx : nat) (rawLegs : list RawLeg) (ua ul uu : Unknowns) :
  exists legs ua' ul' uu',
    processLegsV2 dataUsers exportedUsers currentUser idx (ua, ul, uu) rawLegs =
      (legs, (ua', ul', uu')) /\
    Forall2 (importedLeg dataUsers exportedUsers currentUser) rawLegs legs /\
    (forall key j, In j (indicesOf ua' key) <->
       In j (indicesOf ua key) \/
       (j = idx /\ exists leg, In leg rawLegs /\ In key (missingAirports leg))) /\
    (forall key j, In j (indicesOf ul' key) <->
       In j (indicesOf ul key) \/
       (j = idx /\ exists leg, In leg rawLegs /\ In key (missingAirline (rleg_airline leg)))) /\
    (forall key j, In j (indicesOf uu' key) <->
       In j (indicesOf uu key) \/
       (j = idx /\ exists leg seat, In leg rawLegs /\ In seat (rleg_seats leg) /\
            unresolvedAs dataUsers exportedUsers userList key seat = true)).
Proof.
  revert ua ul uu. induction rawLegs as [|rawLeg rest IH]; intros ua ul uu.
  - exists [], ua, ul, uu. split; [reflexivity|]. split; [constructor|].
    split; [|split]; intros key j; (split; [auto|]).
    + intros [?|[_ (l & Hin & _)]]; [auto|destruct Hin].
    + intros [?|[_ (l & Hin & _)]]; [auto|destruct Hin].
    + intros [?|[_ (l & s & Hin & _)]]; [auto|destruct Hin].
  - cbn [processLegsV2].
    destruct (processLegV2_spec idx ua ul uu rawLeg)
      as (leg & ua1 & ul1 & uu1 & -> & Hleg & Ha & Hl & Hu).
    destruct (IH ua1 ul1 uu1) as (legs & ua2 & ul2 & uu2 & -> & Hlegs & Ha2 & Hl2 & Hu2).
    exists (leg :: legs), ua2, ul2, uu2. split; [reflexivity|].
    split; [constructor; auto|]. split; [|split].
    + intros key j. rewrite Ha2, Ha. split.
      * intros [[?|[-> ?]]|[-> (l & Hin & Hk)]]; auto.
        -- right. split; auto. exists rawLeg. simpl; auto.
        -- right. split; auto. exists l. simpl; auto.
      * intros [?|[-> (l & [<-|Hin] & Hk)]]; auto. right. eauto.
    + intros key j. rewrite Hl2, Hl. split.
      * intros [[?|[-> ?]]|[-> (l & Hin & Hk)]]; auto.
        -- right. split; auto. exists rawLeg. simpl; auto.
        -- right. split; auto. exists l. simpl; auto.
      * intros [?|[-> (l & [<-|Hin] & Hk)]]; auto. right. eauto.
    + intros key j. rewrite Hu2, Hu. split.
      * intros [[?|[-> (s & Hs & Hk)]]|[-> (l & s & Hin & Hs & Hk)]]; auto.
        -- right. split; auto. exists rawLeg, s. simpl; auto.
        -- right. split; auto. exists l, s. simpl; auto.
      * intros [?|[-> (l & s & [<-|Hin] & Hs & Hk)]]; auto.
        -- left. right. split; auto. exists s. auto.
        -- right. split; auto. exists l, s. auto.
Qed.

(** The loop over the flights, from any state. *)
Lemma processFlightsV2_spec (flights : list RawFlightV2) (acc : Acc) :
  let acc' := fold_left (processFlightV2 dataUsers exportedUsers currentUser) flights acc in
  exists added,
    acc_flights acc' = acc_flights acc ++ added /\
    Forall2 (importedFlight dataUsers exportedUsers currentUser) flights added /\
    (forall key j, In j (indicesOf (acc_unknownAirports acc') key) <->
       In j (indicesOf (acc_unknownAirports acc) key) \/
       exists k rf leg, j = (List.length (acc_flights acc) + k)%nat /\
                        nth_error flights k = Some rf /\
                        In leg (r2_legs rf) /\ In key (missingAirports leg)) /\
    (forall key j, In j (indicesOf (acc_unknownAirlines acc') key) <->
       In j (indicesOf (acc_unknownAirlines acc) key) \/
       exists k rf leg, j = (List.length (acc_flights acc) + k)%nat /\
                        nth_error flights k = Some rf /\
                        In leg (r2_legs rf) /\ In key (missingAirline (rleg_airline leg))) /\
    (forall key j, In j (indicesOf (acc_unknownUsers acc') key) <->
       In j (indicesOf (acc_unknownUsers acc) key) \/
       exists k rf leg seat, j = (List.length (acc_flights acc) + k)%nat /\
                        nth_error flights k = Some rf /\
                        In leg (r2_legs rf) /\ In seat (rleg_seats leg) /\
                        unresolvedAs dataUsers exportedUsers userList key seat = true).
Proof.
  revert acc. induction flights as [|rf flights IH]; intros acc; cbv zeta.
  - exists []. simpl. rewrite app_nil_r. split; auto. split; [constructor|].
    split; [|split]; intros key j; (split; [auto|]).
    + intros [?|(k & ? & ? & _ & Hnth & _)]; auto. destruct k; discriminate.
    + intros [?|(k & ? & ? & _ & Hnth & _)]; auto. destruct k; discriminate.
    + intros [?|(k & ? & ? & ? & _ & Hnth & _)]; auto. destruct k; discriminate.
  - cbn [fold_left].
    destruct (processLegsV2_spec (List.length (acc_flights acc)) (r2_legs rf)
                (acc_unknownAirports acc) (acc_unknownAirlines acc) (acc_unknownUsers acc))
      as (legs & ua1 & ul1 & uu1 & Estep & Hlegs & Ha & Hl & Hu).
    set (acc1 := processFlightV2 dataUsers exportedUsers currentUser acc rf).
    assert (E1 : acc1 = {| acc_flights :=
                             acc_flights acc ++
                             [ {| cf_date := r2_date rf;
                                  cf_flightReason := r2_flightReason rf;
                                  cf_note := r2_note rf;
                                  cf_legs := legs |} ];
                           acc_unknownAirports := ua1;
                           acc_unknownAirlines := ul1;
                           acc_unknownUsers := uu1 |}).
    { unfold acc1, processFlightV2. now rewrite Estep. }
    destruct (IH acc1) as (added & Ef & Hadded & Ha2 & Hl2 & Hu2).
    cbv zeta in Ef, Ha2, Hl2, Hu2.
    assert (Elen : List.length (acc_flights acc1) = S (List.length (acc_flights acc))).
    { rewrite E1. cbn. rewrite length_app. simpl. lia. }
    rewrite Elen in Ha2, Hl2, Hu2.
    exists ({| cf_date := r2_date rf; cf_flightReason := r2_flightReason rf;
               cf_note := r2_note rf; cf_legs := legs |} :: added).
    split; [|split; [|split; [|split]]].
    + rewrite Ef, E1. cbn. now rewrite <- app_assoc.
    + constructor; auto. unfold importedFlight. cbn. auto.
    + intros key j. rewrite Ha2, E1. cbn [acc_unknownAirports]. rewrite Ha. split.
      * intros [[?|[-> (leg & Hin & Hk)]]|(k & rf' & leg & -> & Hnth & Hin & Hk)]; auto.
        -- right. exists 0%nat, rf, leg. rewrite Nat.add_0_r. auto.
        -- right. exists (S k), rf', leg. repeat split; auto; lia.
      * intros [?|(k & rf' & leg & -> & Hnth & Hin & Hk)]; auto.
        destruct k as [|k]; simpl in Hnth.
        -- injection Hnth as <-. left. right. rewrite Nat.add_0_r. eauto.
        -- right. exists k, rf', leg. repeat split; auto; lia.
    + intros key j. rewrite Hl2, E1. cbn [acc_unknownAirlines]. rewrite Hl. split.
      * intros [[?|[-> (leg & Hin & Hk)]]|(k & rf' & leg & -> & Hnth & Hin & Hk)]; auto.
        -- right. exists 0%nat, rf, leg. rewrite Nat.add_0_r. auto.
        -- right. exists (S k), rf', leg. repeat split; auto; lia.
      * intros [?|(k & rf' & leg & -> & Hnth & Hin & Hk)]; auto.
        destruct k as [|k]; simpl in Hnth.
        -- injection Hnth as <-. left. right. rewrite Nat.add_0_r. eauto.
        -- right. exists k, rf', leg. repeat split; auto; lia.
    + intros key j. rewrite Hu2, E1. cbn [acc_unknownUsers]. rewrite Hu. split.
      * intros [[?|[-> (leg & s & Hin & Hs & Hk)]]|(k & rf' & leg & s & -> & Hnth & Hin & Hs & Hk)];
          auto.
        -- right. exists 0%nat, rf, leg, s. rewrite Nat.add_0_r. auto.
        -- right. exists (S k), rf', leg, s. repeat split; auto; lia.
      * intros [?|(k & rf' & leg & s & -> & Hnth & Hin & Hs & Hk)]; auto.
        destruct k as [|k]; simpl in Hnth.
        -- injection Hnth as <-. left. right. rewrite Nat.add_0_r.
           split; auto. exists leg, s. auto.
        -- right. exists k, rf', leg, s. repeat split; auto; lia.
Qed.

End ProcessFacts.

Lemma Forall2_right {A B} (R : A -> B -> Prop) (xs : list A) (ys : list B) (y : B) :
  Forall2 R xs ys -> In y ys -> exists x, In x xs /\ R x y.
Proof.
  induction 1 as [|x y' xs ys Hxy Hrest IH]; simpl; [intros []|].
  intros [<-|Hin]; [eauto|]. destruct (IH Hin) as (x' & Hx' & Hr). eauto.
Qed.

Lemma Forall2_nth {A B} (R : A -> B -> Prop) (xs : list A) (ys : list B) (k : nat) (x : A) :
  Forall2 R xs ys -> nth_error xs k = Some x -> exists y, nth_error ys k = Some y /\ R x y.
Proof.
  intros Hf. revert k. induction Hf as [|x' y' xs ys Hxy Hrest IH]; intros [|k]; simpl;
    try discriminate.
  - intros [= <-]. eauto.
  - apply IH.
Qed.

(** X14.  [processV2] makes one flight of each flight of the file, in
    order, with its date, reason and note, and one leg of each leg, with
    the airports, airline and aircraft that the lookups find, the leg
    columns of the file and the seats that [resolveSeats] returns.  When
    the importing user's name is no other user's, the importing user has
    a seat on every leg, and so travels on every flight with a leg. *)
Theorem version2_flights_follow_the_file {L : AirTrail.Lookups} (users : list AirTrail.DataUser)
        (flights : list AirTrail.RawFlightV2) (currentUser : AirTrail.AppUser) :
  let p := AirTrail.processV2 users flights currentUser in
  Forall2 (importedFlight (AirTrail.dataUsersOf users) (AirTrail.exportedUsersOf users)
                          currentUser)
          flights (AirTrail.p_flights p) /\
  (ownName AirTrail.userList currentUser ->
   (forall f leg, In f (AirTrail.p_flights p) -> In leg (cf_legs f) ->
      exists s, In s (cl_seats leg) /\ seat_userId s = Some (AirTrail.au_id currentUser)) /\
   (forall f, In f (AirTrail.p_flights p) -> cf_legs f <> [] ->
      travelsOn (AirTrail.au_id currentUser) f)).
Proof.
  cbv zeta. unfold AirTrail.processV2. cbn [AirTrail.p_flights].
  destruct (processFlightsV2_spec (AirTrail.dataUsersOf users) (AirTrail.exportedUsersOf users)
              currentUser flights
              (AirTrail.mkAcc [] [] [] [])) as (added & Ef & Hadded & _).
  cbv zeta in Ef. cbn [AirTrail.acc_flights app] in Ef. rewrite Ef.
  split; [exact Hadded|]. intros Hown.
  assert (Hseat : forall f leg, In f added -> In leg (cf_legs f) ->
            exists s, In s (cl_seats leg) /\ seat_userId s = Some (AirTrail.au_id currentUser)).
  { intros f leg Hf Hleg.
    destruct (Forall2_right _ _ _ _ Hadded Hf) as (rf & _ & _ & _ & _ & Hlegs).
    destruct (Forall2_right _ _ _ _ Hlegs Hleg) as (rleg & _ & _ & _ & _ & _ & _ & ->).
    now apply resolveSeats_own_seat. }
  split; [exact Hseat|].
  intros f Hf Hne. destruct (cf_legs f) as [|leg rest] eqn:El; [congruence|].
  destruct (Hseat f leg Hf) as (s & Hs & Hu); [rewrite El; now left|].
  exists 0%nat, leg, s. rewrite El. auto.
Qed.

(** X15.  The report of [processV2] is exact.  A flight index is noted
    under an airport code exactly when a leg of that flight of the file
    names the code and no airport is found for it, under an airline code
    exactly when a leg names it and no airline is found, and under a user
    key exactly when [dataUsers] answers for a seat of that flight with
    this key and the seat resolves to no user of the application.  So a
    flight with a seat whose user id names a property of
    [Object.prototype], and no entry of the file, is noted under
    [undefined|undefined|undefined]. *)
Theorem version2_report_is_exact {L : AirTrail.Lookups} (users : list AirTrail.DataUser)
        (flights : list AirTrail.RawFlightV2) (currentUser : AirTrail.AppUser)
        (key : string) (i : nat) :
  let p := AirTrail.processV2 users flights currentUser in
  (In i (indicesOf (AirTrail.p_unknownAirports p) key) <->
   exists rf leg, nth_error flights i = Some rf /\ In leg (AirTrail.r2_legs rf) /\
                  In key (missingAirports leg)) /\
  (In i (indicesOf (AirTrail.p_unknownAirlines p) key) <->
   exists rf leg, nth_error flights i = Some rf /\ In leg (AirTrail.r2_legs rf) /\
                  In key (missingAirline (AirTrail.rleg_airline leg))) /\
  (In i (indicesOf (AirTrail.p_unknownUsers p) key) <->
   exists rf leg seat, nth_error flights i = Some rf /\ In leg (AirTrail.r2_legs rf) /\
                       In seat (AirTrail.rleg_seats leg) /\
                       unresolvedAs (AirTrail.dataUsersOf users) (AirTrail.exportedUsersOf users)
                                    AirTrail.userList key seat = true) /\
  (forall rf leg seat name,
     nth_error flights i = Some rf -> In leg (AirTrail.r2_legs rf) ->
     In seat (AirTrail.rleg_seats leg) -> seat_userId seat = Some name ->
     In name AirTrail.objectPrototypeKeys ->
     ~ In name (map AirTrail.du_id users) ->
     In i (indicesOf (AirTrail.p_unknownUsers p) "undefined|undefined|undefined")) /\
  (forall rf, nth_error flights i = Some rf ->
     exists f, nth_error (AirTrail.p_flights p) i = Some f /\
               cf_date f = AirTrail.r2_date rf).
Proof.
  cbv zeta. unfold AirTrail.processV2.
  cbn [AirTrail.p_flights AirTrail.p_unknownAirports AirTrail.p_unknownAirlines
       AirTrail.p_unknownUsers].
  destruct (processFlightsV2_spec (AirTrail.dataUsersOf users) (AirTrail.exportedUsersOf users)
              currentUser flights
              (AirTrail.mkAcc [] [] [] [])) as (added & Ef & Hadded & Ha & Hl & Hu).
  cbv zeta in Ef, Ha, Hl, Hu. cbn in Ef.
  split; [|split; [|split; [|split]]].
  - rewrite Ha. cbn. split.
    + intros [[]|(k & rf & leg & -> & Hnth & Hin & Hk)]. eauto.
    + intros (rf & leg & Hnth & Hin & Hk). right. exists i, rf, leg. auto.
  - rewrite Hl. cbn. split.
    + intros [[]|(k & rf & leg & -> & Hnth & Hin & Hk)]. eauto.
    + intros (rf & leg & Hnth & Hin & Hk). right. exists i, rf, leg. auto.
  - rewrite Hu. cbn. split.
    + intros [[]|(k & rf & leg & s & -> & Hnth & Hin & Hs & Hk)]. exists rf, leg, s. auto.
    + intros (rf & leg & s & Hnth & Hin & Hs & Hk). right. exists i, rf, leg, s. auto.
  - intros rf leg seat name Hnth Hleg Hseat Eid Hname Hno.
    destruct (dataUsersOf_absent users name Hno) as (Hown & Hproto).
    apply Hu. right. exists i, rf, leg, seat. cbn. repeat split; auto.
    now rewrite (prototype_name_is_unresolved _ _ _ seat name _ Eid Hname Hown Hproto).
  - intros rf Hnth. rewrite Ef.
    destruct (Forall2_nth _ _ _ _ _ Hadded Hnth) as (f & Hf & Hd & _). eauto.
Qed.

(** ** The flights and the report of a version 1 file *)

Section ProcessV1Facts.

Import AirTrail.

Context {L : Lookups}.

Variables (dataUsers : DataUsers) (exportedUsers : list ExportedUser)
          (currentUser : AppUser).

Lemma processFlightV1_spec (acc : Acc) (rf : RawFlightV1) :
  let acc' := processFlightV1 dataUsers exportedUsers currentUser acc rf in
  exists f,
    acc_flights acc' = acc_flights acc ++ [f] /\
    importedFlightV1 dataUsers exportedUsers currentUser rf f /\
    (forall key j, In j (indicesOf (acc_unknownAirports acc') key) <->
       In j (indicesOf (acc_unknownAirports acc) key) \/
       (j = List.length (acc_flights acc) /\ missingAirportV1 key rf)) /\
    (forall key j, In j (indicesOf (acc_unknownAirlines acc') key) <->
       In j (indicesOf (acc_unknownAirlines acc) key) \/
       (j = List.length (acc_flights acc) /\ In key (missingAirline (r1_airline rf)))) /\
    (forall key j, In j (indicesOf (acc_unknownUsers acc') key) <->
       In j (indicesOf (acc_unknownUsers acc) key) \/
       (j = List.length (acc_flights acc) /\
        exists seat, In seat (r1_seats rf) /\
                     unresolvedAs dataUsers exportedUsers userList key seat = true)).
Proof.
  cbv zeta. unfold processFlightV1.
  pose proof (resolveSeats_noted_iff dataUsers exportedUsers currentUser (r1_seats rf)
                                     userList (acc_unknownUsers acc)
                                     (List.length (acc_flights acc))) as Hu.
  pose proof (resolveSeats_fst dataUsers exportedUsers userList currentUser
                               (List.length (acc_flights acc)) 0
                               (r1_seats rf) (acc_unknownUsers acc) []) as Hs.
  destruct (resolveSeats (r1_seats rf) dataUsers exportedUsers userList currentUser
                         (List.length (acc_flights acc)) (acc_unknownUsers acc))
    as [seats uu'].
  cbn [fst snd] in Hu, Hs.
  eexists. split; [reflexivity|]. split; [|split; [|split]].
  - unfold importedFlightV1. cbn. repeat split; auto.
    eexists. split; [reflexivity|]. cbn. repeat split; auto.
  - intros key j. cbn [acc_unknownAirports]. unfold missingAirportV1, airportV1.
    destruct (orLookup (airportMapping (ra_icao (r1_from rf))) _) as [a|];
      destruct (orLookup (airportMapping (ra_icao (r1_to rf))) _) as [b|];
      rewrite ?noted_iff; intuition congruence.
  - intros key j. cbn [acc_unknownAirlines]. apply noteAirline_iff.
  - intros key j. cbn [acc_unknownUsers]. apply Hu.
Qed.

Lemma processFlightsV1_spec (flights : list RawFlightV1) (acc : Acc) :
  let acc' := fold_left (processFlightV1 dataUsers exportedUsers currentUser) flights acc in
  exists added,
    acc_flights acc' = acc_flights acc ++ added /\
    Forall2 (importedFlightV1 dataUsers exportedUsers currentUser) flights added /\
    (forall key j, In j (indicesOf (acc_unknownAirports acc') key) <->
       In j (indicesOf (acc_unknownAirports acc) key) \/
       exists k rf, j = (List.length (acc_flights acc) + k)%nat /\
                    nth_error flights k = Some rf /\ missingAirportV1 key rf) /\
    (forall key j, In j (indicesOf (acc_unknownAirlines acc') key) <->
       In j (indicesOf (acc_unknownAirlines acc) key) \/
       exists k rf, j = (List.length (acc_flights acc) + k)%nat /\
                    nth_error flights k = Some rf /\
                    In key (missingAirline (r1_airline rf))) /\
    (forall key j, In j (indicesOf (acc_unknownUsers acc') key) <->
       In j (indicesOf (acc_unknownUsers acc) key) \/
       exists k rf seat, j = (List.length (acc_flights acc) + k)%nat /\
                    nth_error flights k = Some rf /\ In seat (r1_seats rf) /\
                    unresolvedAs dataUsers exportedUsers userList key seat = true).
Proof.
  revert acc. induction flights as [|rf flights IH]; intros acc; cbv zeta.
  - exists []. simpl. rewrite app_nil_r. split; auto. split; [constructor|].
    split; [|split]; intros key j; (split; [auto|]).
    + intros [?|(k & ? & _ & Hnth & _)]; auto. destruct k; discriminate.
    + intros [?|(k & ? & _ & Hnth & _)]; auto. destruct k; discriminate.
    + intros [?|(k & ? & ? & _ & Hnth & _)]; auto. destruct k; discriminate.
  - cbn [fold_left].
    destruct (processFlightV1_spec acc rf) as (f & E1 & Hf & Ha & Hl & Hu).
    cbv zeta in E1, Ha, Hl, Hu.
    set (acc1 := processFlightV1 dataUsers exportedUsers currentUser acc rf) in *.
    destruct (IH acc1) as (added & Ef & Hadded & Ha2 & Hl2 & Hu2).
    cbv zeta in Ef, Ha2, Hl2, Hu2.
    assert (Elen : List.length (acc_flights acc1) = S (List.length (acc_flights acc))).
    { rewrite E1, length_app. simpl. lia. }
    rewrite Elen in Ha2, Hl2, Hu2.
    exists (f :: added).
    split; [|split; [|split; [|split]]].
    + rewrite Ef, E1. now rewrite <- app_assoc.
    + constructor; auto.
    + intros key j. rewrite Ha2, Ha. split.
      * intros [[?|[-> Hk]]|(k & rf' & -> & Hnth & Hk)]; auto.
        -- right. exists 0%nat, rf. rewrite Nat.add_0_r. auto.
        -- right. exists (S k), rf'. repeat split; auto; lia.
      * intros [?|(k & rf' & -> & Hnth & Hk)]; auto.
        destruct k as [|k]; simpl in Hnth.
        -- injection Hnth as <-. left. right. rewrite Nat.add_0_r. auto.
        -- right. exists k, rf'. repeat split; auto; lia.
    + intros key j. rewrite Hl2, Hl. split.
      * intros [[?|[-> Hk]]|(k & rf' & -> & Hnth & Hk)]; auto.
        -- right. exists 0%nat, rf. rewrite Nat.add_0_r. auto.
        -- right. exists (S k), rf'. repeat split; auto; lia.
      * intros [?|(k & rf' & -> & Hnth & Hk)]; auto.
        destruct k as [|k]; simpl in Hnth.
        -- injection Hnth as <-. left. right. rewrite Nat.add_0_r. auto.
        -- right. exists k, rf'. repeat split; auto; lia.
    + intros key j. rewrite Hu2, Hu. split.
      * intros [[?|[-> (s & Hs & Hk)]]|(k & rf' & s & -> & Hnth & Hs & Hk)]; auto.
        -- right. exists 0%nat, rf, s. rewrite Nat.add_0_r. auto.
        -- right. exists (S k), rf', s. repeat split; auto; lia.
      * intros [?|(k & rf' & s & -> & Hnth & Hs & Hk)]; auto.
        destruct k as [|k]; simpl in Hnth.
        -- injection Hnth as <-. left. right. rewrite Nat.add_0_r.
           split; auto. exists s. auto.
        -- right. exists k, rf', s. repeat split; auto; lia.
Qed.

End ProcessV1Facts.

(** X16.  [processV1] makes of each flight of a version 1 file, in order,
    a flight with one leg: the date, reason and note of the file, the
    airports, airline and aircraft that the lookups find, the columns of
    the file and the seats that [resolveSeats] returns; when the importing
    user's name is no other user's, the importing user travels on each.
    A flight index is noted under an airport code exactly when that flight
    departs from or arrives at the code and no airport is found for it. *)
Theorem version1_flights_have_one_leg {L : AirTrail.Lookups} (users : list AirTrail.DataUser)
        (flights : list AirTrail.RawFlightV1) (currentUser : AirTrail.AppUser) :
  let p := AirTrail.processV1 users flights currentUser in
  Forall2 (importedFlightV1 (AirTrail.dataUsersOf users) (AirTrail.exportedUsersOf users)
                            currentUser)
          flights (AirTrail.p_flights p) /\
  (ownName AirTrail.userList currentUser ->
   forall f, In f (AirTrail.p_flights p) -> travelsOn (AirTrail.au_id currentUser) f) /\
  (forall key i,
     In i (indicesOf (AirTrail.p_unknownAirports p) key) <->
     exists rf, nth_error flights i = Some rf /\ missingAirportV1 key rf).
Proof.
  cbv zeta. unfold AirTrail.processV1.
  cbn [AirTrail.p_flights AirTrail.p_unknownAirports].
  destruct (processFlightsV1_spec (AirTrail.dataUsersOf users) (AirTrail.exportedUsersOf users)
              currentUser flights
              (AirTrail.mkAcc [] [] [] [])) as (added & Ef & Hadded & Ha & _).
  cbv zeta in Ef, Ha. cbn in Ef. rewrite Ef.
  split; [exact Hadded|]. split.
  - intros Hown f Hf.
    destruct (Forall2_right _ _ _ _ Hadded Hf)
      as (rf & _ & _ & _ & _ & leg & El & _ & _ & _ & _ & _ & Es).
    destruct (resolveSeats_own_seat (AirTrail.r1_seats rf) (AirTrail.dataUsersOf users)
                (AirTrail.exportedUsersOf users) AirTrail.userList currentUser 0 [] Hown)
      as (s & Hs & Hu).
    exists 0%nat, leg, s. rewrite El, Es. auto.
  - intros key i. rewrite Ha. cbn. split.
    + intros [[]|(k & rf & -> & Hnth & Hk)]. eauto.
    + intros (rf & Hnth & Hk). right. exists i, rf. auto.
Qed.

(** ** Creating a flight and listing it *)

Lemma seat_checks_agree (db : DB) (user : User) (fr : FlightRow) :
  userHasSeatOn db (user_id user) fr = holdsSeat user (Some (flightWithLegs db fr)).
Proof.
  apply Bool.eq_iff_eq_true. rewrite userHasSeatOn_seat, holdsSeat_seat. tauto.
Qed.

Lemma holdsSeat_by_seats (user : User) (fl : Flight) :
  holdsSeat user (Some fl) =
  existsb (existsb (fun s => sqlEqStr (seat_userId s) (user_id user)))
          (map (fun l => map seatOfRow (l_seats l)) (fl_legs fl)).
Proof.
  unfold holdsSeat. induction (fl_legs fl) as [|l ls IH]; simpl; auto.
  rewrite IH. f_equal. clear. induction (l_seats l) as [|s ss IH]; simpl; auto.
  now rewrite IH.
Qed.

(** The rows that the list query of the model returns once a flight
    went in: those of before, and the new flight when the user is on
    board. *)
Lemma new_flight_in_lists (db : DB) (user : User) (input : CreateFlight) :
  consistent db ->
  exists fl,
    getFlight (flightsAdded db [input]) (db_nextFlightId db) = Some fl /\
    FlightRouter.list (flightsAdded db [input]) user =
      FlightRouter.list db user ++ (if onBoard (user_id user) input then [fl] else []).
Proof.
  intros Hc.
  destruct (createFlightPrimitive_read_back db input Hc)
    as (db' & fl & Ecreate & Eget & Erow & _ & Es & _ & Hothers).
  rewrite <- Ecreate. exists fl. split; [exact Eget|].
  assert (Ef : db_flight db' = db_flight db ++ [flightRowOf (db_nextFlightId db) input]).
  { rewrite Ecreate. cbn [flightsAdded insertFlightRow].
    destruct (insertLegsFrom_exact (cf_legs input) (fst (insertFlightRow db input))
                                   (db_nextFlightId db) 0) as (_ & _ & _ & E & _).
    exact E. }
  assert (Efl : fl = flightWithLegs db' (flightRowOf (db_nextFlightId db) input)).
  { unfold getFlightPrimitive in Eget. rewrite Ef in Eget.
    rewrite find_app_last in Eget.
    - now injection Eget as <-.
    - intros r Hr. apply Z.eqb_neq. destruct Hc as (_ & _ & H3 & _). apply H3 in Hr. lia.
    - apply Z.eqb_refl. }
  assert (Hold : forall fr, In fr (db_flight db) ->
                            flightWithLegs db' fr = flightWithLegs db fr).
  { intros fr Hfr.
    assert (Hne : flight_id fr <> db_nextFlightId db).
    { destruct Hc as (_ & _ & H3 & _). apply H3 in Hfr. lia. }
    assert (Hnd : NoDup (map flight_id (db_flight db))) by apply Hc.
    assert (G : forall d, (forall r, In r (db_flight d) -> flight_id r = flight_id fr -> r = fr) ->
                          In fr (db_flight d) ->
                          getFlightPrimitive d (flight_id fr) = Some (flightWithLegs d fr)).
    { intros d Huniq Hin. unfold getFlightPrimitive.
      destruct (find (fun r => Z.eqb (flight_id r) (flight_id fr)) (db_flight d)) as [r|] eqn:E.
      - apply find_some in E as [Hr Er]. apply Z.eqb_eq in Er.
        now rewrite (Huniq r Hr Er).
      - apply (find_none _ _ E) in Hin. rewrite Z.eqb_refl in Hin. discriminate. }
    assert (Huniq : forall r, In r (db_flight db) -> flight_id r = flight_id fr -> r = fr).
    { clear - Hnd Hfr. induction (db_flight db) as [|x xs IH]; simpl in *; [tauto|].
      inversion Hnd as [|? ? Hnotin Hrest]; subst.
      intros r [->|Hr] E; destruct Hfr as [->|Hfr]; auto.
      - exfalso. apply Hnotin. rewrite E. now apply in_map.
      - exfalso. apply Hnotin. rewrite <- E. now apply in_map. }
    pose proof (Hothers (flight_id fr) Hne) as E.
    rewrite (G db Huniq Hfr) in E. rewrite G in E.
    - congruence.
    - intros r Hr Er. rewrite Ef in Hr. apply in_app_or in Hr as [Hr|[<-|[]]]; auto.
      cbn in Er. congruence.
    - rewrite Ef. apply in_or_app. now left. }
  unfold FlightRouter.list, listFlights, listFlightPrimitive, listFlightBaseQuery.
  rewrite Ef, filter_app, map_app. f_equal.
  - rewrite (filter_ext_in (userHasSeatOn db' (user_id user))
                           (userHasSeatOn db (user_id user))).
    + apply map_ext_in. intros fr Hfr. apply filter_In in Hfr as [Hfr _]. auto.
    + intros fr Hfr. rewrite !seat_checks_agree. now rewrite Hold.
  - cbn [filter]. rewrite seat_checks_agree, <- Efl, holdsSeat_by_seats, Es.
    unfold onBoard.
    replace (existsb (existsb (fun s => sqlEqStr (seat_userId s) (user_id user)))
                     (map cl_seats (cf_legs input)))
      with (existsb (fun leg => existsb (fun s => sqlEqStr (seat_userId s) (user_id user))
                                        (cl_seats leg)) (cf_legs input)).
    + destruct (existsb _ (cf_legs input)); cbn; congruence.
    + clear. induction (cf_legs input) as [|l ls IH]; simpl; congruence.
Qed.



Lemma onBoard_by_seats (userId : string) (f : CreateFlight) :
  existsb (existsb (fun s => sqlEqStr (seat_userId s) userId)) (map cl_seats (cf_legs f)) =
  onBoard userId f.
Proof.
  unfold onBoard. induction (cf_legs f) as [|l ls IH]; simpl; congruence.
Qed.


(** ** The visited airports *)

Section Visited.

Import Data.

Lemma hitsIn_snoc (direction : Direction) (name : string)
      (calls : list (FlightD * LegD * Direction)) (call : FlightD * LegD * Direction) :
  hitsIn direction name (calls ++ [call]) =
  hitsIn direction name calls + (if callHits direction name call then 1 else 0).
Proof.
  unfold hitsIn. rewrite filter_app, length_app. simpl.
  destruct (callHits direction name call); simpl; lia.
Qed.

Lemma hitsIn_nonneg (direction : Direction) (name : string)
      (calls : list (FlightD * LegD * Direction)) :
  0 <= hitsIn direction name calls.
Proof. unfold hitsIn. lia. Qed.

Lemma onFirst_names (name : string) (change : Visit -> Visit) (visited : list Visit) :
  (forall v, visitName (change v) = visitName v) ->
  map visitName (onFirst name change visited) = map visitName visited.
Proof.
  intros Hch. induction visited as [|v rest IH]; simpl; auto.
  fold (visitName v). destruct (String.eqb (visitName v) name); simpl.
  - now rewrite Hch.
  - now rewrite IH.
Qed.

Lemma onFirst_In (name : string) (change : Visit -> Visit) (visited : list Visit)
      (v' : Visit) :
  NoDup (map visitName visited) ->
  In v' (onFirst name change visited) ->
  (In v' visited /\ visitName v' <> name) \/
  (exists v, In v visited /\ visitName v = name /\ v' = change v).
Proof.
  induction visited as [|v rest IH]; simpl; intros Hnd Hin; [destruct Hin|].
  inversion Hnd as [|? ? Hnotin Hrest]; subst.
  fold (visitName v) in Hin. destruct (String.eqb_spec (visitName v) name) as [E|Hne].
  - destruct Hin as [<-|Hin].
    + right. exists v. auto.
    + left. split; auto. intros E'. apply Hnotin. rewrite E, <- E'. now apply in_map.
  - destruct Hin as [<-|Hin]; [left; auto|].
    destruct (IH Hrest Hin) as [[H1 H2]|(v0 & H1 & H2 & H3)]; [left; auto|].
    right. exists v0. auto.
Qed.

Lemma find_name_none (name : string) (visited : list Visit) :
  find (fun v => String.eqb (place_name (v_airport v)) name) visited = None <->
  ~ In name (map visitName visited).
Proof.
  induction visited as [|v rest IH]; simpl; [tauto|].
  fold (visitName v). destruct (String.eqb_spec (visitName v) name) as [E|Hne].
  - split; [discriminate|]. intros Hn. exfalso. apply Hn. auto.
  - rewrite IH. tauto.
Qed.

Lemma countVisit_name (flight : FlightD) (leg : LegD) (direction : Direction) (v : Visit) :
  visitName (countVisit flight leg direction v) = visitName v.
Proof. reflexivity. Qed.

Lemma hasNum_true (s : list Z) (z : Z) : Js.hasNum s z = true <-> In z s.
Proof.
  unfold Js.hasNum. rewrite existsb_exists. split.
  - intros (x & Hx & E). apply Z.eqb_eq in E. now subst.
  - intros Hin. exists z. split; auto. apply Z.eqb_refl.
Qed.

Lemma countVisit_airlines (flight : FlightD) (leg : LegD) (direction : Direction)
      (v : Visit) :
  NoDup (v_airlines v) -> NoDup (v_airlines (countVisit flight leg direction v)).
Proof.
  intros Hnd. unfold countVisit. cbn [v_airlines].
  destruct (ld_airline leg) as [a|]; auto.
  destruct (Js.hasNum (v_airlines v) (airline_id a)) eqn:E; cbn [negb]; auto.
  apply NoDup_app; auto.
  - constructor; [intros []|constructor].
  - intros x Hx [<-|[]]. apply hasNum_true in Hx. congruence.
Qed.

(** One call of [formatAirport]. *)
Lemma formatAirport_counted (calls : list (FlightD * LegD * Direction))
      (visited : list Visit) (flight : FlightD) (leg : LegD) (direction : Direction) :
  counted calls visited ->
  counted (calls ++ [(flight, leg, direction)]) (formatAirport visited flight leg direction).
Proof.
  intros (Hnd & Hv & Hnone). unfold formatAirport.
  assert (Hhit : forall d name,
             callHits d name (flight, leg, direction) =
             match d, direction with
             | From, From | To, To => endNamed d name leg
             | _, _ => false
             end) by reflexivity.
  destruct (endOf leg direction) as [airport|] eqn:Eend.
  - set (n0 := place_name airport).
    set (fresh := {| v_airport := airport; v_arrivals := 0; v_departures := 0;
                     v_airlines := []; v_flights := []; v_frequency := 0%float |}).
    assert (Hhit0 : forall d name,
               callHits d name (flight, leg, direction) = true <->
               d = direction /\ name = n0).
    { intros d name. rewrite Hhit. unfold endNamed.
      destruct d, direction; try rewrite Eend; fold n0;
        try (rewrite String.eqb_eq; intuition congruence);
        split; try discriminate; intros [? _]; discriminate. }
    assert (Hcnt : forall d name,
               hitsIn d name (calls ++ [(flight, leg, direction)]) =
               hitsIn d name calls +
               (if callHits d name (flight, leg, direction) then 1 else 0))
      by (intros; apply hitsIn_snoc).
    (* the list on which the visit is changed *)
    set (visited1 := match find (fun v => String.eqb (place_name (v_airport v)) n0) visited with
                     | Some _ => visited
                     | None => visited ++ [fresh]
                     end).
    assert (H1 : NoDup (map visitName visited1) /\
                 In n0 (map visitName visited1) /\
                 (forall v, In v visited1 ->
                    v_departures v = hitsIn From (visitName v) calls /\
                    v_arrivals v = hitsIn To (visitName v) calls /\
                    Z.of_nat (List.length (v_flights v)) = v_departures v + v_arrivals v /\
                    (visitName v <> n0 -> 0 < v_departures v + v_arrivals v) /\
                    NoDup (v_airlines v)) /\
                 (forall name, ~ In name (map visitName visited1) ->
                    hitsIn From name calls = 0 /\ hitsIn To name calls = 0)).
    { unfold visited1.
      destruct (find (fun v => String.eqb (place_name (v_airport v)) n0) visited) as [v0|] eqn:Ef.
      - split; [exact Hnd|]. split.
        + apply find_some in Ef as [Hin E]. apply String.eqb_eq in E.
          fold (visitName v0) in E. rewrite <- E. now apply in_map.
        + split; [|exact Hnone]. intros v Hin.
          destruct (Hv v Hin) as (A & B & C & D & E). repeat split; auto.
      - apply find_name_none in Ef. destruct (Hnone n0 Ef) as [Z1 Z2].
        split; [|split; [|split]].
        + rewrite map_app. apply NoDup_app; auto.
          * constructor; [intros []|constructor].
          * intros a Ha [<-|[]]. exact (Ef Ha).
        + rewrite map_app. apply in_or_app. right. left. reflexivity.
        + intros v Hin. apply in_app_or in Hin as [Hin|[<-|[]]].
          * destruct (Hv v Hin) as (A & B & C & D & E). repeat split; auto.
          * cbn. change (visitName fresh) with n0. rewrite Z1, Z2.
            repeat split; auto; try constructor. intros Hne. congruence.
        + intros name Hn. apply Hnone. intros Hin. apply Hn.
          rewrite map_app. apply in_or_app. now left. }
    fold visited1. destruct H1 as (Hnd1 & Hin1 & Hv1 & Hnone1).
    split; [|split].
    + rewrite onFirst_names; auto.
    + intros v' Hin'.
      apply onFirst_In in Hin' as [[Hin' Hne]|(v & Hin & E & ->)]; auto.
      * destruct (Hv1 v' Hin') as (A & B & C & D & E).
        assert (F1 : callHits From (visitName v') (flight, leg, direction) = false).
        { destruct (callHits From _ _) eqn:X; auto; apply Hhit0 in X as [_ X]; congruence. }
        assert (F2 : callHits To (visitName v') (flight, leg, direction) = false).
        { destruct (callHits To _ _) eqn:X; auto; apply Hhit0 in X as [_ X]; congruence. }
        rewrite !Hcnt, F1, F2, !Z.add_0_r. repeat split; auto.
      * destruct (Hv1 v Hin) as (A & B & C & _ & F).
        rewrite countVisit_name, !Hcnt.
        assert (G1 : callHits From (visitName v) (flight, leg, direction) =
                     match direction with From => true | To => false end).
        { rewrite E. destruct direction.
          - apply Hhit0. auto.
          - destruct (callHits From n0 _) eqn:X; auto; apply Hhit0 in X as [X _]; discriminate. }
        assert (G2 : callHits To (visitName v) (flight, leg, direction) =
                     match direction with From => false | To => true end).
        { rewrite E. destruct direction.
          - destruct (callHits To n0 _) eqn:X; auto; apply Hhit0 in X as [X _]; discriminate.
          - apply Hhit0. auto. }
        rewrite G1, G2.
        pose proof (hitsIn_nonneg From (visitName v) calls).
        pose proof (hitsIn_nonneg To (visitName v) calls).
        unfold countVisit. cbn [v_departures v_arrivals v_flights].
        rewrite length_app. cbn [List.length].
        split; [|split; [|split; [|split]]].
        -- destruct direction; lia.
        -- destruct direction; lia.
        -- destruct direction; lia.
        -- destruct direction; lia.
        -- now apply (countVisit_airlines flight leg direction v).
    + intros name Hn. rewrite onFirst_names in Hn by auto.
      destruct (Hnone1 name Hn) as [Z1 Z2].
      assert (Hne : name <> n0) by (intros ->; auto).
      assert (F1 : callHits From name (flight, leg, direction) = false).
      { destruct (callHits From _ _) eqn:X; auto; apply Hhit0 in X as [_ X]; congruence. }
      assert (F2 : callHits To name (flight, leg, direction) = false).
      { destruct (callHits To _ _) eqn:X; auto; apply Hhit0 in X as [_ X]; congruence. }
      rewrite !Hcnt, F1, F2, Z1, Z2. auto.
  - assert (F : forall d name, callHits d name (flight, leg, direction) = false).
    { intros d name. rewrite Hhit. unfold endNamed.
      destruct d, direction; try rewrite Eend; reflexivity. }
    split; [exact Hnd|]. split.
    + intros v Hin. destruct (Hv v Hin) as (A & B & C & D & E).
      rewrite !hitsIn_snoc, !F, !Z.add_0_r. repeat split; auto.
    + intros name Hn. destruct (Hnone name Hn) as [Z1 Z2].
      rewrite !hitsIn_snoc, !F, Z1, Z2. auto.
Qed.

Lemma calls_counted (calls done : list (FlightD * LegD * Direction)) (visited : list Visit) :
  counted done visited ->
  counted (done ++ calls)
          (fold_left (fun vis call => formatAirport vis (fst (fst call)) (snd (fst call))
                                                    (snd call))
                     calls visited).
Proof.
  revert done visited. induction calls as [|[[f l] d] calls IH]; intros done visited Hc.
  - simpl. now rewrite app_nil_r.
  - simpl. replace (done ++ (f, l, d) :: calls) with ((done ++ [(f, l, d)]) ++ calls)
      by (rewrite <- app_assoc; reflexivity).
    apply IH. now apply formatAirport_counted.
Qed.

Lemma visitsOf_calls (data : list FlightD) :
  visitsOf data =
  fold_left (fun vis call => formatAirport vis (fst (fst call)) (snd (fst call)) (snd call))
            (callsOf data) [].
Proof.
  unfold visitsOf, callsOf. generalize (@nil Visit).
  induction data as [|flight data IH]; intros visited; simpl; auto.
  rewrite fold_left_app, <- IH. f_equal.
  clear. revert visited. induction (fd_legs flight) as [|leg legs IH]; intros visited;
    simpl; auto.
Qed.

Lemma hitsIn_calls (direction : Direction) (name : string) (data : list FlightD) :
  hitsIn direction name (callsOf data) =
  Z.of_nat (List.length (endsAt direction name data)).
Proof.
  unfold hitsIn, endsAt, callsOf. f_equal.
  induction data as [|flight data IH]; simpl; auto.
  rewrite !filter_app, !length_app, IH. f_equal.
  clear. induction (fd_legs flight) as [|leg legs IH]; auto.
  cbn [flat_map app filter].
  replace (callHits direction name (flight, leg, From))
    with (match direction with From => endNamed From name leg | To => false end)
    by (destruct direction; reflexivity).
  replace (callHits direction name (flight, leg, To))
    with (match direction with From => false | To => endNamed To name leg end)
    by (destruct direction; reflexivity).
  destruct direction; destruct (endNamed _ name leg); cbn [List.length]; now rewrite IH.
Qed.

Lemma visitsOf_counted (data : list FlightD) : counted (callsOf data) (visitsOf data).
Proof.
  rewrite visitsOf_calls. apply (calls_counted (callsOf data) [] []).
  split; [constructor|]. split; [intros v []|]. intros name _. auto.
Qed.

Lemma minOf_same (c : Z) (cs : list Z) : (forall x, In x cs -> x = c) -> minOf c cs = c.
Proof.
  unfold minOf. induction cs as [|x cs IH]; simpl; intros Hall; auto.
  rewrite (Hall x) by auto. rewrite Z.min_id. apply IH. auto.
Qed.

Lemma maxOf_same (c : Z) (cs : list Z) : (forall x, In x cs -> x = c) -> maxOf c cs = c.
Proof.
  unfold maxOf. induction cs as [|x cs IH]; simpl; intros Hall; auto.
  rewrite (Hall x) by auto. rewrite Z.max_id. apply IH. auto.
Qed.

End Visited.

(** X19.  [prepareVisitedAirports] keeps one entry for each airport name
    that a leg departs from or arrives at, and none for any other name.
    The departures of an entry are the legs that depart from an airport of
    its name, its arrivals those that arrive at one; its flights are as
    many as both together, at least one; no airline id is listed twice.
    When all entries have the same number of visits, the frequency of
    each is 1. *)
Theorem visited_airports_are_counted (data : list Data.FlightD) :
  let visited := Data.prepareVisitedAirports data in
  NoDup (map visitName visited) /\
  (forall v, In v visited ->
     Data.v_departures v = Z.of_nat (List.length (endsAt Data.From (visitName v) data)) /\
     Data.v_arrivals v = Z.of_nat (List.length (endsAt Data.To (visitName v) data)) /\
     Z.of_nat (List.length (Data.v_flights v)) = Data.v_departures v + Data.v_arrivals v /\
     0 < Data.v_departures v + Data.v_arrivals v /\
     NoDup (Data.v_airlines v)) /\
  (forall name, In name (map visitName visited) <->
                endsAt Data.From name data <> [] \/ endsAt Data.To name data <> []) /\
  (forall v, In v visited ->
     (forall w, In w visited -> Data.combined w = Data.combined v) ->
     Data.v_frequency v = 1%float).
Proof.
  cbv zeta.
  destruct (visitsOf_counted data) as (Hnd & Hv & Hnone).
  assert (Hshape : exists g,
            Data.prepareVisitedAirports data = map g (Data.visitsOf data) /\
            (forall v, Data.v_airport (g v) = Data.v_airport v /\
                       Data.v_arrivals (g v) = Data.v_arrivals v /\
                       Data.v_departures (g v) = Data.v_departures v /\
                       Data.v_airlines (g v) = Data.v_airlines v /\
                       Data.v_flights (g v) = Data.v_flights v)).
  { unfold Data.prepareVisitedAirports.
    destruct (map Data.combined (Data.visitsOf data)) as [|c cs] eqn:Em.
    - exists (fun v => v). rewrite map_id. split; [reflexivity|]. intros v. repeat split.
    - eexists. split; [reflexivity|]. intros v. cbn. repeat split. }
  destruct Hshape as (g & Eg & Hg).
  assert (Hnames : map visitName (map g (Data.visitsOf data)) =
                   map visitName (Data.visitsOf data)).
  { rewrite map_map. apply map_ext. intros v. unfold visitName.
    now rewrite (proj1 (Hg v)). }
  split; [|split; [|split]].
  - rewrite Eg, Hnames. exact Hnd.
  - intros v' Hin. rewrite Eg in Hin. apply in_map_iff in Hin as (v & <- & Hin).
    destruct (Hg v) as (G1 & G2 & G3 & G4 & G5).
    destruct (Hv v Hin) as (A & B & C & D & E).
    unfold visitName. rewrite G1, G2, G3, G4, G5. fold (visitName v).
    rewrite <- !hitsIn_calls. auto.
  - intros name. rewrite Eg, Hnames. split.
    + intros Hin. apply in_map_iff in Hin as (v & <- & Hin).
      destruct (Hv v Hin) as (A & B & _ & D & _).
      rewrite A, B, !hitsIn_calls in D.
      destruct (endsAt Data.From (visitName v) data); [|left; discriminate].
      destruct (endsAt Data.To (visitName v) data); [|right; discriminate].
      simpl in D. lia.
    + intros Hends.
      destruct (in_dec string_dec name (map visitName (Data.visitsOf data))) as [|Hn]; auto.
      destruct (Hnone name Hn) as [Z1 Z2]. rewrite hitsIn_calls in Z1, Z2.
      destruct Hends as [Hne|Hne]; exfalso; apply Hne.
      * destruct (endsAt Data.From name data); [reflexivity|simpl in Z1; lia].
      * destruct (endsAt Data.To name data); [reflexivity|simpl in Z2; lia].
  - intros v Hin Hsame. unfold Data.prepareVisitedAirports in *.
    destruct (map Data.combined (Data.visitsOf data)) as [|c cs] eqn:Em.
    + destruct (Data.visitsOf data); [destruct Hin|discriminate].
    + apply in_map_iff in Hin as (v0 & <- & Hin0). cbn [Data.v_frequency].
      assert (Hall : forall x, In x (c :: cs) -> x = Data.combined v0).
      { intros x Hx. rewrite <- Em in Hx. apply in_map_iff in Hx as (w & <- & Hw).
        specialize (Hsame _ (in_map _ _ _ Hw)). cbn in Hsame. exact Hsame. }
      assert (Ec : c = Data.combined v0) by (apply Hall; now left).
      assert (Emin : Data.minOf c cs = c).
      { apply minOf_same. intros x Hx. rewrite Ec. apply Hall. now right. }
      assert (Emax : Data.maxOf c cs = c).
      { apply maxOf_same. intros x Hx. rewrite Ec. apply Hall. now right. }
      rewrite Emin, Emax, Z.sub_diag, <- Ec, Z.sub_diag. reflexivity.
Qed.

(** ** Importing a batch twice *)

(** The seat check of the list query stays true when leg and seat rows
    are appended. *)
Lemma userHasSeatOn_more (db db' : DB) (userId : string) (fr : FlightRow)
      (legs : list LegRow) (seats : list SeatRow) :
  db_leg db' = db_leg db ++ legs -> db_seat db' = db_seat db ++ seats ->
  userHasSeatOn db userId fr = true -> userHasSeatOn db' userId fr = true.
Proof.
  intros El Es. unfold userHasSeatOn. rewrite El, Es, !existsb_exists.
  intros (l & Hl & Hc). apply andb_true_iff in Hc as [Hfl Hc].
  exists l. split; [apply in_or_app; auto|].
  rewrite Hfl. cbn [andb]. rewrite existsb_app, Hc. reflexivity.
Qed.

(** What the user is listed with is still listed, unchanged, after one
    more flight went in. *)
Lemma listed_after_one_more (db : DB) (userId : string) (f : CreateFlight) (ef : Flight) :
  consistent db ->
  In ef (listFlightsQuery db userId) ->
  In ef (listFlightsQuery (flightsAdded db [f]) userId).
Proof.
  intros (_ & _ & Hfl & Hleg & _) Hef.
  unfold listFlightsQuery, listFlightBaseQuery in *.
  apply in_map_iff in Hef as (fr & <- & Hfr). apply filter_In in Hfr as [Hfr Hseat].
  cbn [flightsAdded insertFlightRow].
  match goal with |- context [legsAdded ?d _ _ _] => set (db0 := d) end.
  destruct (insertLegsFrom_exact (cf_legs f) db0 (db_nextFlightId db) 0)
    as (_ & _ & _ & Ef & _ & _ & El & extra & Es & _).
  cbv zeta in Ef, El, Es.
  apply in_map_iff. exists fr. split.
  - rewrite (other_flight_view_after_insert db0 (db_nextFlightId db) (cf_legs f) fr).
    + reflexivity.
    + specialize (Hfl fr Hfr). lia.
    + exact Hleg.
  - apply filter_In. split.
    + rewrite Ef. apply in_or_app. left. exact Hfr.
    + now apply (userHasSeatOn_more db _ userId fr _ extra El Es).
Qed.

Lemma serial_after_one_more (db : DB) (f : CreateFlight) :
  serialFlightIds db -> serialFlightIds (flightsAdded db [f]).
Proof.
  intros (Hnext & Hfl & Hleg).
  cbn [flightsAdded insertFlightRow].
  match goal with |- context [legsAdded ?d _ _ _] => set (db0 := d) end.
  destruct (insertLegsFrom_exact (cf_legs f) db0 (db_nextFlightId db) 0)
    as (_ & _ & _ & Ef & En & _ & El & _).
  cbv zeta in Ef, En, El. unfold serialFlightIds. rewrite Ef, En, El. cbn.
  split; [lia|]. split.
  - intros fr Hfr. apply in_app_or in Hfr as [Hfr|[<-|[]]].
    + specialize (Hfl fr Hfr). lia.
    + cbn. lia.
  - intros l Hl. apply in_app_or in Hl as [Hl|Hl].
    + specialize (Hleg l Hl). lia.
    + apply legRowsFrom_flightId in Hl as [-> _]. lia.
Qed.

Lemma airports_after_one_more (db : DB) (f : CreateFlight) :
  db_airport (flightsAdded db [f]) = db_airport db.
Proof.
  cbn [flightsAdded insertFlightRow].
  match goal with |- context [legsAdded ?d _ _ _] => set (db0 := d) end.
  now destruct (insertLegsFrom_exact (cf_legs f) db0 (db_nextFlightId db) 0) as (-> & _).
Qed.

Lemma createMany_cons (db : DB) (f : CreateFlight) (rest : list CreateFlight) :
  flightsAdded db (f :: rest) =
  flightsAdded (flightsAdded db [f]) rest.
Proof. reflexivity. Qed.

Lemma listed_after_bulk_insert (ins : list CreateFlight) (db : DB) (userId : string)
      (ef : Flight) :
  consistent db ->
  In ef (listFlightsQuery db userId) ->
  In ef (listFlightsQuery (flightsAdded db ins) userId).
Proof.
  revert db. induction ins as [|f ins IH]; intros db Hc Hef; [exact Hef|].
  rewrite createMany_cons. apply IH.
  - now apply consistent_createMany.
  - now apply listed_after_one_more.
Qed.

Lemma serial_after_bulk_insert (ins : list CreateFlight) (db : DB) :
  serialFlightIds db -> serialFlightIds (flightsAdded db ins).
Proof.
  revert db. induction ins as [|f ins IH]; intros db Hs; [exact Hs|].
  rewrite createMany_cons. apply IH. now apply serial_after_one_more.
Qed.

(** Every flight of an inserted batch on which the user travels is
    listed for the user afterwards, under its date and its signature. *)
Lemma inserted_batch_is_listed (ins : list CreateFlight) (db : DB) (userId : string)
      (g : CreateFlight) :
  consistent db -> serialFlightIds db ->
  In g ins ->
  Js.truthyNum (firstFromId g) = true ->
  knownAirport db (firstFromId g) -> knownAirport db (firstToId g) ->
  travelsOn userId g ->
  exists ef, In ef (listFlightsQuery (flightsAdded db ins) userId) /\
             fl_date ef = cf_date g /\
             signature (createFlightOf ef) = signature g.
Proof.
  revert db. induction ins as [|f ins IH]; intros db Hc Hs Hg Hfrom Kfrom Kto Htr;
    [destruct Hg|].
  rewrite createMany_cons. destruct Hg as [->|Hg].
  - destruct (inserted_flight_is_listed db userId g Hs Hfrom Kfrom Kto Htr)
      as (_ & ef & Hef & Edate & Esig).
    exists ef. split; [|auto].
    apply listed_after_bulk_insert; [now apply consistent_createMany|exact Hef].
  - apply IH; auto.
    + now apply consistent_createMany.
    + now apply serial_after_one_more.
    + unfold knownAirport. now rewrite airports_after_one_more.
    + unfold knownAirport. now rewrite airports_after_one_more.
Qed.


(** ** The imports and the constraints of the schema *)

(** An import that hands the engine only flights it accepts goes
    through. *)
Lemma accepted_batch_is_imported (db : DB) (data : list CreateFlight) (userId : string)
      (dedupe : bool) :
  consistent db ->
  forallb (flightAcceptable db) data = true ->
  fst (createManyFlights db data userId dedupe) <> None.
Proof.
  intros Hc Hok.
  assert (Hsub : forall ins, (forall g, In g ins -> In g data) ->
                             createManyFlightsPrimitive db ins = Some (flightsAdded db ins)).
  { intros ins Hins. rewrite (createManyFlightsPrimitive_accepts ins db Hc).
    replace (forallb (flightAcceptable db) ins) with true; [reflexivity|].
    symmetry. apply forallb_forall. intros g Hg.
    apply (proj1 (forallb_forall _ _) Hok). auto. }
  destruct dedupe.
  - rewrite createManyFlights_dedupe, partitionFlights_spec. cbv zeta. cbn [fst].
    rewrite Hsub; [discriminate|].
    intros g Hg. apply filter_In in Hg as [Hg _]. now apply uniqueFlightsOf_incl.
  - cbn [createManyFlights negb]. rewrite Hsub; [discriminate|auto].
Qed.

(** Importing a flight on which the user travels, then importing it
    again: after a first import that went through, the second inserts
    nothing and attaches nothing. *)
Lemma second_import_is_empty (db : DB) (userId : string) (f : CreateFlight) :
  serialFlightIds db ->
  (forall fr, In fr (db_flight db) -> noBar (flight_date fr) = true) ->
  noBar (cf_date f) = true ->
  Js.truthyNum (firstFromId f) = true -> Js.truthyNum (firstToId f) = true ->
  knownAirport db (firstFromId f) -> knownAirport db (firstToId f) ->
  travelsOn userId f ->
  let first := createManyFlights db [f] userId true in
  fst first <> None ->
  createManyFlights (snd first) [f] userId true =
  (Some {| insertedFlights := 0; attachedSeats := 0 |}, snd first).
Proof.
  intros Hserial Hdbdates Hdate Hfrom Hto Kfrom Kto Htravels first.
  assert (Hone : forall g, In g [f] -> noBar (cf_date g) = true).
  { intros g [<-|[]]. exact Hdate. }
  assert (Hids : flightIdsNonzero db).
  { intros fr Hfr. destruct Hserial as (_ & Hfl & _). specialize (Hfl fr Hfr). lia. }
  assert (E1 : first = if matched (existingBySigOf (existingFlightsOf db userId [f])) f
                       then (Some {| insertedFlights := 0; attachedSeats := 0 |}, db)
                       else match createManyFlightsPrimitive db [f] with
                            | Some db' =>
                                (Some {| insertedFlights := 1; attachedSeats := 0 |}, db')
                            | None => (None, db)
                            end).
  { subst first. rewrite createManyFlights_dedupe, partitionFlights_spec.
    change (uniqueFlightsOf [f]) with [f]. cbn [filter fst].
    destruct (matched _ f); reflexivity. }
  rewrite E1. clear E1 first.
  destruct (matched (existingBySigOf (existingFlightsOf db userId [f])) f) eqn:Em.
  - (* the flight was there already: the first import changed nothing *)
    intros _. cbn [snd].
    apply imported_batch_is_discarded; auto.
    intros g [<-|[]]. split; [exact Hfrom|]. split; [exact Hto|].
    unfold matched in Em.
    destruct (Js.get (existingBySigOf (existingFlightsOf db userId [f])) (signature f))
      as [eid|] eqn:Eget; [|discriminate].
    apply existingBySigOf_ids in Eget as (ef & Hef & _ & Esig).
    apply existingFlightsOf_listed in Hef.
    exists ef. split; [exact Hef|]. split; [|exact Esig].
    unfold listFlightsQuery, listFlightBaseQuery in Hef.
    apply in_map_iff in Hef as (fr & <- & Hfr). apply filter_In in Hfr as [Hfr _].
    now apply Hdbdates.
  - (* the flight was inserted: the stored copy now matches *)
    destruct (createManyFlightsPrimitive db [f]) as [db1|] eqn:E; [|now intros []].
    intros _. apply createManyFlightsPrimitive_commits in E as ->. cbn [snd].
    destruct (inserted_flight_is_listed db userId f Hserial Hfrom Kfrom Kto Htravels)
      as (Hids1 & ef & Hef & Edate & Esig).
    apply imported_batch_is_discarded; auto.
    intros g [<-|[]]. split; [exact Hfrom|]. split; [exact Hto|].
    exists ef. split; [exact Hef|]. split; [|exact Esig]. now rewrite Edate.
Qed.

Lemma keepTruthy_only (ids : list (option Z)) (z : Z) :
  In z (keepTruthy ids) -> In (Some z) ids /\ z <> 0.
Proof.
  unfold keepTruthy. rewrite in_flat_map. intros ([y|] & Hy & Hz); [|destruct Hz].
  destruct (Js.truthyNum (Some y)) eqn:Et; [|destruct Hz].
  destruct Hz as [->|[]]. split; auto.
  cbn in Et. apply negb_true_iff in Et. now apply Z.eqb_neq.
Qed.

(** The in-memory filter lets through only a stored flight whose first
    leg has an airport of the batch, or has none while the batch names
    the airport -1. *)
Lemma candidate_airport (ids : list (option Z)) (stored : option Z) :
  Js.hasNum (Js.setOfNums (keepTruthy ids)) (orMinusOne stored) = true ->
  (exists z, stored = Some z /\ z <> 0 /\ In (Some z) ids) \/
  (stored = None /\ In (Some (-1)) ids).
Proof.
  intros Hin. apply hasNum_In in Hin. unfold Js.setOfNums in Hin.
  apply nodup_In, keepTruthy_only in Hin as [Hin Hnz].
  destruct stored as [z|]; cbn in *; eauto.
Qed.

(** A flight of the batch that names no airport on one end of its first
    leg, while no first leg of the batch names the airport -1 there, is
    matched with no stored flight. *)
Lemma missing_airport_is_not_matched (db : DB) (userId : string)
      (unique : list CreateFlight) (f : CreateFlight) :
  (forall g, In g unique -> noBar (cf_date g) = true) ->
  In f unique ->
  (Js.truthyNum (firstFromId f) = false /\
   forall g, In g unique -> firstFromId g <> Some (-1)) \/
  (Js.truthyNum (firstToId f) = false /\
   forall g, In g unique -> firstToId g <> Some (-1)) ->
  matched (existingBySigOf (existingFlightsOf db userId unique)) f = false.
Proof.
  intros Hdates Hf Hmissing.
  destruct (matched _ f) eqn:Em; [exfalso|reflexivity].
  unfold matched in Em. apply truthyNum_Some in Em as (eid & Eget & _).
  apply existingBySigOf_ids in Eget as (ef & Hef & _ & Esig).
  unfold existingFlightsOf in Hef.
  destruct (negb _ && negb _ && negb _); [|destruct Hef].
  apply filter_In in Hef as [Hef Hlegs]. apply filter_In in Hef as [_ Hdate].
  assert (Hefdate : noBar (fl_date ef) = true).
  { apply hasStr_In in Hdate. unfold datesOf, Js.setOfStrings in Hdate.
    apply nodup_In, in_map_iff in Hdate as (g & <- & Hg). auto. }
  unfold firstLegMatches in Hlegs.
  destruct (fl_legs ef) as [|l ls] eqn:El; [discriminate|].
  apply andb_prop in Hlegs as [Hfrom Hto].
  destruct (cf_legs f) as [|lf rf] eqn:Elf.
  - (* no leg: the signature is the date, that of a stored flight has a bar *)
    rewrite (signature_no_legs f Elf) in Esig.
    assert (Hbar : noBar (signature (createFlightOf ef)) = false).
    { apply signature_has_bar. unfold createFlightOf. cbn. rewrite El. discriminate. }
    rewrite Esig, (Hdates f Hf) in Hbar. discriminate.
  - assert (Ecomp : cf_date (createFlightOf ef) = cf_date f /\
                    firstFromId (createFlightOf ef) = firstFromId f /\
                    firstToId (createFlightOf ef) = firstToId f).
    { apply signature_first_components; auto.
      - unfold createFlightOf. cbn. rewrite El. discriminate.
      - rewrite Elf. discriminate. }
    destruct Ecomp as (_ & Efrom & Eto).
    unfold firstFromId, firstToId, createFlightOf in Efrom, Eto.
    cbn [cf_legs] in Efrom, Eto. rewrite El in Efrom, Eto.
    cbn [map createLegOf cl_value lv_from lv_to] in Efrom, Eto.
    rewrite Elf in Efrom, Eto.
    destruct Hmissing as [[Hnone Hminus]|[Hnone Hminus]].
    + apply candidate_airport in Hfrom as [(z & Ez & Hnz & _)|(_ & Hin)].
      * unfold firstFromId in Hnone. rewrite Elf, <- Efrom, Ez in Hnone.
        cbn in Hnone. apply negb_false_iff, Z.eqb_eq in Hnone. contradiction.
      * apply in_map_iff in Hin as (g & Eg & Hg). exact (Hminus g Hg Eg).
    + apply candidate_airport in Hto as [(z & Ez & Hnz & _)|(_ & Hin)].
      * unfold firstToId in Hnone. rewrite Elf, <- Eto, Ez in Hnone.
        cbn in Hnone. apply negb_false_iff, Z.eqb_eq in Hnone. contradiction.
      * apply in_map_iff in Hin as (g & Eg & Hg). exact (Hminus g Hg Eg).
Qed.

(** ** The further properties on sample data *)

Lemma dbAlice_consistent : consistent Ex.dbAlice.
Proof.
  unfold consistent. cbn. repeat split.
  - repeat constructor. intros [].
  - repeat constructor. intros [].
  - intros fr [<-|[]]. cbn. lia.
  - intros l [<-|[]]. cbn. lia.
  - intros l [<-|[]]. cbn. auto.
  - intros s [<-|[]]. cbn. auto.
  - repeat constructor. intros [].
Qed.

Lemma alice_on_flight_1 : seatOnFlight Ex.dbAlice Ex.alice 1.
Proof.
  unfold seatOnFlight. do 2 eexists.
  split; [left; reflexivity|]. split; [reflexivity|].
  split; [left; reflexivity|]. split; reflexivity.
Qed.

Lemma flightsAdded_counter (db : DB) (f : CreateFlight) :
  db_nextFlightId (flightsAdded db [f]) = db_nextFlightId db + 1.
Proof.
  cbn [flightsAdded insertFlightRow].
  match goal with |- context [legsAdded ?d ?fid ?i ?ls] =>
    destruct (insertLegsFrom_exact ls d fid i) as (_ & _ & _ & _ & -> & _) end.
  reflexivity.
Qed.

(** The flights that were there read the same after a bulk insert. *)
Lemma flightsAdded_others (data : list CreateFlight) (db : DB) (id : Z) :
  consistent db -> id < db_nextFlightId db ->
  getFlightPrimitive (flightsAdded db data) id = getFlightPrimitive db id.
Proof.
  revert db. induction data as [|f data IH]; intros db Hc Hid; [reflexivity|].
  rewrite createMany_cons, IH.
  - destruct (createFlightPrimitive_read_back db f Hc) as (db1 & fl & -> & _ & _ & _ & _ & _ & Ho).
    apply Ho. lia.
  - now apply consistent_createMany.
  - rewrite flightsAdded_counter. lia.
Qed.

(** Each flight of a bulk insert reads back under its own id, with its
    legs and its seats. *)
Lemma flightsAdded_read_back (data : list CreateFlight) (db : DB) (k : nat)
      (f : CreateFlight) :
  consistent db -> nth_error data k = Some f ->
  exists fl n,
    getFlightPrimitive (flightsAdded db data) (db_nextFlightId db + Z.of_nat k) = Some fl /\
    fl_row fl = flightRowOf (db_nextFlightId db + Z.of_nat k) f /\
    map l_row (fl_legs fl) = legRowsFrom n (db_nextFlightId db + Z.of_nat k) 0 (cf_legs f) /\
    map (fun l => map seatOfRow (l_seats l)) (fl_legs fl) = map cl_seats (cf_legs f).
Proof.
  revert db k. induction data as [|g data IH]; intros db k Hc Hk; [now destruct k|].
  rewrite createMany_cons.
  pose proof (consistent_createMany [g] db Hc) as Hc1.
  destruct k as [|k]; cbn [nth_error] in Hk.
  - injection Hk as ->. rewrite Z.add_0_r.
    destruct (createFlightPrimitive_read_back db f Hc)
      as (db1 & fl & -> & Eget & Erow & Erows & Es & _).
    exists fl, (db_nextLegId db).
    rewrite flightsAdded_others; auto.
    rewrite flightsAdded_counter. lia.
  - destruct (IH (flightsAdded db [g]) k Hc1 Hk) as (fl & n & E).
    rewrite flightsAdded_counter in E.
    replace (db_nextFlightId db + 1 + Z.of_nat k)
      with (db_nextFlightId db + Z.of_nat (S k)) in E by lia.
    eauto.
Qed.



(** The same flight imported into the empty database, twice. *)
Example import_twice :
  createManyFlights (snd (createManyFlights Ex.emptyDB [Ex.aliceFlight] "alice" true))
                    [Ex.aliceFlight] "alice" true =
  (Some {| insertedFlights := 0; attachedSeats := 0 |},
   snd (createManyFlights Ex.emptyDB [Ex.aliceFlight] "alice" true)).
Proof.
  apply (second_import_is_empty Ex.emptyDB "alice" Ex.aliceFlight).
  - split; [reflexivity|]. split; intros x [].
  - intros fr [].
  - reflexivity.
  - reflexivity.
  - reflexivity.
  - exists Ex.jfk. reflexivity.
  - exists Ex.lax. reflexivity.
  - exists 0%nat. eexists. eexists. split; [reflexivity|]. split; [left; reflexivity|].
    reflexivity.
  - discriminate.
Qed.




Lemma deleteMany_is_all_or_nothing_witness :
  exists db', FlightRouter.deleteMany Ex.dbAlice Ex.alice [1] = (Returned tt, db').
Proof.
  apply (proj1 (proj1 (proj2 (deleteMany_is_all_or_nothing Ex.dbAlice Ex.alice [1]
                                ltac:(discriminate)))
                      ltac:(repeat constructor; intros []))).
  intros id [<-|[]]. exact alice_on_flight_1.
Defined.





Lemma signature_compares_the_first_leg_witness :
  signature Ex.aliceFlight = signature Ex.bobFlight.
Proof.
  apply (proj1 (signature_compares_the_first_leg Ex.aliceFlight Ex.bobFlight _ _ _ _
                  eq_refl eq_refl)).
  repeat split.
Defined.




(** Alice on two seats of the one leg of a new flight: the leg validates,
    the engine refuses the second seat, and the flight is not added. *)
Example traveller_twice_is_not_added :
  @validateAndSaveFlight Resolver.helpers Ex.dbAlice Ex.alice
                         (Ex.newFlightOf [Ex2.sameDayAliceTwice]) =
  Some (OperationError "Failed to add flight", Ex.dbAlice).
Proof. vm_compute. reflexivity. Qed.

(** A seat of the file whose user id is [constructor], in a file whose
    one user has another id: [dataUsers] answers with the constructor of
    objects, and flight 3 is noted under the key of a user without id,
    username and display name. *)
Example constructor_is_noted_as_a_user :
  snd (AirTrail.resolveSeats [Ex.seatOf (Some "constructor") None]
         (AirTrail.dataUsersOf [Ex2.fileUser]) [Ex2.fileUserMapped]
         [Ex2.appAlice] Ex2.appAlice 3 []) =
  [("undefined|undefined|undefined", [3%nat])].
Proof. vm_compute. reflexivity. Qed.

(** [deleteAll] removes the flight that Alice flies alone on one leg, and
    keeps the one she flies alone on two legs: she has two seats on it. *)
Example deleteAll_one_leg_and_two :
  db_flight (FlightRouter.deleteAll Ex.dbAlice Ex.alice) = [] /\
  FlightRouter.deleteAll Ex2.dbTwoLegs Ex.alice = Ex2.dbTwoLegs.
Proof. split; vm_compute; reflexivity. Qed.

(** With a bar in a component the signature no longer tells flights
    apart. *)
Example bars_make_signatures_meet :
  signature (Ex2.barFlight (Some "A|B") None) = signature (Ex2.barFlight (Some "A") (Some "B|")).
Proof. reflexivity. Qed.
